(** * TVshowsRecon web client: API gateway, session and view-state logic

    A shallow embedding of the client-side orchestration code of the
    front-end (web/src/api.ts in its two variants, auth/AuthProvider.tsx,
    components/HeartButton.tsx, components/ShowDetails.tsx and
    pages/favorites.tsx), followed by the properties the specification
    states about it. *)

From Stdlib Require Import ZArith QArith_base String Ascii List Bool Lia.
From stdpp Require Import base option list strings gmap pretty.

Set Warnings "-register-all".

Open Scope string_scope.

(** ** JavaScript string primitives *)

Module Js.

(** [s.startsWith(pre)] *)
Definition startsWith (s pre : string) : bool := String.prefix pre s.

(** [s.slice(n)] for a non-negative [n]: the string without its first
    [n] characters. *)
Fixpoint slice (n : nat) (s : string) : string :=
  match n, s with
  | O, _ => s
  | S _, EmptyString => EmptyString
  | S k, String _ t => slice k t
  end.

Definition is_slash (c : ascii) : bool := Ascii.eqb c "/"%char.

Fixpoint drop_leading_slashes (l : list ascii) : list ascii :=
  match l with
  | c :: t => if is_slash c then drop_leading_slashes t else l
  | [] => []
  end.

(** [s.replace(/\/+$/, "")]: the string without its trailing slashes. *)
Definition strip_trailing_slashes (s : string) : string :=
  string_of_list_ascii
    (rev (drop_leading_slashes (rev (list_ascii_of_string s)))).

(** ASCII lower-casing, as the [Headers] class applies to header names. *)
Definition lower_char (c : ascii) : ascii :=
  let n := N_of_ascii c in
  if ((65 <=? n) && (n <=? 90))%N then ascii_of_N (n + 32) else c.

Fixpoint toLowerCase (s : string) : string :=
  match s with
  | EmptyString => EmptyString
  | String c t => String (lower_char c) (toLowerCase t)
  end.

(** JSON values; [option json] is a JavaScript value, [None] being
    [undefined].  Numbers are the integral ones (identifiers, counts). *)
Inductive json :=
| JNull
| JBool (b : bool)
| JNum (n : Z)
| JStr (s : string)
| JArr (items : list json)
| JObj (fields : list (string * json)).

Definition value := option json.

Fixpoint assoc (k : string) (l : list (string * json)) : option json :=
  match l with
  | [] => None
  | (k', v) :: t => if String.eqb k k' then Some v else assoc k t
  end.

(** Object literals and parsed JSON keep the last binding of a key. *)
Definition field (k : string) (l : list (string * json)) : option json :=
  assoc k (rev l).

(** [v?.k], and [v.k] on a value that is neither null nor undefined:
    only objects carry the properties read by the client. *)
Definition prop (v : value) (k : string) : value :=
  match v with
  | Some (JObj l) => field k l
  | _ => None
  end.

(** [a[0]] on an array. *)
Definition first (v : value) : value :=
  match v with
  | Some (JArr (x :: _)) => Some x
  | _ => None
  end.

Definition truthy (v : value) : bool :=
  match v with
  | None | Some JNull => false
  | Some (JBool b) => b
  | Some (JNum n) => negb (n =? 0)%Z
  | Some (JStr s) => negb (String.eqb s "")
  | Some (JArr _) | Some (JObj _) => true
  end.

(** [a ?? b] *)
Definition nullish (a b : value) : value :=
  match a with
  | None | Some JNull => b
  | _ => a
  end.

(** [a || b] *)
Definition or_else (a b : value) : value := if truthy a then a else b.

(** [a && b] *)
Definition and_then (a b : value) : value := if truthy a then b else a.

Definition is_string (v : value) : bool :=
  match v with Some (JStr _) => true | _ => false end.

Definition is_array (v : value) : bool :=
  match v with Some (JArr _) => true | _ => false end.

Fixpoint join (sep : string) (l : list string) : string :=
  match l with
  | [] => ""
  | [x] => x
  | x :: t => x ++ sep ++ join sep t
  end.

(** [String(v)] on a JSON value; inside an array, null prints as the
    empty string. *)
Fixpoint to_string (j : json) : string :=
  match j with
  | JNull => "null"
  | JBool true => "true"
  | JBool false => "false"
  | JNum n => pretty n
  | JStr s => s
  | JArr l =>
      join ","
        (map (fun x => match x with JNull => "" | _ => to_string x end) l)
  | JObj _ => "[object Object]"
  end.

Definition String_ (v : value) : string :=
  match v with
  | None => "undefined"
  | Some j => to_string j
  end.

End Js.

Import Js.

(** What the code takes from the browser without the repository defining
    it: the [URL] parser and [JSON.stringify]. *)
Class Platform := {
  (** [new URL(s).pathname]; [None] when the constructor throws *)
  url_pathname : string -> option string;
  json_stringify : json -> string
}.

(** ** Exceptions and the state-and-exception monad of async code *)

Inductive exn :=
| Error (message : string)
| TypeError (message : string)
| SyntaxError (message : string)
| DOMException (message : string).

Definition message (e : exn) : string :=
  match e with
  | Error m | TypeError m | SyntaxError m | DOMException m => m
  end.

Inductive outcome (A : Type) :=
| Ret (a : A)
| Throw (e : exn).
Arguments Ret {A} a.
Arguments Throw {A} e.

Definition M (S A : Type) : Type := S -> outcome A * S.

Definition ret {S A} (a : A) : M S A := fun s => (Ret a, s).

Definition throw {S A} (e : exn) : M S A := fun s => (Throw e, s).

Definition bind {S A B} (m : M S A) (k : A -> M S B) : M S B :=
  fun s =>
    match m s with
    | (Ret a, s') => k a s'
    | (Throw e, s') => (Throw e, s')
    end.

(** [try { m } catch (e) { h e }] *)
Definition try_catch {S A} (m : M S A) (h : exn -> M S A) : M S A :=
  fun s =>
    match m s with
    | (Ret a, s') => (Ret a, s')
    | (Throw e, s') => h e s'
    end.

(** [try { m } finally { f }] *)
Definition finally {S A} (m : M S A) (f : M S unit) : M S A :=
  fun s =>
    match m s with
    | (r, s') =>
        match f s' with
        | (Ret _, s'') => (r, s'')
        | (Throw e, s'') => (Throw e, s'')
        end
    end.

Definition gets {S A} (f : S -> A) : M S A := fun s => (Ret (f s), s).

Definition modify {S} (f : S -> S) : M S unit := fun s => (Ret tt, f s).

(** Running a computation on a component of the state. *)
Definition zoom {S T A} (get : S -> T) (set : T -> S -> S) (m : M T A)
  : M S A :=
  fun s => match m (get s) with (r, t') => (r, set t' s) end.

Definition when_ {S} (b : bool) (m : M S unit) : M S unit :=
  if b then m else ret tt.

Declare Scope js_scope.
Delimit Scope js_scope with js.
Notation "'await' x <- m ; k" := (bind m (fun x => k))
  (at level 10, x pattern, m at level 100, k at level 200) : js_scope.
Notation "'run' m ; k" := (bind m (fun _ => k))
  (at level 10, m at level 100, k at level 200) : js_scope.
Open Scope js_scope.


(** ** The browser: localStorage, fetch, console *)

(** [Headers]: names are case-insensitive and kept lower-cased. *)
Module Headers.

Definition t := list (string * string).

Definition same (name : string) (e : string * string) : bool :=
  String.eqb (fst e) (toLowerCase name).

Definition has (h : t) (name : string) : bool := existsb (same name) h.

Definition get (h : t) (name : string) : option string :=
  snd <$> List.find (same name) h.

Definition set (h : t) (name v : string) : t :=
  if has h name
  then map (fun e => if same name e then (fst e, v) else e) h
  else (h ++ [(toLowerCase name, v)])%list.

Definition append (h : t) (name v : string) : t :=
  if has h name
  then map (fun e => if same name e then (fst e, snd e ++ ", " ++ v) else e) h
  else (h ++ [(toLowerCase name, v)])%list.

(** [new Headers(init)] for a record of strings, or for undefined. *)
Definition make (init : option (list (string * string))) : t :=
  match init with
  | None => []
  | Some l => fold_left (fun h e => append h (fst e) (snd e)) l []
  end.

End Headers.

(** localStorage.  Access throws when the storage is unavailable
    (disabled, sandboxed frame); writing also throws when the quota is
    exhausted. *)
Record Storage := {
  available : bool;
  quota_left : bool;
  items : gmap string string
}.

Record Response := {
  status : N;
  statusText : string;
  (** what [res.json()] yields on an unread body; [None] when it rejects *)
  body_json : option json;
  (** what [res.text()] yields on an unread body; [None] when it rejects *)
  body_text : option string;
  bodyUsed : bool
}.

Record Request := {
  req_url : string;
  req_method : option string;
  req_headers : Headers.t;
  req_body : option string;
  req_credentials : option string
}.

Inductive FetchResult :=
| NetworkFailure (msg : string)
| Responded (r : Response).

Record Browser := {
  localStorage : Storage;
  (** the remote side: the result of the n-th request ever sent *)
  network : nat -> Request -> FetchResult;
  sent : list Request;
  console_errors : list (string * exn);
  alerts : list string;
  navigations : list string
}.

Definition set_localStorage (f : Storage -> Storage) (b : Browser) : Browser :=
  {| localStorage := f (localStorage b); network := network b;
     sent := sent b; console_errors := console_errors b;
     alerts := alerts b; navigations := navigations b |}.

Definition getItem (k : string) : M Browser (option string) :=
  fun b =>
    if available (localStorage b)
    then (Ret (items (localStorage b) !! k), b)
    else (Throw (DOMException "The operation is insecure."), b).

Definition setItem (k v : string) : M Browser unit :=
  fun b =>
    if available (localStorage b) && quota_left (localStorage b)
    then (Ret tt,
          set_localStorage
            (fun s => {| available := available s; quota_left := quota_left s;
                         items := <[k := v]> (items s) |}) b)
    else (Throw (DOMException "The quota has been exceeded."), b).

Definition removeItem (k : string) : M Browser unit :=
  fun b =>
    if available (localStorage b)
    then (Ret tt,
          set_localStorage
            (fun s => {| available := available s; quota_left := quota_left s;
                         items := delete k (items s) |}) b)
    else (Throw (DOMException "The operation is insecure."), b).

(** [fetch(url, init)]: the request is recorded and answered by the
    remote side; a network failure rejects with a TypeError. *)
Definition fetch (rq : Request) : M Browser Response :=
  fun b =>
    let b' := {| localStorage := localStorage b; network := network b;
                 sent := (sent b ++ [rq])%list; console_errors := console_errors b;
                 alerts := alerts b; navigations := navigations b |} in
    match network b (length (sent b)) rq with
    | NetworkFailure m => (Throw (TypeError m), b')
    | Responded r => (Ret r, b')
    end.

Definition console_error (label : string) (e : exn) : M Browser unit :=
  modify (fun b =>
    {| localStorage := localStorage b; network := network b;
       sent := sent b; console_errors := (console_errors b ++ [(label, e)])%list;
       alerts := alerts b; navigations := navigations b |}).

Definition alert (m : string) : M Browser unit :=
  modify (fun b =>
    {| localStorage := localStorage b; network := network b;
       sent := sent b; console_errors := console_errors b;
       alerts := (alerts b ++ [m])%list; navigations := navigations b |}).

Definition navigate (to : string) : M Browser unit :=
  modify (fun b =>
    {| localStorage := localStorage b; network := network b;
       sent := sent b; console_errors := console_errors b;
       alerts := alerts b; navigations := (navigations b ++ [to])%list |}).

(** [res.ok] *)
Definition ok (r : Response) : bool := ((200 <=? status r) && (status r <=? 299))%N.

Definition used (r : Response) : Response :=
  {| status := status r; statusText := statusText r;
     body_json := body_json r; body_text := body_text r; bodyUsed := true |}.

(** [res.json()] and [res.text()]: the body can be read once. *)
Definition res_json {S} (r : Response) : M S (json * Response) :=
  if bodyUsed r then throw (TypeError "body stream already read")
  else match body_json r with
       | Some j => ret (j, used r)
       | None => fun s => (Throw (SyntaxError "Unexpected token"), s)
       end.

Definition res_text {S} (r : Response) : M S (string * Response) :=
  if bodyUsed r then throw (TypeError "body stream already read")
  else match body_text r with
       | Some t => ret (t, used r)
       | None => throw (TypeError "Failed to read the body")
       end.

(** [RequestInit & { parse?: "json" | "text" }] *)
Record RequestInit := {
  init_method : option string;
  init_headers : option (list (string * string));
  init_body : option string;
  init_credentials : option string;
  init_parse : option string
}.

Definition GET : RequestInit :=
  {| init_method := Some "GET"; init_headers := None; init_body := None;
     init_credentials := None; init_parse := None |}.
Definition POST (body : option string) : RequestInit :=
  {| init_method := Some "POST"; init_headers := None; init_body := body;
     init_credentials := None; init_parse := None |}.
Definition DELETE : RequestInit :=
  {| init_method := Some "DELETE"; init_headers := None; init_body := None;
     init_credentials := None; init_parse := None |}.

(** ** api.ts, first variant *)

Module ApiA.
Section WithPlatform.
Context {P : Platform}.

Definition BASE : string := "/api".
Definition TOKEN_KEY : string := "access_token".

Definition getToken : M Browser (option string) :=
  try_catch (getItem TOKEN_KEY) (fun _ => ret None).

Definition setToken (token : value) : M Browser unit :=
  try_catch
    (if truthy token then setItem TOKEN_KEY (String_ token)
     else removeItem TOKEN_KEY)
    (fun _ => ret tt).

Definition clearToken : M Browser unit := setToken (Some JNull).

Definition buildUrl (path : string) : string :=
  if startsWith path "http://" || startsWith path "https://" then path
  else if String.eqb path "/api" || startsWith path "/api/" then path
  else BASE ++ (if startsWith path "/" then "" else "/") ++ path.

Definition shouldSkipAuth (path : string) : M Browser bool :=
  match (if startsWith path "http" then url_pathname path else Some path) with
  | None => throw (TypeError "Invalid URL")
  | Some p => ret (startsWith p "/auth/login" || startsWith p "/auth/register")
  end.

(** The message of a failed response: the default, replaced by what the
    JSON body offers. *)
Definition error_message (res : Response) : M Browser string :=
  let msg := "HTTP " ++ pretty (status res) in
  try_catch
    (await (j, _) <- res_json res;
     let detail := prop (Some j) "detail" in
     if is_string detail then ret (String_ detail)
     else if is_array detail && truthy (prop (first detail) "msg")
     then ret (String_ (prop (first detail) "msg"))
     else ret msg)
    (fun _ => ret msg).

Definition attach_auth (path : string) (headers : Headers.t)
  : M Browser Headers.t :=
  await skip <- shouldSkipAuth path;
  if negb skip then
    await tok <- getToken;
    match tok with
    | Some t =>
        if negb (String.eqb t "") && negb (Headers.has headers "Authorization")
        then ret (Headers.set headers "Authorization" ("Bearer " ++ t))
        else ret headers
    | None => ret headers
    end
  else ret headers.

(** [http], from the check of the status on. *)
Definition respond (init : option RequestInit) (res : Response)
  : M Browser value :=
  run when_ (status res =? 401)%N clearToken;
  if negb (ok res) then
    await msg <- error_message res;
    throw (Error msg)
  else
    let mode := default "json" (init ≫= init_parse) in
    if String.eqb mode "text" then
      await (t, _) <- res_text res; ret (Some (JStr t))
    else if (status res =? 204)%N then ret None
    else await (j, _) <- res_json res; ret (Some j).

(** The argument of [fetch]. *)
Definition request (path : string) (init : option RequestInit)
  (headers : Headers.t) : Request :=
  {| req_url := buildUrl path;
     req_method := init ≫= init_method;
     req_headers := headers;
     req_body := init ≫= init_body;
     req_credentials :=
       Some (default "same-origin" (init ≫= init_credentials)) |}.

Definition http (path : string) (init : option RequestInit) : M Browser value :=
  let headers := Headers.make (init ≫= init_headers) in
  let headers :=
    if negb (Headers.has headers "Content-Type")
    then Headers.set headers "Content-Type" "application/json"
    else headers in
  await headers <- attach_auth path headers;
  await res <- fetch (request path init headers);
  respond init res.

Definition credentials (email password : string) : string :=
  json_stringify (JObj [("email", JStr email); ("password", JStr password)]).

Definition login (email password : string) : M Browser value :=
  run clearToken;
  http "/auth/login" (Some (POST (Some (credentials email password)))).

Definition register (email password : string) : M Browser value :=
  run clearToken;
  http "/auth/register" (Some (POST (Some (credentials email password)))).

Definition me : M Browser value := http "/auth/me" None.

Definition listFavorites (userId : Z) : M Browser value :=
  http ("/library/" ++ pretty userId ++ "/favorites") (Some GET).

Definition addFavorite (userId tmdbId : Z) : M Browser unit :=
  run http ("/library/" ++ pretty userId ++ "/favorites/" ++ pretty tmdbId)
        (Some (POST None));
  ret tt.

Definition removeFavorite (userId tmdbId : Z) : M Browser unit :=
  run http ("/library/" ++ pretty userId ++ "/favorites/" ++ pretty tmdbId)
        (Some DELETE);
  ret tt.

Definition markNotInterested (userId tmdbId : Z) : M Browser unit :=
  run http ("/users/" ++ pretty userId ++ "/not-interested/" ++ pretty tmdbId)
        (Some (POST None));
  ret tt.

Definition removeNotInterested (userId tmdbId : Z) : M Browser unit :=
  run http ("/users/" ++ pretty userId ++ "/not-interested/" ++ pretty tmdbId)
        (Some DELETE);
  ret tt.

End WithPlatform.
End ApiA.

(** ** api.ts, second variant *)

(** [import.meta.env] as far as the module reads it. *)
Record ImportMetaEnv := {
  VITE_API_BASE : option string;
  MODE : string
}.

Module ApiB.
Section WithPlatform.
Context {P : Platform} (env : ImportMetaEnv).

Definition BASE : string :=
  match VITE_API_BASE env with
  | Some b => b
  | None =>
      if String.eqb (MODE env) "development" then "/api"
      else "https://whatnext-api.onrender.com/api"
  end.

Definition BASE_NORM : string := strip_trailing_slashes BASE.

Definition TOKEN_KEY : string := "access_token".

Definition getToken : M Browser (option string) :=
  try_catch (getItem TOKEN_KEY) (fun _ => ret None).

Definition setToken (token : value) : M Browser unit :=
  try_catch (setItem TOKEN_KEY (String_ token)) (fun _ => ret tt).

Definition clearToken : M Browser unit :=
  try_catch (removeItem TOKEN_KEY) (fun _ => ret tt).

Definition buildUrl (path : string) : string :=
  if startsWith path "http://" || startsWith path "https://" then path
  else
    let p :=
      if String.eqb path "/api" then ""
      else if startsWith path "/api/" then slice 4 path
      else path in
    BASE_NORM ++ (if startsWith p "/" then "" else "/") ++ p.

Definition apiUrl (path : string) : string := buildUrl path.

Definition shouldSkipAuth (path : string) : M Browser bool :=
  match (if startsWith path "http" then url_pathname path else Some path) with
  | None => throw (TypeError "Invalid URL")
  | Some p => ret (startsWith p "/auth/login" || startsWith p "/auth/register")
  end.

Definition attach_auth (path : string) (headers : Headers.t)
  : M Browser Headers.t :=
  await skip <- shouldSkipAuth path;
  if negb skip then
    await tok <- getToken;
    match tok with
    | Some t =>
        if negb (String.eqb t "") && negb (Headers.has headers "Authorization")
        then ret (Headers.set headers "Authorization" ("Bearer " ++ t))
        else ret headers
    | None => ret headers
    end
  else ret headers.

(** The body of a failed response: its JSON, else its text, else null.
    A failed [res.json()] has consumed the body. *)
Definition error_detail (res : Response) : M Browser json :=
  try_catch
    (await (j, _) <- res_json res; ret j)
    (fun _ =>
       try_catch
         (await (t, _) <- res_text (used res); ret (JStr t))
         (fun _ => ret JNull)).

Definition error_message (res : Response) (detail : json) : string :=
  String_
    (or_else
       (and_then (Some detail)
          (nullish (prop (Some detail) "detail")
             (nullish (prop (Some detail) "message")
                (Some (JStr (json_stringify detail))))))
       (Some (JStr (pretty (status res) ++ " " ++ statusText res)))).

(** [http], from the check of the status on. *)
Definition respond (init : option RequestInit) (res : Response)
  : M Browser value :=
  if negb (ok res) then
    await detail <- error_detail res;
    throw (Error (error_message res detail))
  else
    let parse := default "json" (init ≫= init_parse) in
    if String.eqb parse "text" then
      await (t, _) <- res_text res; ret (Some (JStr t))
    else if (status res =? 204)%N then ret None
    else await (j, _) <- res_json res; ret (Some j).

(** The argument of [fetch]. *)
Definition request (path : string) (init : option RequestInit)
  (headers : Headers.t) : Request :=
  {| req_url := buildUrl path;
     req_method := init ≫= init_method;
     req_headers := headers;
     req_body := init ≫= init_body;
     req_credentials := init ≫= init_credentials |}.

Definition http (path : string) (init : option RequestInit) : M Browser value :=
  let headers := Headers.make (init ≫= init_headers) in
  let headers :=
    if negb (Headers.has headers "Content-Type")
    then Headers.set headers "Content-Type" "application/json"
    else headers in
  await headers <- attach_auth path headers;
  await res <- fetch (request path init headers);
  respond init res.

Definition credentials (email password : string) : string :=
  json_stringify (JObj [("email", JStr email); ("password", JStr password)]).

Definition login (email password : string) : M Browser value :=
  run clearToken;
  http "/auth/login" (Some (POST (Some (credentials email password)))).

Definition register (email password : string) : M Browser value :=
  run clearToken;
  http "/auth/register" (Some (POST (Some (credentials email password)))).

Definition me : M Browser value := http "/me" (Some GET).

End WithPlatform.
End ApiB.

(** *** What the token helpers leave in the browser *)

(** The storage after [removeItem] in a try block. *)
Definition without_token (b : Browser) : Browser :=
  if available (localStorage b)
  then set_localStorage
         (fun s => {| available := available s; quota_left := quota_left s;
                      items := delete ApiA.TOKEN_KEY (items s) |}) b
  else b.

(** The storage after [setItem] in a try block. *)
Definition with_token (t : string) (b : Browser) : Browser :=
  if available (localStorage b) && quota_left (localStorage b)
  then set_localStorage
         (fun s => {| available := available s; quota_left := quota_left s;
                      items := <[ApiA.TOKEN_KEY := t]> (items s) |}) b
  else b.

(** *** Which requests exchange credentials *)

(** The path that decides it: the pathname of an absolute URL, else the
    path as given. *)
Definition request_path {P : Platform} (path : string) : option string :=
  if startsWith path "http" then url_pathname path else Some path.

(** Paths under /auth/login or /auth/register. *)
Definition credential_exchange (p : string) : bool :=
  startsWith p "/auth/login" || startsWith p "/auth/register".

(** The headers [http] starts from: those of the caller, with the
    default content type. *)
Definition initial_headers (init : option RequestInit) : Headers.t :=
  let headers := Headers.make (init ≫= init_headers) in
  if negb (Headers.has headers "Content-Type")
  then Headers.set headers "Content-Type" "application/json"
  else headers.

(** What [getToken] reads. *)
Definition stored_token (b : Browser) : option string :=
  if available (localStorage b)
  then items (localStorage b) !! "access_token" else None.

(** The browser once a request has been handed to [fetch]. *)
Definition sending (rq : Request) (b : Browser) : Browser :=
  {| localStorage := localStorage b; network := network b;
     sent := (sent b ++ [rq])%list; console_errors := console_errors b;
     alerts := alerts b; navigations := navigations b |}.

(** The headers of a request on path [p], from the headers [h] built so
    far and the stored token. *)
Definition authorized (p : string) (h : Headers.t) (b : Browser) : Headers.t :=
  if credential_exchange p then h
  else match stored_token b with
       | Some t =>
           if negb (String.eqb t "") && negb (Headers.has h "Authorization")
           then Headers.set h "Authorization" ("Bearer " ++ t)
           else h
       | None => h
       end.

(** *** Outcomes of a request, as login sees them *)

(** The request failed: no response, or a status outside 200..299. *)
Definition failed (r : FetchResult) : bool :=
  match r with
  | NetworkFailure _ => true
  | Responded res => negb (ok res)
  end.

Definition unauthorized (r : FetchResult) : bool :=
  match r with
  | NetworkFailure _ => false
  | Responded res => (status res =? 401)%N
  end.

(** The access token that a credential exchange hands out: the
    access_token of the JSON body of a successful response. *)
Definition granted (r : FetchResult) : value :=
  match r with
  | NetworkFailure _ => None
  | Responded res =>
      if ok res && negb (status res =? 204)%N && negb (bodyUsed res)
      then prop (body_json res) "access_token"
      else None
  end.

(** Two browsers with the same remote side and the same storage
    conditions. *)
Definition same_world (b b' : Browser) : Prop :=
  network b' = network b /\
  available (localStorage b') = available (localStorage b) /\
  quota_left (localStorage b') = quota_left (localStorage b).

(** *** Generations of an effect *)

(** The runs of an effect are its generations, oldest first.  A run that
    is not cancelled is the last one, and React holds its cleanup. *)
Definition latest_only {Run} (cancelled : Run -> bool) (runs : list Run)
  (cleanup : option nat) : Prop :=
  forall i r, runs !! i = Some r -> cancelled r = false ->
              cleanup = Some i /\ S i = length runs.

Definition all_cancelled {Run} (cancelled : Run -> bool) (runs : list Run)
  : Prop :=
  forall i r, runs !! i = Some r -> cancelled r = true.

(** The deployment of the specification's example. *)
Definition example_env : ImportMetaEnv :=
  {| VITE_API_BASE := Some "https://api.example.com/api";
     MODE := "production" |}.

(** ** auth/AuthProvider.tsx *)

(** What AuthProvider imports from "../api". *)
Record AuthApi := {
  apiLogin : string -> string -> M Browser value;
  apiRegister : string -> string -> M Browser value;
  apiMe : M Browser value;
  api_setToken : value -> M Browser unit;
  api_clearToken : M Browser unit
}.

Definition authApiA {P : Platform} : AuthApi :=
  {| apiLogin := ApiA.login; apiRegister := ApiA.register; apiMe := ApiA.me;
     api_setToken := ApiA.setToken; api_clearToken := ApiA.clearToken |}.

Definition authApiB {P : Platform} (env : ImportMetaEnv) : AuthApi :=
  {| apiLogin := ApiB.login env; apiRegister := ApiB.register env;
     apiMe := ApiB.me env;
     api_setToken := ApiB.setToken; api_clearToken := ApiB.clearToken |}.

Module AuthProvider.

Record State := {
  user : value;
  loading : bool;
  browser : Browser
}.

Definition in_browser {A} (m : M Browser A) : M State A :=
  zoom browser
    (fun b s => {| user := user s; loading := loading s; browser := b |}) m.

Definition setUser (u : value) : M State unit :=
  modify (fun s => {| user := u; loading := loading s; browser := browser s |}).

Definition setLoading (l : bool) : M State unit :=
  modify (fun s => {| user := user s; loading := l; browser := browser s |}).

Section WithApi.
Variable api : AuthApi.

(** The effect that restores the session on mount. *)
Definition restore : M State unit :=
  finally
    (try_catch
       (await u <- in_browser (apiMe api);
        setUser u)
       (fun _ =>
          run in_browser (api_clearToken api);
          setUser (Some JNull)))
    (setLoading false).

Definition login (email password : string) : M State value :=
  await tok <- in_browser (apiLogin api email password);
  if negb (truthy (prop tok "access_token"))
  then throw (Error "No access token returned")
  else
    run in_browser (api_setToken api (prop tok "access_token"));
    await u <- in_browser (apiMe api);
    run setUser u;
    ret u.

Definition register (email password : string) : M State value :=
  await tok <- in_browser (apiRegister api email password);
  if negb (truthy (prop tok "access_token"))
  then throw (Error "No access token returned")
  else
    run in_browser (api_setToken api (prop tok "access_token"));
    await u <- in_browser (apiMe api);
    run setUser u;
    ret u.

Definition logout : M State unit :=
  run in_browser (api_clearToken api);
  setUser (Some JNull).

End WithApi.
End AuthProvider.

(** ** The library types of api.ts and what the pages import *)

Module User.
Record t := {
  id : Z;
  email : string;
  is_admin : bool
}.
End User.

(** [Show]: the identifier fields that the pages read, some of them
    through the index signature. *)
Module Show.
Record t := {
  tmdb_id : option Z;
  external_id : option Z;
  id : option Z;
  show_id : option Z;
  title : option string
}.
End Show.

(** [UserRating]; the rating is carried, never computed with. *)
Module UserRating.
Record t := {
  tmdb_id : Z;
  rating : Q;
  title : option string
}.
End UserRating.

(** ** components/HeartButton.tsx *)

Module HeartButton.

Record Props := {
  userId : Z;
  tmdbId : option Z;
  isFavorite : option bool;
  onChange : option (bool -> M Browser unit)
}.

Record State := {
  fav : bool;
  busy : bool;
  browser : Browser
}.

(** [useState(!!isFavorite)], [useState(false)] *)
Definition mount (p : Props) (b : Browser) : State :=
  {| fav := default false (isFavorite p); busy := false; browser := b |}.

Definition in_browser {A} (m : M Browser A) : M State A :=
  zoom browser (fun b s => {| fav := fav s; busy := busy s; browser := b |}) m.

Definition setFav (v : bool) : M State unit :=
  modify (fun s => {| fav := v; busy := busy s; browser := browser s |}).

Definition setBusy (v : bool) : M State unit :=
  modify (fun s => {| fav := fav s; busy := v; browser := browser s |}).

Definition canToggle (p : Props) : bool :=
  match tmdbId p with
  | Some t => negb (t =? 0)%Z
  | None => false
  end && (0 <? userId p)%Z.

Definition notify_change (p : Props) (v : bool) : M State unit :=
  match onChange p with
  | Some f => in_browser (f v)
  | None => ret tt
  end.

Section WithApi.
(** [import { addFavorite, removeFavorite } from "../api"] *)
Variable addFavorite removeFavorite : Z -> Z -> M Browser unit.

Definition toggle (p : Props) : M State unit :=
  await is_fav <- gets fav;
  await is_busy <- gets busy;
  match tmdbId p with
  | Some tid =>
      if negb (canToggle p) || is_busy then ret tt
      else
        run setBusy true;
        finally
          (try_catch
             (if is_fav then
                run in_browser (removeFavorite (userId p) tid);
                run setFav false;
                notify_change p false
              else
                run in_browser (addFavorite (userId p) tid);
                run setFav true;
                notify_change p true)
             (fun e => in_browser (console_error "favorite toggle failed" e)))
          (setBusy false)
  | None => ret tt
  end.

End WithApi.
End HeartButton.

(** ** components/ShowDetails.tsx: the hook that loads one show *)

Module UseTmdbShow.

Record TmdbShow := {
  id : option Z;
  tmdb_id : option Z;
  name : option string
}.

(** What the hook returns for the show itself. *)
Record View := {
  data : option TmdbShow;
  loading : bool;
  error : option string
}.

Definition setData (d : option TmdbShow) (v : View) : View :=
  {| data := d; loading := loading v; error := error v |}.
Definition setLoading (l : bool) (v : View) : View :=
  {| data := data v; loading := l; error := error v |}.
Definition setError (e : option string) (v : View) : View :=
  {| data := data v; loading := loading v; error := e |}.

(** One run of the effect: its [cancelled] variable, shared by the
    cleanup and by [fetchShow], and where [fetchShow] is suspended. *)
Inductive Phase := AwaitingFetch | AwaitingJson | Finished.

Record Run := {
  cancelled : bool;
  phase : Phase
}.

Record State := {
  view : View;
  runs : list Run;
  (** the run whose cleanup React holds *)
  cleanup : option nat
}.

Inductive Event :=
| Render (id : option Z)
| Unmount
| FetchSettled (g : nat) (r : FetchResult)
| JsonSettled (g : nat) (r : outcome TmdbShow).

(** [useState(null)], [useState(true)], [useState(null)] *)
Definition initial : State :=
  {| view := {| data := None; loading := true; error := None |};
     runs := []; cleanup := None |}.

Definition cancel (r : Run) : Run := {| cancelled := true; phase := phase r |}.
Definition move (p : Phase) (r : Run) : Run :=
  {| cancelled := cancelled r; phase := p |}.

(** The cleanup of the previous run: [cancelled = true]. *)
Definition run_cleanup (s : State) : State :=
  match cleanup s with
  | Some g => {| view := view s; runs := alter cancel g (runs s); cleanup := None |}
  | None => s
  end.

Definition valid_id (id : option Z) : bool :=
  match id with
  | Some n => (0 <? n)%Z
  | None => false
  end.

(** The effect body up to the first [await] of [fetchShow]. *)
Definition run_effect (id : option Z) (s : State) : State :=
  if negb (valid_id id) then
    {| view := setError (Some "Invalid show ID")
                 (setLoading false (setData None (view s)));
       runs := runs s; cleanup := None |}
  else
    {| view := setError None (setLoading true (view s));
       runs := (runs s ++ [{| cancelled := false; phase := AwaitingFetch |}])%list;
       cleanup := Some (length (runs s)) |}.

(** [catch (e) { if (!cancelled) setError(...) } finally { if (!cancelled)
    setLoading(false) }] *)
Definition on_failure (c : bool) (e : exn) (v : View) : View :=
  let v := if negb c then setError (Some (message e)) v else v in
  if negb c then setLoading false v else v.

Definition on_success (c : bool) (d : TmdbShow) (v : View) : View :=
  let v := if negb c then setData (Some d) v else v in
  if negb c then setLoading false v else v.

Definition resume (g : nat) (p : Phase) (v : View) (s : State) : State :=
  {| view := v; runs := alter (move p) g (runs s); cleanup := cleanup s |}.

Definition step (s : State) (ev : Event) : State :=
  match ev with
  | Render id => run_effect id (run_cleanup s)
  | Unmount => run_cleanup s
  | FetchSettled g r =>
      match runs s !! g with
      | Some {| cancelled := c; phase := AwaitingFetch |} =>
          match r with
          | NetworkFailure m =>
              resume g Finished (on_failure c (TypeError m) (view s)) s
          | Responded res =>
              if negb (ok res) then
                resume g Finished
                  (on_failure c (Error ("HTTP " ++ pretty (status res))) (view s)) s
              else resume g AwaitingJson (view s) s
          end
      | _ => s
      end
  | JsonSettled g r =>
      match runs s !! g with
      | Some {| cancelled := c; phase := AwaitingJson |} =>
          match r with
          | Ret d => resume g Finished (on_success c d (view s)) s
          | Throw e => resume g Finished (on_failure c e (view s)) s
          end
      | _ => s
      end
  end.

Definition exec (s : State) (evs : list Event) : State := fold_left step evs s.

End UseTmdbShow.

(** ** components/ShowDetails.tsx: favourites and not-interested *)

Module ShowDetails.

Import UseTmdbShow(TmdbShow).

Definition getTmdbId (show : option TmdbShow) : option Z :=
  match show with
  | None => None
  | Some s =>
      match UseTmdbShow.tmdb_id s with
      | Some n => Some n
      | None => UseTmdbShow.id s
      end
  end.

(** The favourites and not-interested state of the component. *)
Record Library := {
  favoriteIds : list Z;
  favoritesLoading : bool;
  favoritesError : option string;
  notInterestedIds : list Z;
  notInterestedLoading : bool;
  notInterestedError : option string
}.

Definition setFavoriteIds (f : list Z -> list Z) (l : Library) : Library :=
  {| favoriteIds := f (favoriteIds l); favoritesLoading := favoritesLoading l;
     favoritesError := favoritesError l; notInterestedIds := notInterestedIds l;
     notInterestedLoading := notInterestedLoading l;
     notInterestedError := notInterestedError l |}.
Definition setFavoritesLoading (b : bool) (l : Library) : Library :=
  {| favoriteIds := favoriteIds l; favoritesLoading := b;
     favoritesError := favoritesError l; notInterestedIds := notInterestedIds l;
     notInterestedLoading := notInterestedLoading l;
     notInterestedError := notInterestedError l |}.
Definition setFavoritesError (e : option string) (l : Library) : Library :=
  {| favoriteIds := favoriteIds l; favoritesLoading := favoritesLoading l;
     favoritesError := e; notInterestedIds := notInterestedIds l;
     notInterestedLoading := notInterestedLoading l;
     notInterestedError := notInterestedError l |}.
Definition setNotInterestedIds (f : list Z -> list Z) (l : Library) : Library :=
  {| favoriteIds := favoriteIds l; favoritesLoading := favoritesLoading l;
     favoritesError := favoritesError l; notInterestedIds := f (notInterestedIds l);
     notInterestedLoading := notInterestedLoading l;
     notInterestedError := notInterestedError l |}.
Definition setNotInterestedLoading (b : bool) (l : Library) : Library :=
  {| favoriteIds := favoriteIds l; favoritesLoading := favoritesLoading l;
     favoritesError := favoritesError l; notInterestedIds := notInterestedIds l;
     notInterestedLoading := b;
     notInterestedError := notInterestedError l |}.
Definition setNotInterestedError (e : option string) (l : Library) : Library :=
  {| favoriteIds := favoriteIds l; favoritesLoading := favoritesLoading l;
     favoritesError := favoritesError l; notInterestedIds := notInterestedIds l;
     notInterestedLoading := notInterestedLoading l;
     notInterestedError := e |}.

(** [new Set(ids).has(tid)] *)
Definition has (ids : list Z) (tid : Z) : bool := existsb (Z.eqb tid) ids.

Definition isFavorite (l : Library) (show : option TmdbShow) : bool :=
  match getTmdbId show with
  | Some tid => if (tid =? 0)%Z then false else has (favoriteIds l) tid
  | None => false
  end.


(** *** The effect that loads both lists when the user changes *)

Module Effect.

(** One run of the effect: its [cancelled] variable and the two loads
    it started. *)
Record Run := {
  cancelled : bool;
  favoritesPending : bool;
  notInterestedPending : bool
}.

Record State := {
  library : Library;
  runs : list Run;
  cleanup : option nat
}.

Inductive Event :=
| Render (userId : option Z)
| Unmount
| FavoritesSettled (g : nat) (r : outcome (option (list Show.t)))
| NotInterestedSettled (g : nat) (r : outcome (option (list Z))).

Definition initial : State :=
  {| library := {| favoriteIds := []; favoritesLoading := false;
                   favoritesError := None; notInterestedIds := [];
                   notInterestedLoading := false; notInterestedError := None |};
     runs := []; cleanup := None |}.

Definition cancel (r : Run) : Run :=
  {| cancelled := true; favoritesPending := favoritesPending r;
     notInterestedPending := notInterestedPending r |}.
Definition favoritesDone (r : Run) : Run :=
  {| cancelled := cancelled r; favoritesPending := false;
     notInterestedPending := notInterestedPending r |}.
Definition notInterestedDone (r : Run) : Run :=
  {| cancelled := cancelled r; favoritesPending := favoritesPending r;
     notInterestedPending := false |}.

Definition run_cleanup (s : State) : State :=
  match cleanup s with
  | Some g => {| library := library s; runs := alter cancel g (runs s);
                 cleanup := None |}
  | None => s
  end.

(** [!userId] *)
Definition no_user (userId : option Z) : bool :=
  match userId with
  | Some n => (n =? 0)%Z
  | None => true
  end.

Definition run_effect (userId : option Z) (s : State) : State :=
  if no_user userId then
    {| library :=
         setNotInterestedError None
           (setFavoritesError None
              (setNotInterestedIds (fun _ => [])
                 (setFavoriteIds (fun _ => []) (library s))));
       runs := runs s; cleanup := None |}
  else
    {| library :=
         setNotInterestedError None
           (setNotInterestedLoading true
              (setFavoritesError None
                 (setFavoritesLoading true (library s))));
       runs := (runs s ++ [{| cancelled := false; favoritesPending := true;
                              notInterestedPending := true |}])%list;
       cleanup := Some (length (runs s)) |}.

(** [(favs || []).map((s) => s.tmdb_id ?? s.id).filter(typeof number)] *)
Definition mapped (favs : option (list Show.t)) : list Z :=
  omap (fun s => match Show.tmdb_id s with
                 | Some n => Some n
                 | None => Show.id s
                 end)
       (default [] favs).

Definition favorites_settled (c : bool) (r : outcome (option (list Show.t)))
  (l : Library) : Library :=
  let l :=
    match r with
    | Ret favs => if negb c then setFavoriteIds (fun _ => mapped favs) l else l
    | Throw e => if negb c then setFavoritesError (Some (message e)) l else l
    end in
  if negb c then setFavoritesLoading false l else l.

Definition notInterested_settled (c : bool) (r : outcome (option (list Z)))
  (l : Library) : Library :=
  let l :=
    match r with
    | Ret ni => if negb c then setNotInterestedIds (fun _ => default [] ni) l else l
    | Throw e => if negb c then setNotInterestedError (Some (message e)) l else l
    end in
  if negb c then setNotInterestedLoading false l else l.

Definition step (s : State) (ev : Event) : State :=
  match ev with
  | Render userId => run_effect userId (run_cleanup s)
  | Unmount => run_cleanup s
  | FavoritesSettled g r =>
      match runs s !! g with
      | Some this =>
          if favoritesPending this then
            {| library := favorites_settled (cancelled this) r (library s);
               runs := alter favoritesDone g (runs s); cleanup := cleanup s |}
          else s
      | None => s
      end
  | NotInterestedSettled g r =>
      match runs s !! g with
      | Some this =>
          if notInterestedPending this then
            {| library := notInterested_settled (cancelled this) r (library s);
               runs := alter notInterestedDone g (runs s); cleanup := cleanup s |}
          else s
      | None => s
      end
  end.

Definition exec (s : State) (evs : list Event) : State := fold_left step evs s.

End Effect.

(** *** The favourite button of the details page *)

Record Page := {
  data : option TmdbShow;
  user : option User.t;
  library : Library;
  browser : Browser
}.

Definition in_browser {A} (m : M Browser A) : M Page A :=
  zoom browser
    (fun b s => {| data := data s; user := user s; library := library s;
                   browser := b |}) m.

Definition update (f : Library -> Library) : M Page unit :=
  modify (fun s => {| data := data s; user := user s; library := f (library s);
                      browser := browser s |}).

(** [window.alert(msg)] *)
Definition notify (msg : string) : M Page unit := in_browser (alert msg).

Section WithApi.
Variable addFavorite removeFavorite : Z -> Z -> M Browser unit.

Definition handleToggleFavorite : M Page unit :=
  await s <- gets (fun s => s);
  match getTmdbId (data s) with
  | None => ret tt
  | Some tid =>
      if (tid =? 0)%Z then ret tt
      else
        match user s with
        | Some u =>
            if (User.id u =? 0)%Z then
              run notify "Please log in to manage favourites.";
              in_browser (navigate "/login")
            else
              try_catch
                (if has (favoriteIds (library s)) tid then
                   run in_browser (removeFavorite (User.id u) tid);
                   run update (setFavoriteIds
                                 (filter (fun x => negb (x =? tid)%Z)));
                   notify "Removed from favourites."
                 else
                   run in_browser (addFavorite (User.id u) tid);
                   run update (setFavoriteIds
                                 (fun prev => if has prev tid then prev
                                              else (prev ++ [tid])%list));
                   notify "Added to favourites.")
                (fun e => notify (message e))
        | None =>
            run notify "Please log in to manage favourites.";
            in_browser (navigate "/login")
        end
  end.

End WithApi.
End ShowDetails.

(** ** pages/favorites.tsx *)

Module FavoritesPage.

(** [any?.tmdb_id ?? any?.external_id ?? any?.id ?? any?.show_id] at the
    two types [getTmdbId] is applied to. *)
Class Identified (A : Type) := candidate : A -> option Z.

#[export] Instance show_identified : Identified Show.t := fun s =>
  match Show.tmdb_id s with
  | Some n => Some n
  | None =>
      match Show.external_id s with
      | Some n => Some n
      | None =>
          match Show.id s with
          | Some n => Some n
          | None => Show.show_id s
          end
      end
  end.

#[export] Instance rating_identified : Identified UserRating.t := fun r =>
  Some (UserRating.tmdb_id r).

(** [Number(cand)] is [cand] on a number and NaN on undefined. *)
Definition getTmdbId {A} `{Identified A} (any : A) : option Z :=
  match candidate any with
  | Some n => if (0 <? n)%Z then Some n else None
  | None => None
  end.

Record State := {
  list_ : list Show.t;
  ratings : list UserRating.t;
  loading : bool;
  loadingRatings : bool;
  browser : Browser
}.

Definition in_browser {A} (m : M Browser A) : M State A :=
  zoom browser
    (fun b s => {| list_ := list_ s; ratings := ratings s; loading := loading s;
                   loadingRatings := loadingRatings s; browser := b |}) m.

Definition setList (l : list Show.t) : M State unit :=
  modify (fun s => {| list_ := l; ratings := ratings s; loading := loading s;
                      loadingRatings := loadingRatings s; browser := browser s |}).
Definition setRatings (r : list UserRating.t) : M State unit :=
  modify (fun s => {| list_ := list_ s; ratings := r; loading := loading s;
                      loadingRatings := loadingRatings s; browser := browser s |}).
Definition setLoading (b : bool) : M State unit :=
  modify (fun s => {| list_ := list_ s; ratings := ratings s; loading := b;
                      loadingRatings := loadingRatings s; browser := browser s |}).
Definition setLoadingRatings (b : bool) : M State unit :=
  modify (fun s => {| list_ := list_ s; ratings := ratings s; loading := loading s;
                      loadingRatings := b; browser := browser s |}).

(** The memo: later ratings of a show replace earlier ones. *)
Definition ratingsMap (rs : list UserRating.t) : gmap Z UserRating.t :=
  fold_left
    (fun map r => match getTmdbId r with
                  | Some tmdb => <[tmdb := r]> map
                  | None => map
                  end)
    rs ∅.

(** What one tile is rendered from. *)
Record Tile := {
  tile_show : Show.t;
  myRating : option Q;
  isFav : bool
}.

Definition tile (rs : list UserRating.t) (s : Show.t) : Tile :=
  {| tile_show := s;
     myRating := UserRating.rating <$> (getTmdbId s ≫= fun tmdb => ratingsMap rs !! tmdb);
     isFav := true |}.

Inductive Rendering :=
| LoadingText
| NoFavouritesYet
| TileGrid (tiles : list Tile).

Definition render (s : State) : Rendering :=
  if loading s then LoadingText
  else match list_ s with
       | [] => NoFavouritesYet
       | l => TileGrid (map (tile (ratings s)) l)
       end.

Section WithApi.
(** [import { listFavoriteShows, listRatings } from "../api"] *)
Variable listFavoriteShows : Z -> M Browser (option (list Show.t)).
Variable listRatings : Z -> M Browser (option (list UserRating.t)).

Definition fetchFavorites (user : option User.t) : M State unit :=
  match user with
  | None => ret tt
  | Some u =>
      run setLoading true;
      finally
        (try_catch
           (await favs <- in_browser (listFavoriteShows (User.id u));
            setList (default [] favs))
           (fun err => in_browser (console_error "Failed to fetch favourites:" err)))
        (setLoading false)
  end.

Definition fetchRatings (user : option User.t) : M State unit :=
  match user with
  | None => ret tt
  | Some u =>
      run setLoadingRatings true;
      finally
        (try_catch
           (await res <- in_browser (listRatings (User.id u));
            setRatings (default [] res))
           (fun err => in_browser (console_error "Failed to fetch ratings:" err)))
        (setLoadingRatings false)
  end.

End WithApi.
End FavoritesPage.

(** ** api.ts, third copy (the one with the legacy signatures) *)

Module ApiC.
Section WithPlatform.
Context {P : Platform} (env : ImportMetaEnv).

Definition DEFAULT_PROD_API : string := "https://whatnext-api.onrender.com/api".

Definition BASE : string :=
  match VITE_API_BASE env with
  | Some b => b
  | None =>
      if String.eqb (MODE env) "development" then "/api" else DEFAULT_PROD_API
  end.

Definition BASE_NORM : string := strip_trailing_slashes BASE.

Definition TOKEN_KEY : string := "access_token".

Definition getToken : M Browser (option string) :=
  try_catch (getItem TOKEN_KEY) (fun _ => ret None).

Definition setToken (token : value) : M Browser unit :=
  try_catch
    (if truthy token then setItem TOKEN_KEY (String_ token)
     else removeItem TOKEN_KEY)
    (fun _ => ret tt).

Definition clearToken : M Browser unit := setToken (Some JNull).

Definition buildUrl (path : string) : string :=
  if startsWith path "http://" || startsWith path "https://" then path
  else if String.eqb path "/api" then BASE_NORM
  else if startsWith path "/api/" then BASE_NORM ++ slice 4 path
  else BASE_NORM ++ (if startsWith path "/" then "" else "/") ++ path.

Definition apiUrl (path : string) : string := buildUrl path.

Definition shouldSkipAuth (path : string) : M Browser bool :=
  match (if startsWith path "http" then url_pathname path else Some path) with
  | None => throw (TypeError "Invalid URL")
  | Some p => ret (startsWith p "/auth/login" || startsWith p "/auth/register")
  end.

Definition attach_auth (path : string) (headers : Headers.t)
  : M Browser Headers.t :=
  await skip <- shouldSkipAuth path;
  if negb skip then
    await tok <- getToken;
    match tok with
    | Some t =>
        if negb (String.eqb t "") && negb (Headers.has headers "Authorization")
        then ret (Headers.set headers "Authorization" ("Bearer " ++ t))
        else ret headers
    | None => ret headers
    end
  else ret headers.

Definition error_detail (res : Response) : M Browser json :=
  try_catch
    (await (j, _) <- res_json res; ret j)
    (fun _ =>
       try_catch
         (await (t, _) <- res_text (used res); ret (JStr t))
         (fun _ => ret JNull)).

Definition error_message (res : Response) (detail : json) : string :=
  String_
    (or_else
       (and_then (Some detail)
          (nullish (prop (Some detail) "detail")
             (nullish (prop (Some detail) "message")
                (Some (JStr (json_stringify detail))))))
       (Some (JStr (pretty (status res) ++ " " ++ statusText res)))).

(** [http], from the check of the status on. *)
Definition respond (init : option RequestInit) (res : Response)
  : M Browser value :=
  if negb (ok res) then
    await detail <- error_detail res;
    throw (Error (error_message res detail))
  else
    let parse := default "json" (init ≫= init_parse) in
    if String.eqb parse "text" then
      await (t, _) <- res_text res; ret (Some (JStr t))
    else if (status res =? 204)%N then ret None
    else await (j, _) <- res_json res; ret (Some j).

Definition request (path : string) (init : option RequestInit)
  (headers : Headers.t) : Request :=
  {| req_url := buildUrl path;
     req_method := init ≫= init_method;
     req_headers := headers;
     req_body := init ≫= init_body;
     req_credentials := init ≫= init_credentials |}.

(** [init?.body], as a condition *)
Definition has_body (init : option RequestInit) : bool :=
  match init ≫= init_body with
  | Some s => negb (String.eqb s "")
  | None => false
  end.

Definition http (path : string) (init : option RequestInit) : M Browser value :=
  let headers := Headers.make (init ≫= init_headers) in
  let headers :=
    if negb (Headers.has headers "Content-Type") && has_body init
    then Headers.set headers "Content-Type" "application/json"
    else headers in
  await headers <- attach_auth path headers;
  await res <- fetch (request path init headers);
  respond init res.

Definition credentials (email password : string) : string :=
  json_stringify (JObj [("email", JStr email); ("password", JStr password)]).

Definition login (email password : string) : M Browser value :=
  run clearToken;
  await r <- http "/auth/login" (Some (POST (Some (credentials email password))));
  run when_ (truthy (prop r "access_token")) (setToken (prop r "access_token"));
  ret r.

Definition register (email password : string) : M Browser value :=
  run clearToken;
  await r <- http "/auth/register" (Some (POST (Some (credentials email password))));
  run when_ (truthy (prop r "access_token")) (setToken (prop r "access_token"));
  ret r.

Definition me : M Browser value := http "/me" (Some GET).

(** [(await me()).id]: reading a property of undefined or null throws. *)
Definition my_id : M Browser value :=
  await u <- me;
  match u with
  | None | Some JNull =>
      throw (TypeError "Cannot read properties of undefined (reading 'id')")
  | _ => ret (prop u "id")
  end.

(** [addFavorite(userId, tmdbId)], and [addFavorite(tmdbId)] for the
    signed-in user. *)
Definition addFavorite (arg1 : Z) (arg2 : option Z) : M Browser unit :=
  await uid <- match arg2 with
               | None => my_id
               | Some _ => ret (Some (JNum arg1))
               end;
  let tmdbId := match arg2 with None => arg1 | Some t => t end in
  run http ("/library/" ++ String_ uid ++ "/favorites/" ++ pretty tmdbId)
        (Some (POST None));
  ret tt.

Definition removeFavorite (arg1 : Z) (arg2 : option Z) : M Browser unit :=
  await uid <- match arg2 with
               | None => my_id
               | Some _ => ret (Some (JNum arg1))
               end;
  let tmdbId := match arg2 with None => arg1 | Some t => t end in
  run http ("/library/" ++ String_ uid ++ "/favorites/" ++ pretty tmdbId)
        (Some DELETE);
  ret tt.

End WithPlatform.
End ApiC.

(** A URL with a scheme, as [buildUrl] tests it. *)
Definition absolute (path : string) : bool :=
  startsWith path "http://" || startsWith path "https://".

(** The deployment of a developer: no VITE_API_BASE, development mode. *)
Definition development : ImportMetaEnv :=
  {| VITE_API_BASE := None; MODE := "development" |}.

(** A run of [n] slashes. *)
Fixpoint slashes (n : nat) : string :=
  match n with O => "" | S k => String "/" (slashes k) end.

(** The headers the third copy of [http] starts from: the content type
    is defaulted only for a request with a body. *)
Definition initial_headers_of_body (init : option RequestInit) : Headers.t :=
  let headers := Headers.make (init ≫= init_headers) in
  if negb (Headers.has headers "Content-Type") && ApiC.has_body init
  then Headers.set headers "Content-Type" "application/json"
  else headers.

(** ** ShowDetails: the not-interested button *)

Module NotInterested.
Import ShowDetails.
Section WithApi.
Variable markNotInterested removeNotInterested : Z -> Z -> M Browser unit.

Definition handleToggleNotInterested : M Page unit :=
  await s <- gets (fun s => s);
  match getTmdbId (data s) with
  | None => ret tt
  | Some tid =>
      if (tid =? 0)%Z then ret tt
      else
        match user s with
        | Some u =>
            if (User.id u =? 0)%Z then
              run notify "Please log in to manage your recommendations.";
              in_browser (navigate "/login")
            else
              try_catch
                (if has (notInterestedIds (library s)) tid then
                   run in_browser (removeNotInterested (User.id u) tid);
                   run update (setNotInterestedIds
                                 (filter (fun x => negb (x =? tid)%Z)));
                   notify "Removed from Not Interested."
                 else
                   run in_browser (markNotInterested (User.id u) tid);
                   run update (setNotInterestedIds
                                 (fun prev => if has prev tid then prev
                                              else (prev ++ [tid])%list));
                   notify "Marked as Not Interested.")
                (fun e => notify (message e))
        | None =>
            run notify "Please log in to manage your recommendations.";
            in_browser (navigate "/login")
        end
  end.

End WithApi.
End NotInterested.

(** [!userId || !isAuthenticated] on the details page. *)
Definition signed_out (user : option User.t) : bool :=
  match user with
  | Some u => (User.id u =? 0)%Z
  | None => true
  end.

(** The list of ids after a successful toggle of [tid]. *)
Definition toggled (tid : Z) (ids : list Z) : list Z :=
  if ShowDetails.has ids tid
  then filter (fun x => negb (x =? tid)%Z) ids
  else (ids ++ [tid])%list.

(** The remote call that a toggle makes in favourite state [f]. *)
Definition remote_call (add remove : Z -> Z -> M Browser unit) (f : bool)
  : Z -> Z -> M Browser unit :=
  if f then remove else add.

(** What the page is after [notify msg] and [navigate "/login"]. *)
Definition sent_to_login (msg : string) (page : ShowDetails.Page)
  : ShowDetails.Page :=
  {| ShowDetails.data := ShowDetails.data page;
     ShowDetails.user := ShowDetails.user page;
     ShowDetails.library := ShowDetails.library page;
     ShowDetails.browser :=
       snd (navigate "/login" (snd (alert msg (ShowDetails.browser page)))) |}.

(** ** pages/favorites.tsx: removing a favourite *)

Module FavoritesHandlers.
Import FavoritesPage.

(** [setList((prev) => f(prev))] *)
Definition updateList (f : list Show.t -> list Show.t) : M State unit :=
  modify (fun s => {| list_ := f (list_ s); ratings := ratings s;
                      loading := loading s;
                      loadingRatings := loadingRatings s;
                      browser := browser s |}).

Section WithApi.
Variable removeFavorite : Z -> Z -> M Browser unit.

Definition handleRemove (user : option User.t) (show : Show.t) : M State unit :=
  match user with
  | None => ret tt
  | Some u =>
      match getTmdbId show with
      | None => ret tt
      | Some tmdb =>
          try_catch
            (run in_browser (removeFavorite (User.id u) tmdb);
             updateList (filter (fun s => getTmdbId s <> Some tmdb)))
            (fun err =>
               in_browser (console_error "Failed to remove favourite:" err))
      end
  end.

End WithApi.
End FavoritesHandlers.

#[global] Existing Instance FavoritesPage.show_identified.
#[global] Existing Instance FavoritesPage.rating_identified.

(** The ratings of show [k] in a list of ratings, in the order of the list. *)
Definition ratings_of (k : Z) (rs : list UserRating.t) : list UserRating.t :=
  filter (fun r : UserRating.t => FavoritesPage.getTmdbId r = Some k) rs.

(** ** Events of an effect *)

(** An event that settles a load of another generation than [g]. *)
Definition other_load (g : nat) (ev : UseTmdbShow.Event) : bool :=
  match ev with
  | UseTmdbShow.FetchSettled g' _ | UseTmdbShow.JsonSettled g' _ => negb (Nat.eqb g' g)
  | _ => false
  end.

(** An event that is not a render: a load that settles, or the unmount. *)
Definition no_render (ev : ShowDetails.Effect.Event) : bool :=
  match ev with
  | ShowDetails.Effect.Render _ => false
  | _ => true
  end.

(** ** components/HeartButton.tsx, the helpers of its copy of ShowDetails *)

Module Helpers.

Section UniqBy.
Context {T K : Type} `{Countable K}.

(** The loop of [uniqBy]: [seen] and [out] after one more item. *)
Definition uniqBy_step (keyFn : T -> K) (acc : gset K * list T) (item : T)
  : gset K * list T :=
  let k := keyFn item in
  if decide (k ∈ fst acc) then acc
  else ({[k]} ∪ fst acc, (snd acc ++ [item])%list).

Definition uniqBy (arr : list T) (keyFn : T -> K) : list T :=
  snd (fold_left (uniqBy_step keyFn) arr (∅, [])).

End UniqBy.

(** [fetch(u)] *)
Definition bare (u : string) : Request :=
  {| req_url := u; req_method := None; req_headers := Headers.make None;
     req_body := None; req_credentials := None |}.

(** One turn of the loop of [fetchFirstOkJson]: [Some] what the function
    returns, [None] to go on with the next address. *)
Definition try_url (u : string) : M Browser (option json) :=
  try_catch
    (await res <- fetch (bare u);
     if negb (ok res) then ret None
     else await (j, _) <- res_json res; ret (Some j))
    (fun _ => ret None).

Fixpoint fetchFirstOkJson (urls : list string) : M Browser json :=
  match urls with
  | [] => ret JNull
  | u :: rest =>
      await r <- try_url u;
      match r with
      | Some j => ret j
      | None => fetchFirstOkJson rest
      end
  end.

End Helpers.

(** The JSON body that the remote side gives to the [k]-th request when
    it is [fetch(u)], if it answers with an ok response that has one. *)
Definition ok_json (b : Browser) (k : nat) (u : string) : option json :=
  match network b k (Helpers.bare u) with
  | Responded res =>
      if ok res && negb (bodyUsed res) then body_json res else None
  | NetworkFailure _ => None
  end.

(** [b'] is [b] after the requests [rqs]. *)
Definition after_requests (b : Browser) (rqs : list Request) (b' : Browser)
  : Prop :=
  sent b' = (sent b ++ rqs)%list /\
  network b' = network b /\
  localStorage b' = localStorage b /\
  console_errors b' = console_errors b /\
  alerts b' = alerts b /\
  navigations b' = navigations b.

(** *** Presence in a loaded list *)


(** ** pages/favorites.tsx: the loads of the page as they interleave *)

Module FavoritesLoads.
Import FavoritesPage.

(** One run of the effect of the page: the two loads it started, each
    suspended at its [await].  The effect returns no cleanup and the
    loads test no flag, so a run has nothing but what it waits for. *)
Record Run := {
  favoritesPending : bool;
  ratingsPending : bool
}.

Record State := {
  page : FavoritesPage.State;
  runs : list Run
}.

Inductive Event :=
| Render (user : option User.t)
| FavoritesSettled (g : nat) (r : outcome (option (list Show.t)))
| RatingsSettled (g : nat) (r : outcome (option (list UserRating.t))).

(** [useState([])], [useState([])], [useState(false)], [useState(false)] *)
Definition initial (b : Browser) : State :=
  {| page := {| list_ := []; ratings := []; loading := false;
                loadingRatings := false; browser := b |};
     runs := [] |}.

Definition favoritesDone (r : Run) : Run :=
  {| favoritesPending := false; ratingsPending := ratingsPending r |}.
Definition ratingsDone (r : Run) : Run :=
  {| favoritesPending := favoritesPending r; ratingsPending := false |}.

(** The effect: [if (!user) return; void fetchFavorites(); void
    fetchRatings();], each load up to its [await]. *)
Definition run_effect (user : option User.t) (s : State) : State :=
  match user with
  | None => s
  | Some _ =>
      {| page := snd ((run setLoading true; setLoadingRatings true) (page s));
         runs := (runs s ++ [{| favoritesPending := true;
                                ratingsPending := true |}])%list |}
  end.

(** [fetchFavorites] from its [await] on. *)
Definition favorites_settled (r : outcome (option (list Show.t)))
  : M FavoritesPage.State unit :=
  finally
    (match r with
     | Ret favs => setList (default [] favs)
     | Throw err => in_browser (console_error "Failed to fetch favourites:" err)
     end)
    (setLoading false).

(** [fetchRatings] from its [await] on. *)
Definition ratings_settled (r : outcome (option (list UserRating.t)))
  : M FavoritesPage.State unit :=
  finally
    (match r with
     | Ret res => setRatings (default [] res)
     | Throw err => in_browser (console_error "Failed to fetch ratings:" err)
     end)
    (setLoadingRatings false).

Definition step (s : State) (ev : Event) : State :=
  match ev with
  | Render user => run_effect user s
  | FavoritesSettled g r =>
      match runs s !! g with
      | Some this =>
          if favoritesPending this then
            {| page := snd (favorites_settled r (page s));
               runs := alter favoritesDone g (runs s) |}
          else s
      | None => s
      end
  | RatingsSettled g r =>
      match runs s !! g with
      | Some this =>
          if ratingsPending this then
            {| page := snd (ratings_settled r (page s));
               runs := alter ratingsDone g (runs s) |}
          else s
      | None => s
      end
  end.

Definition exec (s : State) (evs : list Event) : State := fold_left step evs s.

End FavoritesLoads.

(** ** Header names and values that the Headers class takes *)

(** [new Headers(init)] and [headers.set(name, value)] throw a TypeError
    on a name that is not a token, and on a value that holds a NUL, a
    line break or a character outside Latin-1.  The two tests below are
    sufficient for a name and for a value to be taken: a non-empty name
    of token characters, a value of printable ASCII characters, spaces
    and tabs. *)
Definition token_char (c : ascii) : bool :=
  let n := N_of_ascii c in
  ((48 <=? n) && (n <=? 57) || (65 <=? n) && (n <=? 90) ||
   (97 <=? n) && (n <=? 122) ||
   existsb (N.eqb n) [33; 35; 36; 37; 38; 39; 42; 43; 45; 46; 94; 95; 96; 124; 126])%N.

Definition header_name_ok (name : string) : bool :=
  negb (String.eqb name "") && forallb token_char (list_ascii_of_string name).

Definition value_char (c : ascii) : bool :=
  let n := N_of_ascii c in
  ((n =? 9) || (32 <=? n) && (n <=? 126))%N.

Definition header_value_ok (v : string) : bool :=
  forallb value_char (list_ascii_of_string v).

(** The headers that the caller of [http] gives are taken. *)
Definition legal_headers (init : option RequestInit) : bool :=
  forallb (fun e => header_name_ok (fst e) && header_value_ok (snd e))
          (default [] (init ≫= init_headers)).

(** The stored token, if there is one, is taken as part of a value. *)
Definition legal_token (b : Browser) : bool :=
  match stored_token b with
  | Some tok => header_value_ok tok
  | None => true
  end.

(** * Properties *)

(** A browser platform to run the definitions on: the pathname of an
    absolute URL is what follows the host, up to the query. *)
Module Demo.

Fixpoint until_query (s : string) : string :=
  match s with
  | EmptyString => EmptyString
  | String c t =>
      if Ascii.eqb c "?"%char || Ascii.eqb c "#"%char then EmptyString
      else String c (until_query t)
  end.

Fixpoint from_slash (s : string) : string :=
  match s with
  | EmptyString => "/"
  | String c t => if is_slash c then until_query s else from_slash t
  end.

Definition pathname (s : string) : option string :=
  if startsWith s "http://" then Some (from_slash (slice 7 s))
  else if startsWith s "https://" then Some (from_slash (slice 8 s))
  else None.

Definition quote : string := String (ascii_of_nat 34) "".

Definition quoted (j : json) : string :=
  match j with
  | JStr s => quote ++ s ++ quote
  | _ => to_string j
  end.

Fixpoint quote_fields (l : list (string * json)) : list string :=
  match l with
  | [] => []
  | (k, v) :: t => (quote ++ k ++ quote ++ ":" ++ quoted v) :: quote_fields t
  end.

(** [JSON.stringify] on the flat objects that the client sends. *)
Definition stringify (j : json) : string :=
  match j with
  | JObj l => "{" ++ join "," (quote_fields l) ++ "}"
  | _ => quoted j
  end.

#[export] Instance platform : Platform :=
  {| url_pathname := pathname; json_stringify := stringify |}.

Definition storage (token : option string) : Storage :=
  {| available := true; quota_left := true;
     items := match token with
              | Some t => {[ "access_token" := t ]}
              | None => ∅
              end |}.

Definition browser (token : option string)
  (net : nat -> Request -> FetchResult) : Browser :=
  {| localStorage := storage token; network := net; sent := [];
     console_errors := []; alerts := []; navigations := [] |}.

Definition response (st : N) (text : string) (j : option json) : Response :=
  {| status := st; statusText := text; body_json := j; body_text := None;
     bodyUsed := false |}.

(** A server that answers every request with the same response. *)
Definition always (r : Response) : nat -> Request -> FetchResult :=
  fun _ _ => Responded r.

(** A browser holding a stale token, in front of a server that answers
    every request with the given status and no body. *)
Definition stale (st : N) (text : string) : Browser :=
  browser (Some "stale") (always (response st text None)).

(** The body FastAPI sends for a request that fails validation. *)
Definition validation_error : json :=
  JObj [("detail", JArr [JObj [("loc", JArr [JStr "body"; JStr "rating"]);
                               ("msg", JStr "field required")]])].

Definition unprocessable : Browser :=
  browser (Some "t0k") (always (response 422 "Unprocessable Entity"
                                  (Some validation_error))).

(** A server that answers the n-th request with the n-th result. *)
Definition scripted (rs : list FetchResult) : nat -> Request -> FetchResult :=
  fun n _ => default (NetworkFailure "Failed to fetch") (rs !! n).

Definition token_response : FetchResult :=
  Responded (response 200 "OK" (Some (JObj [("access_token", JStr "t0k");
                                            ("token_type", JStr "bearer")]))).

(** Nobody is signed in; the login succeeds and /me then fails with the
    given status. *)
Definition signing_in (me_status : N) (text : string) : AuthProvider.State :=
  {| AuthProvider.user := Some JNull;
     AuthProvider.loading := false;
     AuthProvider.browser :=
       browser None (scripted [token_response;
                               Responded (response me_status text None)]) |}.

(** The heart of show 42, not a favourite yet, for user 7. *)
Definition heart : HeartButton.Props :=
  {| HeartButton.userId := 7; HeartButton.tmdbId := Some 42%Z;
     HeartButton.isFavorite := Some false; HeartButton.onChange := None |}.

Definition show42 : UseTmdbShow.TmdbShow :=
  {| UseTmdbShow.id := Some 42%Z; UseTmdbShow.tmdb_id := None;
     UseTmdbShow.name := Some "Severance" |}.

Definition ann : User.t :=
  {| User.id := 7; User.email := "ann@example.com"; User.is_admin := false |}.

(** The details page of show 42 for user 7, with show 8 as the only
    favourite. *)
Definition details (b : Browser) : ShowDetails.Page :=
  {| ShowDetails.data := Some show42;
     ShowDetails.user := Some ann;
     ShowDetails.library :=
       {| ShowDetails.favoriteIds := [8%Z];
          ShowDetails.favoritesLoading := false;
          ShowDetails.favoritesError := None;
          ShowDetails.notInterestedIds := [];
          ShowDetails.notInterestedLoading := false;
          ShowDetails.notInterestedError := None |};
     ShowDetails.browser := b |}.

Definition favourite (n : Z) (name : string) : Show.t :=
  {| Show.tmdb_id := Some n; Show.external_id := None; Show.id := None;
     Show.show_id := None; Show.title := Some name |}.

Definition rated (n : Z) (r : Q) : UserRating.t :=
  {| UserRating.tmdb_id := n; UserRating.rating := r;
     UserRating.title := None |}.


(** A favourites list without show 42, and a ratings list. *)
Definition listFavoriteShows : Z -> M Browser (option (list Show.t)) :=
  fun _ => ret (Some [favourite 8 "Dark"]).

Definition listRatings : Z -> M Browser (option (list UserRating.t)) :=
  fun _ => ret (Some [rated 8 (15 # 2)]).

(** The details page after its effect has run for user 7. *)
Definition details_loading : ShowDetails.Effect.State :=
  ShowDetails.Effect.exec ShowDetails.Effect.initial
    [ShowDetails.Effect.Render (Some 7%Z)].

(** Two loads of the details page: show 1, then show 2 before the
    first has answered. *)
Definition two_renders : list UseTmdbShow.Event :=
  [UseTmdbShow.Render (Some 1%Z); UseTmdbShow.Render (Some 2%Z)].

Definition show (n : Z) (name : string) : UseTmdbShow.TmdbShow :=
  {| UseTmdbShow.id := Some n; UseTmdbShow.tmdb_id := None;
     UseTmdbShow.name := Some name |}.

Definition found : FetchResult := Responded (response 200 "OK" None).

(** The second load answers first, the first one afterwards. *)
Definition out_of_order : list UseTmdbShow.Event :=
  (two_renders ++
   [UseTmdbShow.FetchSettled 1 found;
    UseTmdbShow.JsonSettled 1 (Ret (show 2 "Dark"));
    UseTmdbShow.FetchSettled 0 found;
    UseTmdbShow.JsonSettled 0 (Ret (show 1 "Lost"))])%list.

(** The user changes from 7 to 9 while the lists of 7 are loading. *)
Definition two_users : list ShowDetails.Effect.Event :=
  [ShowDetails.Effect.Render (Some 7%Z); ShowDetails.Effect.Render (Some 9%Z)].

(** A call that brings an Authorization header of its own. *)
Definition own_authorization : RequestInit :=
  {| init_method := Some "GET";
     init_headers := Some [("Authorization", "Basic YW5uOnNlY3JldA==")];
     init_body := None; init_credentials := None; init_parse := None |}.

(** The answer of /me for user 7, and a signed-in browser in front of a
    server that always gives it. *)
Definition me_response : Response :=
  response 200 "OK" (Some (JObj [("id", JNum 7); ("email", JStr "ann@example.com")])).

Definition signed_in : Browser := browser (Some "t0k") (always me_response).

(** A browser with a stale token, about to log in. *)
Definition logging_in : Browser :=
  browser (Some "stale") (scripted [token_response]).

(** Nobody is signed in; the login succeeds and /me answers with the
    user. *)
Definition signing_in_well : AuthProvider.State :=
  {| AuthProvider.user := Some JNull;
     AuthProvider.loading := false;
     AuthProvider.browser :=
       browser None (scripted [token_response; Responded me_response]) |}.

(** A signed-in browser in front of a server that accepts every change. *)
Definition accepting : Browser :=
  browser (Some "t0k")
    (always (response 200 "OK" (Some (JObj [("ok", JBool true)])))).

(** The details page of show 42 with nobody signed in. *)
Definition anonymous_details (b : Browser) : ShowDetails.Page :=
  {| ShowDetails.data := Some show42;
     ShowDetails.user := None;
     ShowDetails.library := ShowDetails.library (details b);
     ShowDetails.browser := b |}.

(** The favourites page with shows 42 and 8, show 42 rated twice. *)
Definition two_favourites (b : Browser) : FavoritesPage.State :=
  {| FavoritesPage.list_ := [favourite 42 "Severance"; favourite 8 "Dark"];
     FavoritesPage.ratings := [rated 42 (8 # 1); rated 42 (9 # 1)];
     FavoritesPage.loading := false;
     FavoritesPage.loadingRatings := false;
     FavoritesPage.browser := b |}.

(** The first load is overtaken by a second one, whose answers arrive
    between the late answers of the first. *)
Definition overtaken : list UseTmdbShow.Event :=
  [UseTmdbShow.Render (Some 1%Z)].

Definition late_answer : list UseTmdbShow.Event :=
  [UseTmdbShow.FetchSettled 0 found].

Definition late_body : list UseTmdbShow.Event :=
  [UseTmdbShow.JsonSettled 0 (Ret (show 1 "Lost"))].

Definition not_found : Response := response 404 "Not Found" None.

(** The lists of user 7 arrive after the user has signed out. *)
Definition late_lists : list ShowDetails.Effect.Event :=
  [ShowDetails.Effect.FavoritesSettled 0 (Ret (Some [favourite 8 "Dark"]));
   ShowDetails.Effect.NotInterestedSettled 0 (Ret (Some [5%Z]))].


Definition bob : User.t :=
  {| User.id := 9; User.email := "bob@example.com"; User.is_admin := false |}.

(** The favourites page changes from user 7 to user 9 while the list of
    7 is loading; the list of 9 (show 8) arrives first. *)
Definition switched_user : list FavoritesLoads.Event :=
  [FavoritesLoads.Render (Some ann);
   FavoritesLoads.Render (Some bob);
   FavoritesLoads.FavoritesSettled 1 (Ret (Some [favourite 8 "Dark"]))].

(** The list of 7 (show 42) arrives at last. *)
Definition late_favourites : FavoritesLoads.Event :=
  FavoritesLoads.FavoritesSettled 0 (Ret (Some [favourite 42 "Severance"])).

End Demo.

(** ** URL resolution *)

Lemma startsWith_cons c s c' p :
  startsWith (String c s) (String c' p) =
  if Ascii.eqb c' c then startsWith s p else false.
Proof.
  unfold startsWith. simpl.
  destruct (ascii_dec c' c) as [->|Hne].
  - now rewrite Ascii.eqb_refl.
  - apply Ascii.eqb_neq in Hne. now rewrite Hne.
Qed.

Lemma startsWith_empty s : startsWith s "" = true.
Proof. unfold startsWith. now destruct s. Qed.

Lemma eqb_cons c s c' s' :
  String.eqb (String c s) (String c' s') =
  if Ascii.eqb c c' then String.eqb s s' else false.
Proof. reflexivity. Qed.

Lemma append_cons c s t : String c s ++ t = String c (s ++ t).
Proof. reflexivity. Qed.

Lemma append_empty t : "" ++ t = t.
Proof. reflexivity. Qed.

Create Rewrite HintDb js_string.
#[export] Hint Rewrite startsWith_cons startsWith_empty eqb_cons
  append_cons append_empty : js_string.

Ltac js_strings :=
  repeat (autorewrite with js_string; cbn [String.eqb Ascii.eqb Bool.eqb orb andb negb slice]).

(** C10.  On a path that begins with "http://" or "https://" both
    variants of buildUrl return the path itself: no base is applied. *)
Theorem buildUrl_absolute_identity (env : ImportMetaEnv) (path : string) :
  startsWith path "http://" = true \/ startsWith path "https://" = true ->
  ApiA.buildUrl path = path /\ ApiB.buildUrl env path = path /\
  ApiB.apiUrl env path = path.
Proof.
  intros H. unfold ApiB.apiUrl, ApiA.buildUrl, ApiB.buildUrl.
  destruct H as [-> | ->]; rewrite ?orb_true_r; repeat split; reflexivity.
Qed.

Lemma buildUrl_absolute_identity_witness :
  ApiA.buildUrl "https://image.tmdb.org/t/p/w500/a.jpg"
    = "https://image.tmdb.org/t/p/w500/a.jpg" /\
  ApiB.buildUrl example_env "https://image.tmdb.org/t/p/w500/a.jpg"
    = "https://image.tmdb.org/t/p/w500/a.jpg" /\
  ApiB.apiUrl example_env "https://image.tmdb.org/t/p/w500/a.jpg"
    = "https://image.tmdb.org/t/p/w500/a.jpg".
Proof.
  apply (buildUrl_absolute_identity example_env
           "https://image.tmdb.org/t/p/w500/a.jpg").
  right. reflexivity.
Defined.

(** C1 as stated fails on a path whose remainder begins with the prefix
    again: "/api/api/x" and "/api/x" resolve to different URLs, in both
    variants. *)
Lemma buildUrl_prefix_counterexample :
  ApiA.buildUrl ("/api" ++ "/api/x") <> ApiA.buildUrl "/api/x" /\
  ApiB.buildUrl example_env ("/api" ++ "/api/x")
    <> ApiB.buildUrl example_env "/api/x".
Proof. split; vm_compute; discriminate. Qed.

(** C1, amended.  For a path "/api/" ++ rest whose remainder does not
    begin with the prefix again, resolving it and resolving "/" ++ rest
    give the same URL, the normalised base followed by "/" ++ rest: the
    prefix occurs once.  The base of the first variant is the constant
    "/api"; with the base "https://api.example.com/api" the second variant
    resolves "/api/shows/5" and "/shows/5" to
    "https://api.example.com/api/shows/5". *)
Theorem buildUrl_prefix_once (env : ImportMetaEnv) (rest : string) :
  rest <> "api" ->
  startsWith rest "api/" = false ->
  (ApiA.buildUrl ("/api/" ++ rest) = ApiA.BASE ++ "/" ++ rest /\
   ApiA.buildUrl ("/" ++ rest) = ApiA.BASE ++ "/" ++ rest) /\
  (ApiB.buildUrl env ("/api/" ++ rest) = ApiB.BASE_NORM env ++ "/" ++ rest /\
   ApiB.buildUrl env ("/" ++ rest) = ApiB.BASE_NORM env ++ "/" ++ rest) /\
  (ApiB.buildUrl example_env "/api/shows/5"
     = "https://api.example.com/api/shows/5" /\
   ApiB.buildUrl example_env "/shows/5"
     = "https://api.example.com/api/shows/5").
Proof.
  intros Hne Hpre.
  apply String.eqb_neq in Hne.
  unfold ApiA.buildUrl, ApiB.buildUrl, ApiA.BASE.
  split; [|split]; split; js_strings; rewrite ?Hne, ?Hpre; js_strings;
    reflexivity.
Qed.

Lemma buildUrl_prefix_once_witness :
  (ApiA.buildUrl ("/api/" ++ "library/7/favorites")
     = ApiA.BASE ++ "/" ++ "library/7/favorites" /\
   ApiA.buildUrl ("/" ++ "library/7/favorites")
     = ApiA.BASE ++ "/" ++ "library/7/favorites") /\
  (ApiB.buildUrl example_env ("/api/" ++ "library/7/favorites")
     = ApiB.BASE_NORM example_env ++ "/" ++ "library/7/favorites" /\
   ApiB.buildUrl example_env ("/" ++ "library/7/favorites")
     = ApiB.BASE_NORM example_env ++ "/" ++ "library/7/favorites") /\
  (ApiB.buildUrl example_env "/api/shows/5"
     = "https://api.example.com/api/shows/5" /\
   ApiB.buildUrl example_env "/shows/5"
     = "https://api.example.com/api/shows/5").
Proof.
  apply (buildUrl_prefix_once example_env "library/7/favorites").
  - discriminate.
  - reflexivity.
Defined.

(** ** The token helpers *)

Section TokenHelpers.
Context {P : Platform}.

Lemma getTokenA_spec (b : Browser) :
  ApiA.getToken b =
  (Ret (if available (localStorage b)
        then items (localStorage b) !! ApiA.TOKEN_KEY else None), b).
Proof.
  unfold ApiA.getToken, try_catch, getItem, ret.
  now destruct (available (localStorage b)).
Qed.

Lemma getTokenB_spec (b : Browser) :
  ApiB.getToken b =
  (Ret (if available (localStorage b)
        then items (localStorage b) !! ApiB.TOKEN_KEY else None), b).
Proof.
  unfold ApiB.getToken, try_catch, getItem, ret.
  now destruct (available (localStorage b)).
Qed.

Lemma setTokenA_spec (token : value) (b : Browser) :
  ApiA.setToken token b =
  (Ret tt, if truthy token then with_token (String_ token) b
           else without_token b).
Proof.
  unfold ApiA.setToken, try_catch, with_token, without_token, setItem,
    removeItem, ret.
  destruct (truthy token).
  - now destruct (available (localStorage b) && quota_left (localStorage b)).
  - now destruct (available (localStorage b)).
Qed.

Lemma clearTokenA_spec (b : Browser) :
  ApiA.clearToken b = (Ret tt, without_token b).
Proof. unfold ApiA.clearToken. now rewrite setTokenA_spec. Qed.

Lemma setTokenB_spec (token : value) (b : Browser) :
  ApiB.setToken token b = (Ret tt, with_token (String_ token) b).
Proof.
  unfold ApiB.setToken, try_catch, with_token, setItem, ret.
  now destruct (available (localStorage b) && quota_left (localStorage b)).
Qed.

Lemma clearTokenB_spec (b : Browser) :
  ApiB.clearToken b = (Ret tt, without_token b).
Proof.
  unfold ApiB.clearToken, try_catch, without_token, removeItem, ret.
  now destruct (available (localStorage b)).
Qed.

(** C9.  getToken, setToken and clearToken return normally in every
    state of the storage, also when the access to localStorage throws;
    getToken yields a string or null and leaves the browser as it was.
    This holds in both variants. *)
Theorem token_helpers_total (b : Browser) (token : value) :
  (exists t : option string, ApiA.getToken b = (Ret t, b)) /\
  (exists b', ApiA.setToken token b = (Ret tt, b')) /\
  (exists b', ApiA.clearToken b = (Ret tt, b')) /\
  (exists t : option string, ApiB.getToken b = (Ret t, b)) /\
  (exists b', ApiB.setToken token b = (Ret tt, b')) /\
  (exists b', ApiB.clearToken b = (Ret tt, b')).
Proof.
  rewrite getTokenA_spec, getTokenB_spec, setTokenA_spec, setTokenB_spec,
    clearTokenA_spec, clearTokenB_spec.
  repeat split; eexists; reflexivity.
Qed.

End TokenHelpers.

(** ** Headers *)

Lemma has_set h name v : Headers.has (Headers.set h name v) name = true.
Proof.
  unfold Headers.set. destruct (Headers.has h name) eqn:E.
  - unfold Headers.has in *. induction h as [|e h IH]; simpl in *; [discriminate|].
    destruct (Headers.same name e) eqn:Es; simpl.
    + unfold Headers.same in *. simpl. now rewrite Es.
    + rewrite Es. simpl. now apply IH.
  - unfold Headers.has. rewrite existsb_app. simpl.
    unfold Headers.same. simpl. rewrite String.eqb_refl. now rewrite orb_true_r.
Qed.

Lemma find_none_of_has h name :
  Headers.has h name = false -> List.find (Headers.same name) h = None.
Proof.
  unfold Headers.has. induction h as [|e h IH]; simpl; [easy|].
  destruct (Headers.same name e); simpl; [discriminate|exact IH].
Qed.

Lemma get_none_of_has h name :
  Headers.has h name = false -> Headers.get h name = None.
Proof. intros H. unfold Headers.get. now rewrite find_none_of_has. Qed.

Lemma find_app_none {A} (f : A -> bool) l1 l2 :
  List.find f l1 = None -> List.find f (l1 ++ l2)%list = List.find f l2.
Proof.
  induction l1 as [|x l1 IH]; simpl; [easy|].
  destruct (f x); [discriminate|exact IH].
Qed.

Lemma get_set_new h name v :
  Headers.has h name = false ->
  Headers.get (Headers.set h name v) name = Some v.
Proof.
  intros H. unfold Headers.set, Headers.get. rewrite H.
  rewrite find_app_none by now apply find_none_of_has.
  simpl. unfold Headers.same. simpl. now rewrite String.eqb_refl.
Qed.

Lemma same_other name name' e :
  toLowerCase name <> toLowerCase name' ->
  Headers.same name e = true -> Headers.same name' e = false.
Proof.
  unfold Headers.same. intros Hne H.
  apply String.eqb_eq in H. apply String.eqb_neq. congruence.
Qed.

Lemma get_set_other h name name' v :
  toLowerCase name <> toLowerCase name' ->
  Headers.get (Headers.set h name v) name' = Headers.get h name'.
Proof.
  intros Hne. unfold Headers.set, Headers.get.
  destruct (Headers.has h name).
  - f_equal. induction h as [|e h IH]; simpl; [easy|].
    destruct (Headers.same name e) eqn:Es.
    + assert (Hs : Headers.same name' e = false) by eauto using same_other.
      rewrite Hs. unfold Headers.same in *. simpl. now rewrite Hs.
    + destruct (Headers.same name' e); [reflexivity|exact IH].
  - f_equal. induction h as [|e h IH]; simpl.
    + unfold Headers.same. simpl.
      destruct (String.eqb_spec (toLowerCase name) (toLowerCase name')); easy.
    + destruct (Headers.same name' e); [reflexivity|exact IH].
Qed.

Lemma has_get h name :
  Headers.has h name = match Headers.get h name with Some _ => true | None => false end.
Proof.
  unfold Headers.has, Headers.get.
  induction h as [|e h IH]; simpl; [reflexivity|].
  destruct (Headers.same name e); simpl; [reflexivity|exact IH].
Qed.

Lemma has_set_other h name name' v :
  toLowerCase name <> toLowerCase name' ->
  Headers.has (Headers.set h name v) name' = Headers.has h name'.
Proof. intros H. now rewrite !has_get, get_set_other. Qed.

Lemma get_initial_headers_authorization init :
  Headers.get (initial_headers init) "Authorization"
  = Headers.get (Headers.make (init ≫= init_headers)) "Authorization".
Proof.
  unfold initial_headers.
  destruct (negb _); [|reflexivity].
  apply get_set_other. discriminate.
Qed.

(** ** The HTTP helper *)

Section Http.
Context {P : Platform}.
Variable env : ImportMetaEnv.

Lemma attach_authA_spec path h b :
  ApiA.attach_auth path h b =
  match request_path path with
  | Some p => (Ret (authorized p h b), b)
  | None => (Throw (TypeError "Invalid URL"), b)
  end.
Proof.
  unfold ApiA.attach_auth, ApiA.shouldSkipAuth, request_path, authorized,
    credential_exchange, bind.
  destruct (if startsWith path "http" then url_pathname path else Some path)
    as [p|]; [|reflexivity].
  unfold ret at 1.
  destruct (startsWith p "/auth/login" || startsWith p "/auth/register");
    simpl; [reflexivity|].
  rewrite getTokenA_spec. unfold stored_token.
  destruct (if available (localStorage b) then _ else _) as [t|]; [|reflexivity].
  now destruct (negb (t =? "")%string && negb (Headers.has h "Authorization")).
Qed.

Lemma attach_authB_spec path h b :
  ApiB.attach_auth path h b =
  match request_path path with
  | Some p => (Ret (authorized p h b), b)
  | None => (Throw (TypeError "Invalid URL"), b)
  end.
Proof.
  unfold ApiB.attach_auth, ApiB.shouldSkipAuth, request_path, authorized,
    credential_exchange, bind.
  destruct (if startsWith path "http" then url_pathname path else Some path)
    as [p|]; [|reflexivity].
  unfold ret at 1.
  destruct (startsWith p "/auth/login" || startsWith p "/auth/register");
    simpl; [reflexivity|].
  rewrite getTokenB_spec. unfold stored_token.
  destruct (if available (localStorage b) then _ else _) as [t|]; [|reflexivity].
  now destruct (negb (t =? "")%string && negb (Headers.has h "Authorization")).
Qed.

Lemma fetch_spec rq b :
  fetch rq b =
  match network b (length (sent b)) rq with
  | NetworkFailure m => (Throw (TypeError m), sending rq b)
  | Responded r => (Ret r, sending rq b)
  end.
Proof. reflexivity. Qed.

Lemma httpA_spec path init b p :
  request_path path = Some p ->
  ApiA.http path init b =
  let rq := ApiA.request path init (authorized p (initial_headers init) b) in
  match network b (length (sent b)) rq with
  | NetworkFailure m => (Throw (TypeError m), sending rq b)
  | Responded res => ApiA.respond init res (sending rq b)
  end.
Proof.
  intros Hp. unfold ApiA.http. cbv zeta. unfold bind at 1.
  rewrite attach_authA_spec, Hp. unfold bind. rewrite fetch_spec.
  fold (initial_headers init).
  now destruct (network b _ _).
Qed.

Lemma httpB_spec path init b p :
  request_path path = Some p ->
  ApiB.http env path init b =
  let rq := ApiB.request env path init (authorized p (initial_headers init) b) in
  match network b (length (sent b)) rq with
  | NetworkFailure m => (Throw (TypeError m), sending rq b)
  | Responded res => ApiB.respond init res (sending rq b)
  end.
Proof.
  intros Hp. unfold ApiB.http. cbv zeta. unfold bind at 1.
  rewrite attach_authB_spec, Hp. unfold bind. rewrite fetch_spec.
  fold (initial_headers init).
  now destruct (network b _ _).
Qed.

Lemma error_messageA_state res b : snd (ApiA.error_message res b) = b.
Proof.
  unfold ApiA.error_message, try_catch, bind, res_json, ret, throw.
  destruct (bodyUsed res); [reflexivity|].
  destruct (body_json res) as [j|]; [|reflexivity].
  destruct (is_string _); [reflexivity|].
  now destruct (is_array _ && _).
Qed.

Lemma error_detailB_state res b : snd (ApiB.error_detail res b) = b.
Proof.
  unfold ApiB.error_detail, try_catch, bind, res_json, res_text, ret, throw.
  simpl.
  destruct (bodyUsed res); [reflexivity|].
  now destruct (body_json res).
Qed.

(** What is left of the browser when [respond] is done: only a 401, in
    the first variant, touches it. *)
Lemma respondA_state init res b :
  snd (ApiA.respond init res b) =
  if (status res =? 401)%N then without_token b else b.
Proof.
  unfold ApiA.respond, bind, when_.
  set (b1 := if (status res =? 401)%N then without_token b else b).
  assert (H1 : (if (status res =? 401)%N then ApiA.clearToken else ret tt) b
               = (Ret tt, b1)).
  { subst b1. destruct (status res =? 401)%N; [apply clearTokenA_spec|easy]. }
  rewrite H1.
  destruct (negb (ok res)).
  - pose proof (error_messageA_state res b1) as Hs.
    destruct (ApiA.error_message res b1) as [[m|e] b2]; simpl in *; now subst.
  - destruct (String.eqb _ "text").
    + unfold res_text, ret, throw.
      destruct (bodyUsed res); [reflexivity|].
      now destruct (body_text res).
    + destruct (status res =? 204)%N; [reflexivity|].
      unfold res_json, ret, throw.
      destruct (bodyUsed res); [reflexivity|].
      now destruct (body_json res).
Qed.

Lemma respondB_state init res b : snd (ApiB.respond init res b) = b.
Proof.
  unfold ApiB.respond, bind.
  destruct (negb (ok res)).
  - pose proof (error_detailB_state res b) as Hs.
    destruct (ApiB.error_detail res b) as [[m|e] b2]; simpl in *; now subst.
  - destruct (String.eqb _ "text").
    + unfold res_text, ret, throw.
      destruct (bodyUsed res); [reflexivity|].
      now destruct (body_text res).
    + destruct (status res =? 204)%N; [reflexivity|].
      unfold res_json, ret, throw.
      destruct (bodyUsed res); [reflexivity|].
      now destruct (body_json res).
Qed.

Lemma sent_without_token b : sent (without_token b) = sent b.
Proof. unfold without_token. now destruct (available (localStorage b)). Qed.

Lemma httpA_sent path init b p :
  request_path path = Some p ->
  sent (snd (ApiA.http path init b)) =
  (sent b ++ [ApiA.request path init (authorized p (initial_headers init) b)])%list.
Proof.
  intros Hp. rewrite (httpA_spec _ _ _ _ Hp). cbv zeta.
  destruct (network b _ _) as [m|res]; [reflexivity|].
  rewrite respondA_state.
  destruct (status res =? 401)%N; [rewrite sent_without_token|]; reflexivity.
Qed.

Lemma httpB_sent path init b p :
  request_path path = Some p ->
  sent (snd (ApiB.http env path init b)) =
  (sent b ++ [ApiB.request env path init (authorized p (initial_headers init) b)])%list.
Proof.
  intros Hp. rewrite (httpB_spec _ _ _ _ Hp). cbv zeta.
  destruct (network b _ _) as [m|res]; [reflexivity|].
  now rewrite respondB_state.
Qed.

Lemma authorized_authorization p init b tok :
  stored_token b = Some tok -> tok <> "" ->
  Headers.get (authorized p (initial_headers init) b) "Authorization" =
  if credential_exchange p
     || Headers.has (Headers.make (init ≫= init_headers)) "Authorization"
  then Headers.get (Headers.make (init ≫= init_headers)) "Authorization"
  else Some ("Bearer " ++ tok).
Proof.
  intros Ht Hne. unfold authorized. rewrite Ht.
  apply String.eqb_neq in Hne. rewrite Hne. simpl.
  assert (Hhas : Headers.has (initial_headers init) "Authorization"
                 = Headers.has (Headers.make (init ≫= init_headers)) "Authorization").
  { now rewrite !has_get, get_initial_headers_authorization. }
  rewrite Hhas.
  destruct (credential_exchange p); simpl.
  - apply get_initial_headers_authorization.
  - destruct (Headers.has (Headers.make _) "Authorization") eqn:E; simpl.
    + apply get_initial_headers_authorization.
    + apply get_set_new. now rewrite Hhas.
Qed.

(** C4, amended.  With a non-empty token in the storage, the request
    that [http] sends on a path under /auth/login or /auth/register gets
    no Authorization header from the helper: it carries the one its
    caller put, none for the login and register calls.  On every other
    path it carries "Bearer <token>", unless the caller supplied an
    Authorization header of its own, which is kept.  Both variants. *)
Theorem auth_header_attachment
  (b : Browser) (path p tok : string) (init : option RequestInit) :
  request_path path = Some p ->
  stored_token b = Some tok ->
  tok <> "" ->
  let supplied := Headers.make (init ≫= init_headers) in
  let expected :=
    if credential_exchange p || Headers.has supplied "Authorization"
    then Headers.get supplied "Authorization"
    else Some ("Bearer " ++ tok) in
  (exists rq, sent (snd (ApiA.http path init b)) = (sent b ++ [rq])%list /\
              Headers.get (req_headers rq) "Authorization" = expected) /\
  (exists rq, sent (snd (ApiB.http env path init b)) = (sent b ++ [rq])%list /\
              Headers.get (req_headers rq) "Authorization" = expected).
Proof.
  intros Hp Ht Hne supplied expected. split.
  - eexists. split; [apply (httpA_sent _ _ _ _ Hp)|].
    simpl. now apply authorized_authorization.
  - eexists. split; [apply (httpB_sent _ _ _ _ Hp)|].
    simpl. now apply authorized_authorization.
Qed.

End Http.

(** C4 as stated fails for a caller that supplies an Authorization
    header: with a token in the storage, the request on a library path
    carries the caller's header and no bearer header is attached. *)
Lemma auth_header_counterexample :
  map (fun rq => Headers.get (req_headers rq) "Authorization")
    (sent (snd (ApiA.http (P := Demo.platform) "/library/7/favorites"
                  (Some Demo.own_authorization) (Demo.stale 200 "OK"))))
  = [Some "Basic YW5uOnNlY3JldA=="] /\
  map (fun rq => Headers.get (req_headers rq) "Authorization")
    (sent (snd (ApiB.http (P := Demo.platform) example_env "/library/favorites"
                  (Some Demo.own_authorization) (Demo.stale 200 "OK"))))
  = [Some "Basic YW5uOnNlY3JldA=="] /\
  stored_token (Demo.stale 200 "OK") = Some "stale".
Proof. repeat split; vm_compute; reflexivity. Qed.

Lemma auth_header_attachment_witness :
  ((exists rq,
      sent (snd (ApiA.http (P := Demo.platform) "/auth/login" None
                   (Demo.stale 200 "OK"))) = ([] ++ [rq])%list /\
      Headers.get (req_headers rq) "Authorization" = None) /\
   (exists rq,
      sent (snd (ApiB.http (P := Demo.platform) example_env "/auth/login" None
                   (Demo.stale 200 "OK"))) = ([] ++ [rq])%list /\
      Headers.get (req_headers rq) "Authorization" = None)) /\
  ((exists rq,
      sent (snd (ApiA.http (P := Demo.platform) "/library/7/favorites" None
                   (Demo.stale 200 "OK"))) = ([] ++ [rq])%list /\
      Headers.get (req_headers rq) "Authorization" = Some "Bearer stale") /\
   (exists rq,
      sent (snd (ApiB.http (P := Demo.platform) example_env
                   "/library/7/favorites" None
                   (Demo.stale 200 "OK"))) = ([] ++ [rq])%list /\
      Headers.get (req_headers rq) "Authorization" = Some "Bearer stale")).
Proof.
  split.
  - apply (auth_header_attachment (P := Demo.platform) example_env
             (Demo.stale 200 "OK") "/auth/login" "/auth/login" "stale" None);
      [reflexivity | reflexivity | discriminate].
  - apply (auth_header_attachment (P := Demo.platform) example_env
             (Demo.stale 200 "OK") "/library/7/favorites"
             "/library/7/favorites" "stale" None);
      [reflexivity | reflexivity | discriminate].
Defined.

(** ** Invalidation of the credential *)

(** C5 as stated fails twice: a 403 leaves the token where it is (first
    variant), and the second variant leaves it on a 401 as well. *)
Lemma auth_invalidation_counterexample :
  fst (ApiA.getToken
         (snd (ApiA.http (P := Demo.platform) "/admin/stats" None
                 (Demo.stale 403 "Forbidden")))) = Ret (Some "stale") /\
  fst (ApiB.getToken
         (snd (ApiB.http (P := Demo.platform) example_env "/me" (Some GET)
                 (Demo.stale 401 "Unauthorized")))) = Ret (Some "stale").
Proof. split; vm_compute; reflexivity. Qed.

Section Invalidation.
Context {P : Platform}.

Lemma error_messageA_returns res b :
  exists m, ApiA.error_message res b = (Ret m, b).
Proof.
  unfold ApiA.error_message, try_catch, bind, res_json, ret, throw.
  destruct (bodyUsed res); [eauto|].
  destruct (body_json res) as [j|]; [|eauto].
  destruct (is_string _); [eauto|].
  destruct (is_array _ && _); eauto.
Qed.

Lemma token_of_without_token b : stored_token (without_token b) = None.
Proof.
  unfold stored_token, without_token.
  destruct (available (localStorage b)) eqn:E; simpl; rewrite E; [|reflexivity].
  apply lookup_delete_eq.
Qed.

Lemma getTokenA_stored b : ApiA.getToken b = (Ret (stored_token b), b).
Proof. apply getTokenA_spec. Qed.

(** C5, amended.  In the first variant a request answered with HTTP 401
    clears the stored token inside [http] itself: [http] throws, and
    getToken then yields null without any logout(). *)
Theorem unauthorized_clears_token
  (b : Browser) (path p : string) (init : option RequestInit) (res : Response) :
  request_path path = Some p ->
  network b (length (sent b))
    (ApiA.request path init (authorized p (initial_headers init) b))
    = Responded res ->
  status res = 401%N ->
  let b' := snd (ApiA.http path init b) in
  (exists m, fst (ApiA.http path init b) = Throw (Error m)) /\
  ApiA.getToken b' = (Ret None, b').
Proof.
  intros Hp Hnet Hst b'. subst b'.
  rewrite (httpA_spec _ _ _ _ Hp). cbv zeta. rewrite Hnet.
  split.
  - unfold ApiA.respond, bind, when_, ok. rewrite Hst. simpl.
    rewrite clearTokenA_spec.
    destruct (error_messageA_returns res
                (without_token (sending
                   (ApiA.request path init (authorized p (initial_headers init) b)) b)))
      as [m Hm].
    rewrite Hm. eauto.
  - rewrite respondA_state, Hst. simpl.
    rewrite getTokenA_stored. now rewrite token_of_without_token.
Qed.

End Invalidation.

Lemma unauthorized_clears_token_witness :
  let b' := snd (ApiA.http (P := Demo.platform) "/auth/me" None
                   (Demo.stale 401 "Unauthorized")) in
  (exists m, fst (ApiA.http (P := Demo.platform) "/auth/me" None
                    (Demo.stale 401 "Unauthorized")) = Throw (Error m)) /\
  ApiA.getToken b' = (Ret None, b').
Proof.
  apply (unauthorized_clears_token (P := Demo.platform)
           (Demo.stale 401 "Unauthorized") "/auth/me" "/auth/me" None
           (Demo.response 401 "Unauthorized" None));
    reflexivity.
Defined.

(** ** Error messages *)

Section ErrorMessages.
Context {P : Platform}.

(** The first variant reads the message off the body. *)
Lemma error_messageA_detail_string res b j s :
  bodyUsed res = false -> body_json res = Some j ->
  prop (Some j) "detail" = Some (JStr s) ->
  ApiA.error_message res b = (Ret s, b).
Proof.
  intros Hu Hj Hd.
  unfold ApiA.error_message, try_catch, bind, res_json, ret.
  now rewrite Hu, Hj, Hd.
Qed.

Lemma error_messageA_detail_array res b j first_item rest_items s :
  bodyUsed res = false -> body_json res = Some j ->
  prop (Some j) "detail" = Some (JArr (first_item :: rest_items)) ->
  prop (Some first_item) "msg" = Some (JStr s) -> s <> "" ->
  ApiA.error_message res b = (Ret s, b).
Proof.
  intros Hu Hj Hd Hm Hs. apply String.eqb_neq in Hs.
  unfold ApiA.error_message, try_catch, bind, res_json, ret.
  rewrite Hu, Hj, Hd. cbn [is_string is_array first andb].
  rewrite Hm. cbn [truthy String_ to_string]. now rewrite Hs.
Qed.

Lemma error_messageA_fallback res b :
  bodyUsed res = false -> body_json res = None ->
  ApiA.error_message res b = (Ret ("HTTP " ++ pretty (status res)), b).
Proof.
  intros Hu Hj.
  unfold ApiA.error_message, try_catch, bind, res_json, ret.
  now rewrite Hu, Hj.
Qed.

(** The second variant: a string detail is the message, and a body that
    is not JSON leaves the status line. *)
Lemma error_messageB_detail_string res j s :
  prop (Some j) "detail" = Some (JStr s) -> s <> "" ->
  ApiB.error_message res j = s.
Proof.
  intros Hd Hs. apply String.eqb_neq in Hs.
  unfold ApiB.error_message. rewrite Hd.
  assert (Hj : truthy (Some j) = true).
  { destruct j; try discriminate. reflexivity. }
  unfold and_then, or_else. rewrite Hj. simpl. now rewrite Hs.
Qed.

Lemma error_detailB_fallback res b :
  bodyUsed res = false -> body_json res = None ->
  ApiB.error_detail res b = (Ret JNull, b) /\
  ApiB.error_message res JNull = pretty (status res) ++ " " ++ statusText res.
Proof.
  intros Hu Hj. split; [|reflexivity].
  unfold ApiB.error_detail, try_catch, bind, res_json, res_text, ret, throw.
  now rewrite Hu, Hj.
Qed.

(** No failure is swallowed: a response outside 200..299 makes [http]
    throw, in both variants. *)
Lemma failure_is_thrown init res b :
  ok res = false ->
  (exists m, fst (ApiA.respond init res b) = Throw (Error m)) /\
  (exists m, fst (ApiB.respond init res b) = Throw (Error m)).
Proof.
  intros Hok. unfold ApiA.respond, ApiB.respond, bind. rewrite Hok. simpl.
  split.
  - destruct (when_ _ _ b) as [[[]|e] b1] eqn:Hw.
    + destruct (error_messageA_returns res b1) as [m ->]. eauto.
    + exfalso. unfold when_ in Hw.
      destruct (status res =? 401)%N.
      * now rewrite clearTokenA_spec in Hw.
      * discriminate.
  - unfold ApiB.error_detail, try_catch, bind, res_json, res_text, ret, throw.
    simpl. destruct (bodyUsed res); [eauto|].
    destruct (body_json res); eauto.
Qed.

End ErrorMessages.

(** C8.  On the validation error of the back end, whose detail is an
    array of objects with a msg, the first variant throws the first msg;
    the second variant throws the array converted to a string. *)
Theorem validation_error_message :
  fst (ApiA.http (P := Demo.platform) "/library/7/ratings" (Some (POST None))
         Demo.unprocessable) = Throw (Error "field required") /\
  fst (ApiB.http (P := Demo.platform) example_env "/library/ratings"
         (Some (POST None)) Demo.unprocessable)
    = Throw (Error "[object Object]").
Proof. split; vm_compute; reflexivity. Qed.

(** ** Logging in *)

(** C6 as stated fails: the login succeeds, /me answers 500, and the
    token of the login is in the storage when [login] throws; with the
    second variant of the client this holds for a 401 as well. *)
Lemma login_persistence_counterexample :
  let out := AuthProvider.login (authApiA (P := Demo.platform)) "ann@example.com"
               "secret" (Demo.signing_in 500 "Internal Server Error") in
  let out' := AuthProvider.login (authApiB (P := Demo.platform) example_env)
                "ann@example.com" "secret"
                (Demo.signing_in 401 "Unauthorized") in
  (fst out = Throw (Error "HTTP 500") /\
   stored_token (AuthProvider.browser (snd out)) = Some "t0k") /\
  (fst out' = Throw (Error "401 Unauthorized") /\
   stored_token (AuthProvider.browser (snd out')) = Some "t0k").
Proof. vm_compute. repeat split; reflexivity. Qed.

Section Login.
Context {P : Platform}.

Lemma respondA_ok init res b :
  ok res = true -> init ≫= init_parse = None ->
  ApiA.respond init res b =
  (if (status res =? 204)%N then Ret None
   else if bodyUsed res then Throw (TypeError "body stream already read")
   else match body_json res with
        | Some j => Ret (Some j)
        | None => Throw (SyntaxError "Unexpected token")
        end, b).
Proof.
  intros Hok Hparse. unfold ApiA.respond, bind, when_.
  assert (H401 : (status res =? 401)%N = false).
  { unfold ok in Hok. apply andb_prop in Hok as [_ H].
    apply N.leb_le in H. apply N.eqb_neq. lia. }
  rewrite H401, Hok, Hparse. simpl.
  destruct (status res =? 204)%N; [reflexivity|].
  unfold res_json, ret, throw.
  destruct (bodyUsed res); [reflexivity|].
  now destruct (body_json res).
Qed.

Lemma respondA_failed init res b :
  ok res = false ->
  exists m, ApiA.respond init res b =
            (Throw (Error m), if (status res =? 401)%N then without_token b else b).
Proof.
  intros Hok.
  destruct (failure_is_thrown init res b Hok) as [[m Hm] _].
  exists m. rewrite <- (respondA_state init res b), <- Hm.
  apply surjective_pairing.
Qed.

Lemma falsy_token_of_none : truthy (prop None "access_token") = false.
Proof. reflexivity. Qed.

Lemma same_world_refl b : same_world b b.
Proof. now repeat split. Qed.

Lemma same_world_trans b1 b2 b3 :
  same_world b1 b2 -> same_world b2 b3 -> same_world b1 b3.
Proof. unfold same_world. intuition congruence. Qed.

Lemma same_world_without_token b : same_world b (without_token b).
Proof.
  unfold same_world, without_token.
  destruct (available (localStorage b)) eqn:E; simpl; now rewrite ?E.
Qed.

Lemma same_world_with_token t b : same_world b (with_token t b).
Proof.
  unfold same_world, with_token.
  destruct (available (localStorage b) && quota_left (localStorage b));
    now simpl.
Qed.

Lemma same_world_sending rq b : same_world b (sending rq b).
Proof. now repeat split. Qed.

Lemma sent_with_token t b : sent (with_token t b) = sent b.
Proof.
  unfold with_token.
  now destruct (available (localStorage b) && quota_left (localStorage b)).
Qed.

Lemma token_of_sending rq b : stored_token (sending rq b) = stored_token b.
Proof. reflexivity. Qed.

Lemma token_of_with_token t b :
  available (localStorage b) = true -> quota_left (localStorage b) = true ->
  stored_token (with_token t b) = Some t.
Proof.
  intros Ha Hq. unfold stored_token, with_token. rewrite Ha, Hq. simpl.
  rewrite Ha. apply lookup_insert_eq.
Qed.

(** The credential exchange of the first variant: the storage holds no
    token when it is over, and what it returns carries the granted
    token, if any. *)
Lemma loginA_exchange email password b result :
  (forall rq, network b (length (sent b)) rq = result) ->
  exists o b1,
    ApiA.login email password b = (o, b1) /\
    same_world b b1 /\ length (sent b1) = S (length (sent b)) /\
    stored_token b1 = None /\
    match o with
    | Ret tok => prop tok "access_token" = granted result
    | Throw _ => granted result = None
    end.
Proof.
  intros Hnet. unfold ApiA.login, bind. rewrite clearTokenA_spec.
  rewrite (httpA_spec _ _ _ "/auth/login") by reflexivity. cbv zeta.
  set (init := Some (POST (Some (ApiA.credentials email password)))).
  set (rq := ApiA.request _ _ _).
  set (b0 := without_token b).
  assert (Hw0 : same_world b b0) by apply same_world_without_token.
  assert (Hs0 : sent b0 = sent b) by apply sent_without_token.
  assert (Ht0 : stored_token b0 = None) by apply token_of_without_token.
  destruct Hw0 as (Hn0 & Ha0 & Hq0).
  rewrite Hn0, Hs0, Hnet.
  assert (Hlen : length (sent (sending rq b0)) = S (length (sent b))).
  { simpl. rewrite length_app, Hs0. simpl. lia. }
  assert (Hw1 : same_world b (sending rq b0)) by now repeat split.
  destruct result as [m|res]; simpl granted.
  - do 2 eexists. split; [reflexivity|]. now repeat split.
  - destruct (ok res) eqn:Hok.
    + rewrite respondA_ok by easy. do 2 eexists. split; [reflexivity|].
      split; [exact Hw1|]. split; [exact Hlen|]. split; [exact Ht0|].
      simpl. destruct (status res =? 204)%N; [reflexivity|].
      destruct (bodyUsed res); [reflexivity|]. simpl.
      now destruct (body_json res).
    + destruct (respondA_failed init res (sending rq b0) Hok) as [m ->].
      do 2 eexists. split; [reflexivity|].
      destruct (status res =? 401)%N.
      * split; [eapply same_world_trans; [exact Hw1|apply same_world_without_token]|].
        split; [now rewrite sent_without_token|].
        split; [apply token_of_without_token|reflexivity].
      * now repeat split.
Qed.

(** Identity resolution that fails: [me] throws, and only a 401 takes
    the token away. *)
Lemma meA_failure b result :
  (forall rq, network b (length (sent b)) rq = result) ->
  failed result = true ->
  exists e b1,
    ApiA.me b = (Throw e, b1) /\
    stored_token b1 = if unauthorized result then None else stored_token b.
Proof.
  intros Hnet Hfail. unfold ApiA.me.
  rewrite (httpA_spec _ _ _ "/auth/me") by reflexivity. cbv zeta.
  rewrite Hnet. destruct result as [m|res]; simpl in *.
  - do 2 eexists. split; reflexivity.
  - apply negb_true_iff in Hfail.
    destruct (respondA_failed None res
                (sending (ApiA.request "/auth/me" None
                   (authorized "/auth/me" (initial_headers None) b)) b) Hfail)
      as [m ->].
    do 2 eexists. split; [reflexivity|].
    destruct (status res =? 401)%N; [apply token_of_without_token|reflexivity].
Qed.

(** C6, amended.  [login] persists the token as soon as the credential
    exchange has granted one, before identity resolution.  When identity
    resolution then fails, [login] throws, the user stays as it was, and
    the token stays in the storage, unless /me was answered with a 401,
    on which [http] clears it.  When the exchange fails or grants no
    token, nothing is persisted. *)
Theorem login_persists_on_exchange (s : AuthProvider.State)
  (email password : string) (result1 result2 : FetchResult) :
  let b := AuthProvider.browser s in
  available (localStorage b) = true ->
  quota_left (localStorage b) = true ->
  (forall rq, network b (length (sent b)) rq = result1) ->
  (forall rq, network b (S (length (sent b))) rq = result2) ->
  failed result2 = true ->
  let out := AuthProvider.login authApiA email password s in
  (exists e, fst out = Throw e) /\
  AuthProvider.user (snd out) = AuthProvider.user s /\
  stored_token (AuthProvider.browser (snd out)) =
    if truthy (granted result1)
    then if unauthorized result2 then None else Some (String_ (granted result1))
    else None.
Proof.
  intros b Hav Hq H1 H2 Hfail out. subst out.
  destruct (loginA_exchange email password b result1 H1)
    as (o & b1 & Hrun & (Hn1 & Ha1 & Hq1) & Hlen1 & Ht1 & Ho).
  unfold AuthProvider.login, bind, AuthProvider.in_browser, zoom.
  simpl apiLogin. fold b. rewrite Hrun.
  destruct o as [tok|e]; simpl.
  - rewrite Ho. destruct (truthy (granted result1)) eqn:Htr; simpl.
    + rewrite setTokenA_spec, Htr.
      set (b2 := with_token (String_ (granted result1)) b1).
      assert (Ht2 : stored_token b2 = Some (String_ (granted result1))).
      { apply token_of_with_token; congruence. }
      destruct (same_world_with_token (String_ (granted result1)) b1)
        as (Hn2 & _ & _). fold b2 in Hn2.
      destruct (meA_failure b2 result2) as (e & b3 & Hme & Ht3); [|exact Hfail|].
      { intros rq. subst b2. rewrite Hn2, Hn1, sent_with_token, Hlen1. apply H2. }
      cbn [AuthProvider.browser AuthProvider.user AuthProvider.loading].
      rewrite Hme. simpl. rewrite Ht3, Ht2. eauto.
    + eauto.
  - rewrite Ho. simpl. eauto.
Qed.
End Login.

Lemma login_persists_on_exchange_witness :
  let out := AuthProvider.login (authApiA (P := Demo.platform))
               "ann@example.com" "secret"
               (Demo.signing_in 500 "Internal Server Error") in
  (exists e, fst out = Throw e) /\
  AuthProvider.user (snd out)
    = AuthProvider.user (Demo.signing_in 500 "Internal Server Error") /\
  stored_token (AuthProvider.browser (snd out)) =
    if truthy (granted Demo.token_response)
    then if unauthorized
              (Responded (Demo.response 500 "Internal Server Error" None))
         then None else Some (String_ (granted Demo.token_response))
    else None.
Proof.
  apply (login_persists_on_exchange (P := Demo.platform)
           (Demo.signing_in 500 "Internal Server Error")
           "ann@example.com" "secret" Demo.token_response
           (Responded (Demo.response 500 "Internal Server Error" None)));
    [reflexivity | reflexivity | intros rq; reflexivity
    | intros rq; reflexivity | reflexivity].
Defined.

(** ** Toggling a favourite when the remote call fails *)

(** C3 as stated fails in its second half: with the server answering
    500, addFavorite throws, the heart stays empty, and [toggle] returns
    normally: its caller receives no error.  The same holds for the
    handler of the details page. *)
Lemma toggle_failure_counterexample :
  let s := HeartButton.mount Demo.heart (Demo.stale 500 "Internal Server Error") in
  let out := HeartButton.toggle (ApiA.addFavorite (P := Demo.platform))
               (ApiA.removeFavorite (P := Demo.platform)) Demo.heart s in
  let page := Demo.details (Demo.stale 500 "Internal Server Error") in
  let out' := ShowDetails.handleToggleFavorite
                (ApiA.addFavorite (P := Demo.platform))
                (ApiA.removeFavorite (P := Demo.platform)) page in
  HeartButton.fav s = false /\
  fst (ApiA.addFavorite (P := Demo.platform) 7 42 (HeartButton.browser s))
    = Throw (Error "HTTP 500") /\
  ~ (exists e, fst out = Throw e) /\
  ShowDetails.isFavorite (ShowDetails.library page) (ShowDetails.data page) = false /\
  ~ (exists e, fst out' = Throw e).
Proof.
  vm_compute. repeat split; try reflexivity; intros [e He]; discriminate.
Qed.

Section ToggleFailure.
Variable addFavorite removeFavorite : Z -> Z -> M Browser unit.

(** C3, amended.  When the remote call that adds the favourite throws,
    the local favourite state is still false when the handler is done
    (it is only set after the call has succeeded), and the handler
    itself returns normally: HeartButton logs the error to the console,
    the details page shows its message in an alert. *)
Theorem toggle_failure_keeps_state
  (p : HeartButton.Props) (s : HeartButton.State) (tid : Z)
  (page : ShowDetails.Page) (u : User.t) (tid' : Z)
  (e e' : exn) (b b' : Browser) :
  HeartButton.tmdbId p = Some tid ->
  HeartButton.canToggle p = true ->
  HeartButton.busy s = false ->
  HeartButton.fav s = false ->
  addFavorite (HeartButton.userId p) tid (HeartButton.browser s) = (Throw e, b) ->
  ShowDetails.getTmdbId (ShowDetails.data page) = Some tid' ->
  tid' <> 0%Z ->
  ShowDetails.user page = Some u ->
  User.id u <> 0%Z ->
  ShowDetails.isFavorite (ShowDetails.library page) (ShowDetails.data page) = false ->
  addFavorite (User.id u) tid' (ShowDetails.browser page) = (Throw e', b') ->
  HeartButton.toggle addFavorite removeFavorite p s =
    (Ret tt, {| HeartButton.fav := false; HeartButton.busy := false;
                HeartButton.browser :=
                  snd (console_error "favorite toggle failed" e b) |}) /\
  ShowDetails.handleToggleFavorite addFavorite removeFavorite page =
    (Ret tt, {| ShowDetails.data := ShowDetails.data page;
                ShowDetails.user := ShowDetails.user page;
                ShowDetails.library := ShowDetails.library page;
                ShowDetails.browser := snd (alert (message e') b') |}).
Proof.
  intros Htid Hcan Hbusy Hfav Hadd Htid' Hnz Hu Hid Hnf Hadd'. split.
  - unfold HeartButton.toggle, bind, gets, finally, try_catch,
      HeartButton.in_browser, zoom, HeartButton.setBusy, modify.
    rewrite Htid, Hcan, Hbusy, Hfav. simpl. rewrite Hadd. simpl.
    rewrite Hfav. reflexivity.
  - unfold ShowDetails.isFavorite in Hnf. rewrite Htid' in Hnf.
    apply Z.eqb_neq in Hnz, Hid. rewrite Hnz in Hnf.
    destruct page as [d us lib br]. simpl in *. subst us.
    unfold ShowDetails.handleToggleFavorite, bind, gets, try_catch,
      ShowDetails.notify, ShowDetails.in_browser, zoom.
    cbn [ShowDetails.data ShowDetails.user ShowDetails.library
         ShowDetails.browser].
    rewrite Htid', Hnz, Hid, Hnf.
    cbn [ShowDetails.data ShowDetails.user ShowDetails.library
         ShowDetails.browser].
    rewrite Hadd'. reflexivity.
Qed.

End ToggleFailure.

Lemma toggle_failure_keeps_state_witness :
  let s := HeartButton.mount Demo.heart (Demo.stale 500 "Internal Server Error") in
  let page := Demo.details (Demo.stale 500 "Internal Server Error") in
  let add := ApiA.addFavorite (P := Demo.platform) in
  let remove := ApiA.removeFavorite (P := Demo.platform) in
  HeartButton.toggle add remove Demo.heart s =
    (Ret tt, {| HeartButton.fav := false; HeartButton.busy := false;
                HeartButton.browser :=
                  snd (console_error "favorite toggle failed" (Error "HTTP 500")
                         (snd (add 7%Z 42%Z (HeartButton.browser s)))) |}) /\
  ShowDetails.handleToggleFavorite add remove page =
    (Ret tt, {| ShowDetails.data := ShowDetails.data page;
                ShowDetails.user := ShowDetails.user page;
                ShowDetails.library := ShowDetails.library page;
                ShowDetails.browser :=
                  snd (alert (message (Error "HTTP 500"))
                         (snd (add 7%Z 42%Z (ShowDetails.browser page)))) |}).
Proof.
  apply (toggle_failure_keeps_state
           (ApiA.addFavorite (P := Demo.platform))
           (ApiA.removeFavorite (P := Demo.platform))
           Demo.heart
           (HeartButton.mount Demo.heart (Demo.stale 500 "Internal Server Error"))
           42
           (Demo.details (Demo.stale 500 "Internal Server Error"))
           Demo.ann 42 (Error "HTTP 500") (Error "HTTP 500"));
    try reflexivity; try discriminate.
Defined.

(** ** Bulk loads *)

Lemma has_elem_of ids x : ShowDetails.has ids x = true <-> x ∈ ids.
Proof.
  unfold ShowDetails.has. rewrite existsb_exists. split.
  - intros (y & Hin & Heq). apply Z.eqb_eq in Heq. subst.
    now apply list_elem_of_In.
  - intros Hin. exists x. split; [now apply list_elem_of_In|apply Z.eqb_refl].
Qed.

Section BulkLoads.
Variable listFavoriteShows : Z -> M Browser (option (list Show.t)).
Variable listRatings : Z -> M Browser (option (list UserRating.t)).



End BulkLoads.


(** ** Stale loads *)

Section Generations.
Context {Run : Type} (cancelled : Run -> bool).

Lemma latest_only_nil : latest_only cancelled [] None.
Proof. intros i r H. now rewrite lookup_nil in H. Qed.

Lemma all_cancelled_latest_only runs :
  all_cancelled cancelled runs -> latest_only cancelled runs None.
Proof. intros H i r Hi Hc. rewrite (H i r Hi) in Hc. discriminate. Qed.

Lemma cleanup_cancels (cancel : Run -> Run) runs g :
  (forall r, cancelled (cancel r) = true) ->
  latest_only cancelled runs (Some g) ->
  all_cancelled cancelled (alter cancel g runs).
Proof.
  intros Hcancel Hinv i r Hi.
  destruct (decide (g = i)) as [->|Hne].
  - rewrite list_lookup_alter_eq in Hi.
    destruct (runs !! i); simpl in Hi; [|discriminate].
    injection Hi as <-. apply Hcancel.
  - rewrite list_lookup_alter_ne in Hi by exact Hne.
    destruct (cancelled r) eqn:E; [reflexivity|].
    destruct (Hinv i r Hi E) as [H _]. congruence.
Qed.

Lemma no_cleanup_all_cancelled runs :
  latest_only cancelled runs None -> all_cancelled cancelled runs.
Proof.
  intros Hinv i r Hi. destruct (cancelled r) eqn:E; [reflexivity|].
  destruct (Hinv i r Hi E) as [H _]. discriminate.
Qed.

Lemma new_run_latest_only runs r :
  all_cancelled cancelled runs ->
  latest_only cancelled (runs ++ [r])%list (Some (length runs)).
Proof.
  intros Hall i r' Hi Hc.
  destruct (decide (i < length runs)) as [Hlt|Hge].
  - rewrite lookup_app_l in Hi by exact Hlt.
    rewrite (Hall i r' Hi) in Hc. discriminate.
  - assert (Hlen : i < length (runs ++ [r])%list).
    { apply lookup_lt_is_Some. eauto. }
    rewrite length_app in *. simpl in *.
    assert (i = length runs) by lia. subst.
    split; [reflexivity|lia].
Qed.

Lemma progress_latest_only (f : Run -> Run) runs c g :
  (forall r, cancelled (f r) = cancelled r) ->
  latest_only cancelled runs c ->
  latest_only cancelled (alter f g runs) c.
Proof.
  intros Hf Hinv i r Hi Hc. rewrite length_alter.
  destruct (decide (g = i)) as [->|Hne].
  - rewrite list_lookup_alter_eq in Hi.
    destruct (runs !! i) as [r0|] eqn:E; simpl in Hi; [|discriminate].
    injection Hi as <-. rewrite Hf in Hc. exact (Hinv i r0 E Hc).
  - rewrite list_lookup_alter_ne in Hi by exact Hne. exact (Hinv i r Hi Hc).
Qed.

Lemma stale_is_cancelled runs c g r :
  latest_only cancelled runs c -> S g < length runs ->
  runs !! g = Some r -> cancelled r = true.
Proof.
  intros Hinv Hlt Hg. destruct (cancelled r) eqn:E; [reflexivity|].
  destruct (Hinv g r Hg E) as [_ H]. lia.
Qed.

End Generations.


Module StaleShow.
Import UseTmdbShow.

Lemma show_cleanup_spec s :
  latest_only cancelled (runs s) (cleanup s) ->
  all_cancelled cancelled (runs (run_cleanup s)) /\
  cleanup (run_cleanup s) = None.
Proof.
  unfold run_cleanup. intros H.
  destruct (cleanup s) as [g|] eqn:E; simpl.
  - split; [|reflexivity]. now apply (cleanup_cancels cancelled cancel).
  - rewrite E. split; [|reflexivity]. now apply no_cleanup_all_cancelled.
Qed.

Lemma show_step_invariant s ev :
  latest_only cancelled (runs s) (cleanup s) ->
  latest_only cancelled (runs (step s ev)) (cleanup (step s ev)).
Proof.
  intros H. destruct ev as [id| |g r|g r]; simpl.
  - destruct (show_cleanup_spec s H) as (Hall & Hc).
    unfold run_effect. destruct (negb (valid_id id)); simpl.
    + now apply all_cancelled_latest_only.
    + now apply new_run_latest_only.
  - destruct (show_cleanup_spec s H) as (Hall & Hc).
    rewrite Hc. now apply all_cancelled_latest_only.
  - destruct (runs s !! g) as [[c []]|] eqn:E; try exact H.
    destruct r as [m|res]; [|destruct (negb (ok res))];
      unfold resume; simpl; now apply progress_latest_only.
  - destruct (runs s !! g) as [[c []]|] eqn:E; try exact H.
    destruct r as [d|e];
      unfold resume; simpl; now apply progress_latest_only.
Qed.

Lemma show_exec_invariant evs s :
  latest_only cancelled (runs s) (cleanup s) ->
  latest_only cancelled (runs (exec s evs)) (cleanup (exec s evs)).
Proof.
  revert s. induction evs as [|ev evs IH]; intros s H; [exact H|].
  simpl. apply IH. now apply show_step_invariant.
Qed.

Lemma stale_fetch s g r :
  latest_only cancelled (runs s) (cleanup s) -> S g < length (runs s) ->
  view (step s (FetchSettled g r)) = view s.
Proof.
  intros H Hlt. simpl.
  destruct (runs s !! g) as [[c ph]|] eqn:E; [|reflexivity].
  pose proof (stale_is_cancelled cancelled _ _ _ _ H Hlt E) as Hc.
  simpl in Hc. subst c. destruct ph; try reflexivity.
  destruct r as [m|res]; [reflexivity|]. now destruct (negb (ok res)).
Qed.

Lemma stale_json s g r :
  latest_only cancelled (runs s) (cleanup s) -> S g < length (runs s) ->
  view (step s (JsonSettled g r)) = view s.
Proof.
  intros H Hlt. simpl.
  destruct (runs s !! g) as [[c ph]|] eqn:E; [|reflexivity].
  pose proof (stale_is_cancelled cancelled _ _ _ _ H Hlt E) as Hc.
  simpl in Hc. subst c. destruct ph; try reflexivity. now destruct r.
Qed.

End StaleShow.

Module StaleLibrary.
Import ShowDetails ShowDetails.Effect.

Lemma library_cleanup_spec s :
  latest_only cancelled (runs s) (cleanup s) ->
  all_cancelled cancelled (runs (run_cleanup s)) /\
  cleanup (run_cleanup s) = None.
Proof.
  unfold run_cleanup. intros H.
  destruct (cleanup s) as [g|] eqn:E; simpl.
  - split; [|reflexivity]. now apply (cleanup_cancels cancelled cancel).
  - rewrite E. split; [|reflexivity]. now apply no_cleanup_all_cancelled.
Qed.

Lemma library_step_invariant s ev :
  latest_only cancelled (runs s) (cleanup s) ->
  latest_only cancelled (runs (step s ev)) (cleanup (step s ev)).
Proof.
  intros H. destruct ev as [id| |g r|g r]; simpl.
  - destruct (library_cleanup_spec s H) as (Hall & Hc).
    unfold run_effect. destruct (no_user id); simpl.
    + now apply all_cancelled_latest_only.
    + now apply new_run_latest_only.
  - destruct (library_cleanup_spec s H) as (Hall & Hc).
    rewrite Hc. now apply all_cancelled_latest_only.
  - destruct (runs s !! g) as [this|] eqn:E; [|exact H].
    destruct (favoritesPending this); [|exact H].
    simpl. now apply progress_latest_only.
  - destruct (runs s !! g) as [this|] eqn:E; [|exact H].
    destruct (notInterestedPending this); [|exact H].
    simpl. now apply progress_latest_only.
Qed.

Lemma library_exec_invariant evs s :
  latest_only cancelled (runs s) (cleanup s) ->
  latest_only cancelled (runs (exec s evs)) (cleanup (exec s evs)).
Proof.
  revert s. induction evs as [|ev evs IH]; intros s H; [exact H|].
  simpl. apply IH. now apply library_step_invariant.
Qed.

Lemma stale_favorites s g r :
  latest_only cancelled (runs s) (cleanup s) -> S g < length (runs s) ->
  Effect.library (step s (FavoritesSettled g r)) = Effect.library s.
Proof.
  intros H Hlt. simpl.
  destruct (runs s !! g) as [this|] eqn:E; [|reflexivity].
  pose proof (stale_is_cancelled cancelled _ _ _ _ H Hlt E) as Hc.
  destruct (favoritesPending this); [|reflexivity].
  simpl. unfold favorites_settled. rewrite Hc. now destruct r.
Qed.

Lemma stale_notInterested s g r :
  latest_only cancelled (runs s) (cleanup s) -> S g < length (runs s) ->
  Effect.library (step s (NotInterestedSettled g r)) = Effect.library s.
Proof.
  intros H Hlt. simpl.
  destruct (runs s !! g) as [this|] eqn:E; [|reflexivity].
  pose proof (stale_is_cancelled cancelled _ _ _ _ H Hlt E) as Hc.
  destruct (notInterestedPending this); [|reflexivity].
  simpl. unfold notInterested_settled. rewrite Hc. now destruct r.
Qed.

End StaleLibrary.

(** C2 as stated fails for the loads of the favourites page, whose
    effect returns no cleanup and whose loads test no flag: the page
    changes from user 7 to user 9, the list of 9 arrives and is shown,
    and when the list of 7 arrives at last it replaces it, although its
    load is no longer the latest. *)
Lemma stale_load_counterexample :
  let s := FavoritesLoads.exec
             (FavoritesLoads.initial (Demo.browser (Some "t0k") (Demo.scripted [])))
             Demo.switched_user in
  let s' := FavoritesLoads.step s Demo.late_favourites in
  S 0 < length (FavoritesLoads.runs s) /\
  FavoritesPage.list_ (FavoritesLoads.page s) = [Demo.favourite 8 "Dark"] /\
  FavoritesPage.list_ (FavoritesLoads.page s') = [Demo.favourite 42 "Severance"] /\
  FavoritesLoads.page s' <> FavoritesLoads.page s.
Proof.
  cbv zeta. split; [simpl; lia|]. split; [reflexivity|]. split; [reflexivity|].
  intros H. apply (f_equal FavoritesPage.list_) in H. discriminate H.
Qed.

(** C2, amended.  For the two effects that keep a [cancelled] flag, the
    one that loads the show in useTmdbShow and the one that loads the
    favourites and not-interested lists of the details page: after any
    sequence of renders and responses, once a load has been followed by
    a later one (its generation [g] is no longer the last), nothing
    that settles for it changes what the view shows: not the response
    and not its body, neither on success nor on failure. *)
Theorem stale_load_is_discarded
  (evs : list UseTmdbShow.Event) (g : nat)
  (evs' : list ShowDetails.Effect.Event) (g' : nat) :
  let s := UseTmdbShow.exec UseTmdbShow.initial evs in
  let s' := ShowDetails.Effect.exec ShowDetails.Effect.initial evs' in
  S g < length (UseTmdbShow.runs s) ->
  S g' < length (ShowDetails.Effect.runs s') ->
  (forall r, UseTmdbShow.view (UseTmdbShow.step s (UseTmdbShow.FetchSettled g r))
             = UseTmdbShow.view s) /\
  (forall r, UseTmdbShow.view (UseTmdbShow.step s (UseTmdbShow.JsonSettled g r))
             = UseTmdbShow.view s) /\
  (forall r, ShowDetails.Effect.library
               (ShowDetails.Effect.step s' (ShowDetails.Effect.FavoritesSettled g' r))
             = ShowDetails.Effect.library s') /\
  (forall r, ShowDetails.Effect.library
               (ShowDetails.Effect.step s'
                  (ShowDetails.Effect.NotInterestedSettled g' r))
             = ShowDetails.Effect.library s').
Proof.
  intros s s' Hg Hg'.
  assert (H : latest_only UseTmdbShow.cancelled (UseTmdbShow.runs s)
                (UseTmdbShow.cleanup s)).
  { apply StaleShow.show_exec_invariant, latest_only_nil. }
  assert (H' : latest_only ShowDetails.Effect.cancelled
                 (ShowDetails.Effect.runs s') (ShowDetails.Effect.cleanup s')).
  { apply StaleLibrary.library_exec_invariant, latest_only_nil. }
  repeat split; intros r.
  - now apply StaleShow.stale_fetch.
  - now apply StaleShow.stale_json.
  - now apply StaleLibrary.stale_favorites.
  - now apply StaleLibrary.stale_notInterested.
Qed.

Lemma stale_load_is_discarded_witness :
  let s := UseTmdbShow.exec UseTmdbShow.initial Demo.two_renders in
  let s' := ShowDetails.Effect.exec ShowDetails.Effect.initial Demo.two_users in
  (forall r, UseTmdbShow.view (UseTmdbShow.step s (UseTmdbShow.FetchSettled 0 r))
             = UseTmdbShow.view s) /\
  (forall r, UseTmdbShow.view (UseTmdbShow.step s (UseTmdbShow.JsonSettled 0 r))
             = UseTmdbShow.view s) /\
  (forall r, ShowDetails.Effect.library
               (ShowDetails.Effect.step s' (ShowDetails.Effect.FavoritesSettled 0 r))
             = ShowDetails.Effect.library s') /\
  (forall r, ShowDetails.Effect.library
               (ShowDetails.Effect.step s'
                  (ShowDetails.Effect.NotInterestedSettled 0 r))
             = ShowDetails.Effect.library s').
Proof.
  apply (stale_load_is_discarded Demo.two_renders 0 Demo.two_users 0);
    simpl; lia.
Defined.

(** The second load answers before the first: the view shows the second
    show, and is the same as if the first had never answered. *)
Example out_of_order_shows_latest :
  UseTmdbShow.view (UseTmdbShow.exec UseTmdbShow.initial Demo.out_of_order)
  = {| UseTmdbShow.data := Some (Demo.show 2 "Dark");
       UseTmdbShow.loading := false;
       UseTmdbShow.error := None |}.
Proof. reflexivity. Qed.

(** * Further properties of the code *)

(** ** URL resolution, continued *)

Lemma startsWith_of_longer s p q :
  startsWith s (p ++ q) = true -> startsWith s p = true.
Proof.
  revert s. induction p as [|c p IH]; intros s H.
  - apply startsWith_empty.
  - destruct s as [|c' s]; [discriminate|].
    rewrite append_cons, startsWith_cons in H. rewrite startsWith_cons.
    destruct (Ascii.eqb c c'); [now apply IH|discriminate].
Qed.

Lemma startsWith_app s t p :
  startsWith s p = true -> startsWith (s ++ t) p = true.
Proof.
  revert s. induction p as [|c p IH]; intros s H.
  - apply startsWith_empty.
  - destruct s as [|c' s]; [discriminate|].
    rewrite startsWith_cons in H. rewrite append_cons, startsWith_cons.
    destruct (Ascii.eqb c c'); [now apply IH|discriminate].
Qed.

Lemma startsWith_refl s : startsWith s s = true.
Proof.
  induction s as [|c s IH]; [reflexivity|].
  now rewrite startsWith_cons, Ascii.eqb_refl.
Qed.

Lemma startsWith_app_refl s t : startsWith (s ++ t) s = true.
Proof. apply startsWith_app, startsWith_refl. Qed.

Lemma starts_with_slash s :
  startsWith s "/" = true -> exists t, s = String "/" t.
Proof.
  destruct s as [|c s]; [discriminate|].
  rewrite startsWith_cons. destruct (Ascii.eqb_spec "/"%char c); [|discriminate].
  subst. eauto.
Qed.

Ltac peel H :=
  match type of H with
  | startsWith ?s (String _ _) = true =>
      destruct s; [cbv in H; discriminate H|];
      rewrite startsWith_cons in H;
      match type of H with
      | context [Ascii.eqb ?a ?b] =>
          destruct (Ascii.eqb_spec a b); [subst|discriminate H]
      end
  end.

Lemma slice_api path :
  startsWith path "/api/" = true -> "/api" ++ slice 4 path = path.
Proof. intros H. do 5 peel H. reflexivity. Qed.

Lemma not_absolute_slash t : absolute (String "/" t) = false.
Proof. reflexivity. Qed.

(** X1.  Resolving a resolved URL changes nothing in the first variant:
    the prefix is never applied twice, whatever the path. *)
Theorem buildUrlA_idempotent path :
  ApiA.buildUrl (ApiA.buildUrl path) = ApiA.buildUrl path.
Proof.
  assert (Hfix : forall t, ApiA.buildUrl ("/api/" ++ t) = "/api/" ++ t).
  { intros t. unfold ApiA.buildUrl. js_strings. reflexivity. }
  unfold ApiA.buildUrl at 2 3.
  destruct (startsWith path "http://" || startsWith path "https://") eqn:Habs.
  - unfold ApiA.buildUrl. now rewrite Habs.
  - destruct ((path =? "/api") || startsWith path "/api/") eqn:Hapi.
    + unfold ApiA.buildUrl. now rewrite Habs, Hapi.
    + unfold ApiA.BASE.
      destruct (startsWith path "/") eqn:Hs.
      * destruct (starts_with_slash _ Hs) as [t ->]. apply (Hfix t).
      * apply (Hfix path).
Qed.

(** X2.  In the first variant every path without a scheme resolves to a
    URL under the base "/api": the prefix is never dropped. *)
Theorem buildUrlA_keeps_prefix path :
  absolute path = false ->
  startsWith (ApiA.buildUrl path) ApiA.BASE = true.
Proof.
  unfold absolute, ApiA.buildUrl. intros ->.
  destruct (path =? "/api") eqn:E; simpl.
  - apply String.eqb_eq in E. now subst.
  - destruct (startsWith path "/api/") eqn:Hp.
    + now apply (startsWith_of_longer path "/api" "/").
    + apply startsWith_app_refl.
Qed.


Lemma buildUrlA_keeps_prefix_witness :
  startsWith (ApiA.buildUrl "tmdb/search?q=dark") ApiA.BASE = true.
Proof. apply (buildUrlA_keeps_prefix "tmdb/search?q=dark"). reflexivity. Defined.

Lemma string_of_list_app l1 l2 :
  string_of_list_ascii (l1 ++ l2)%list
  = string_of_list_ascii l1 ++ string_of_list_ascii l2.
Proof. induction l1 as [|c l1 IH]; simpl; [reflexivity|]. now rewrite IH. Qed.

Lemma drop_leading_slashes_spec l :
  exists n, l = (repeat "/"%char n ++ drop_leading_slashes l)%list /\
            (forall t, drop_leading_slashes l <> ("/"%char :: t)).
Proof.
  induction l as [|c l (n & Hl & Hno)]; simpl.
  - exists 0. split; [reflexivity|]. intros t. discriminate.
  - unfold is_slash. destruct (Ascii.eqb_spec c "/").
    + subst. exists (S n). simpl. split; [now f_equal|exact Hno].
    + exists 0. split; [reflexivity|]. intros t Ht. congruence.
Qed.

Lemma string_of_repeat n : string_of_list_ascii (repeat "/"%char n) = slashes n.
Proof. induction n; simpl; [reflexivity|]. now rewrite IHn. Qed.

Lemma rev_repeat {A} (x : A) n : rev (repeat x n) = repeat x n.
Proof.
  induction n; simpl; [reflexivity|]. rewrite IHn.
  clear IHn. induction n; simpl; [reflexivity|]. now rewrite IHn.
Qed.

Lemma strip_trailing_slashes_spec s :
  (exists n, s = strip_trailing_slashes s ++ slashes n) /\
  (forall t, strip_trailing_slashes s <> t ++ "/").
Proof.
  unfold strip_trailing_slashes.
  destruct (drop_leading_slashes_spec (rev (list_ascii_of_string s)))
    as (n & Hl & Hno).
  set (d := drop_leading_slashes (rev (list_ascii_of_string s))) in *.
  split.
  - exists n.
    rewrite <- string_of_repeat, <- string_of_list_app.
    rewrite <- (string_of_list_ascii_of_string s) at 1. f_equal.
    rewrite <- (rev_involutive (list_ascii_of_string s)), Hl.
    now rewrite rev_app_distr, rev_repeat.
  - intros t Heq.
    apply (f_equal list_ascii_of_string) in Heq.
    rewrite list_ascii_of_string_of_list_ascii in Heq.
    apply (f_equal (@rev ascii)) in Heq. rewrite rev_involutive in Heq.
    assert (Hl' : list_ascii_of_string (t ++ "/")
                  = (list_ascii_of_string t ++ ["/"%char])%list).
    { clear. induction t as [|c t IH]; simpl; [reflexivity|]. now rewrite IH. }
    rewrite Hl', rev_app_distr in Heq. simpl in Heq.
    exact (Hno _ Heq).
Qed.

(** X3.  The normalised base of the second and third variants never
    ends with a slash, and the configured base is the normalised base
    followed by slashes only. *)
Theorem base_norm_no_trailing_slash (env : ImportMetaEnv) :
  (exists n, ApiB.BASE env = ApiB.BASE_NORM env ++ slashes n) /\
  (forall t, ApiB.BASE_NORM env <> t ++ "/") /\
  (exists n, ApiC.BASE env = ApiC.BASE_NORM env ++ slashes n) /\
  (forall t, ApiC.BASE_NORM env <> t ++ "/").
Proof.
  unfold ApiB.BASE_NORM, ApiC.BASE_NORM.
  destruct (strip_trailing_slashes_spec (ApiB.BASE env)) as [H1 H2].
  destruct (strip_trailing_slashes_spec (ApiC.BASE env)) as [H3 H4].
  repeat split; assumption.
Qed.

Lemma absolute_app s t : absolute s = true -> absolute (s ++ t) = true.
Proof.
  unfold absolute. intros H. apply orb_true_iff in H as [H|H];
    apply (startsWith_app _ t) in H; rewrite H; [reflexivity|apply orb_true_r].
Qed.

Lemma buildUrlB_shape env path :
  absolute path = false ->
  exists q, ApiB.buildUrl env path = ApiB.BASE_NORM env ++ String "/" q.
Proof.
  unfold absolute, ApiB.buildUrl. intros ->. cbv zeta.
  destruct (path =? "/api") eqn:E.
  - exists "". reflexivity.
  - destruct (startsWith path "/api/") eqn:Hp.
    + do 5 peel Hp. exists path. js_strings. reflexivity.
    + destruct (startsWith path "/") eqn:Hs.
      * destruct (starts_with_slash _ Hs) as [t ->]. now exists t.
      * now exists path.
Qed.

(** X4.  When the normalised base is an absolute URL or is "/api",
    resolving a resolved URL changes nothing in the second variant. *)
Theorem buildUrlB_idempotent env path :
  absolute (ApiB.BASE_NORM env) = true \/ ApiB.BASE_NORM env = "/api" ->
  ApiB.buildUrl env (ApiB.buildUrl env path) = ApiB.buildUrl env path.
Proof.
  intros Hbase.
  destruct (absolute path) eqn:Habs.
  - unfold absolute in Habs. unfold ApiB.buildUrl. now rewrite !Habs.
  - destruct (buildUrlB_shape env path Habs) as [q Hq]. rewrite Hq.
    destruct Hbase as [Hb|Hb].
    + apply (absolute_app _ (String "/" q)) in Hb. unfold absolute in Hb.
      unfold ApiB.buildUrl. now rewrite Hb.
    + rewrite Hb. unfold ApiB.buildUrl. rewrite Hb. js_strings. reflexivity.
Qed.


Lemma buildUrlB_idempotent_witness :
  ApiB.buildUrl example_env (ApiB.buildUrl example_env "/api/shows/5")
  = ApiB.buildUrl example_env "/api/shows/5".
Proof.
  apply (buildUrlB_idempotent example_env "/api/shows/5"). left. reflexivity.
Defined.

(** X5.  The copies of buildUrl resolve alike: the second and the third
    agree on every path but "/api" itself, where the second appends a
    slash, and in development the third agrees with the first. *)
Theorem buildUrl_copies_agree (env : ImportMetaEnv) (path : string) :
  path <> "/api" ->
  ApiB.buildUrl env path = ApiC.buildUrl env path /\
  ApiB.buildUrl env "/api" = ApiC.buildUrl env "/api" ++ "/" /\
  ApiC.buildUrl development path = ApiA.buildUrl path /\
  ApiC.buildUrl development "/api" = ApiA.buildUrl "/api".
Proof.
  intros Hne. apply String.eqb_neq in Hne. split; [|split; [|split]].
  - unfold ApiB.buildUrl, ApiC.buildUrl. rewrite Hne.
    destruct (startsWith path "http://" || startsWith path "https://");
      [reflexivity|]. cbv zeta.
    destruct (startsWith path "/api/") eqn:Hp; [|reflexivity].
    do 5 peel Hp. js_strings. reflexivity.
  - reflexivity.
  - unfold ApiC.buildUrl, ApiA.buildUrl. rewrite Hne.
    destruct (startsWith path "http://" || startsWith path "https://");
      [reflexivity|].
    simpl orb. destruct (startsWith path "/api/") eqn:Hp; [|reflexivity].
    change (ApiC.BASE_NORM development) with "/api".
    now apply slice_api.
  - reflexivity.
Qed.

Lemma buildUrl_copies_agree_witness :
  ApiB.buildUrl example_env "/api/shows/5" = ApiC.buildUrl example_env "/api/shows/5" /\
  ApiB.buildUrl example_env "/api" = ApiC.buildUrl example_env "/api" ++ "/" /\
  ApiC.buildUrl development "/api/shows/5" = ApiA.buildUrl "/api/shows/5" /\
  ApiC.buildUrl development "/api" = ApiA.buildUrl "/api".
Proof.
  apply (buildUrl_copies_agree example_env "/api/shows/5"). discriminate.
Defined.

(** X6.  A path may be given with or without its leading slash: for a
    path without scheme and without leading slash that does not begin
    with "api", the three copies resolve it as they resolve the path
    with the slash. *)
Theorem buildUrl_leading_slash env p :
  absolute p = false ->
  startsWith p "/" = false ->
  p <> "api" -> startsWith p "api/" = false ->
  ApiA.buildUrl p = ApiA.buildUrl ("/" ++ p) /\
  ApiB.buildUrl env p = ApiB.buildUrl env ("/" ++ p) /\
  ApiC.buildUrl env p = ApiC.buildUrl env ("/" ++ p).
Proof.
  unfold absolute. intros Habs Hs Hne Hp.
  apply String.eqb_neq in Hne.
  assert (H1 : (p =? "/api") = false).
  { destruct p as [|c p]; [reflexivity|].
    rewrite startsWith_cons, startsWith_empty in Hs. rewrite eqb_cons.
    rewrite Ascii.eqb_sym. destruct (Ascii.eqb "/" c); [discriminate|reflexivity]. }
  assert (H2 : startsWith p "/api/" = false).
  { destruct p as [|c p]; [reflexivity|].
    rewrite startsWith_cons, startsWith_empty in Hs. rewrite startsWith_cons.
    destruct (Ascii.eqb "/" c); [discriminate|reflexivity]. }
  unfold ApiA.buildUrl, ApiB.buildUrl, ApiC.buildUrl.
  rewrite Habs, H1, H2, Hs. js_strings. rewrite Hne, Hp. js_strings.
  repeat split; reflexivity.
Qed.

Lemma buildUrl_leading_slash_witness :
  ApiA.buildUrl "discover" = ApiA.buildUrl ("/" ++ "discover") /\
  ApiB.buildUrl example_env "discover" = ApiB.buildUrl example_env ("/" ++ "discover") /\
  ApiC.buildUrl example_env "discover" = ApiC.buildUrl example_env ("/" ++ "discover").
Proof.
  apply (buildUrl_leading_slash example_env "discover");
    [reflexivity | reflexivity | discriminate | reflexivity].
Defined.

(** ** The HTTP helper, continued *)

Section HttpMore.
Context {P : Platform}.
Variable env : ImportMetaEnv.

(** X7.  [http] never retries.  On a call whose headers, and whose
    stored token, the Headers class takes, it hands exactly one request
    to fetch, for the resolved URL and with the method and body of the
    caller, whatever the answer; when the URL of an absolute path does
    not parse it throws a TypeError and hands nothing to fetch.  Both
    variants.  The two preconditions keep the statement to the calls on
    which [Headers.make] and [Headers.set] are the class: on a name or
    value that the class refuses, the source throws before fetch is
    reached, and [Headers] above has no such refusal. *)
Theorem http_sends_once (b : Browser) (path : string) (init : option RequestInit) :
  legal_headers init = true ->
  legal_token b = true ->
  match request_path path with
  | Some _ =>
      (exists rq, sent (snd (ApiA.http path init b)) = (sent b ++ [rq])%list /\
                  req_url rq = ApiA.buildUrl path /\
                  req_method rq = init ≫= init_method /\
                  req_body rq = init ≫= init_body) /\
      (exists rq, sent (snd (ApiB.http env path init b)) = (sent b ++ [rq])%list /\
                  req_url rq = ApiB.buildUrl env path /\
                  req_method rq = init ≫= init_method /\
                  req_body rq = init ≫= init_body)
  | None =>
      exists m m',
        ApiA.http path init b = (Throw (TypeError m), b) /\
        ApiB.http env path init b = (Throw (TypeError m'), b)
  end.
Proof.
  intros _ _.
  destruct (request_path path) as [p|] eqn:Hp.
  - split.
    + eexists. split; [apply (httpA_sent _ _ _ _ Hp)|]. now repeat split.
    + eexists. split; [apply (httpB_sent env _ _ _ _ Hp)|]. now repeat split.
  - exists "Invalid URL", "Invalid URL".
    unfold ApiA.http, ApiB.http, bind.
    now rewrite attach_authA_spec, attach_authB_spec, Hp.
Qed.

(** X8.  [http] of the second variant leaves localStorage, and with it
    the token, exactly as it found it, whatever the answer; [http] of
    the first variant does so unless the answer is a 401. *)
Theorem http_keeps_storage (b : Browser) (path : string) (init : option RequestInit) :
  localStorage (snd (ApiB.http env path init b)) = localStorage b /\
  ((forall rq, unauthorized (network b (length (sent b)) rq) = false) ->
   localStorage (snd (ApiA.http path init b)) = localStorage b).
Proof.
  destruct (request_path path) as [p|] eqn:Hp.
  - rewrite (httpA_spec _ _ _ _ Hp), (httpB_spec env _ _ _ _ Hp). cbv zeta.
    split.
    + destruct (network b _ _) as [m|res] eqn:Hn; [reflexivity|].
      now rewrite respondB_state.
    + intros H401.
      destruct (network b _ _) as [m|res] eqn:Hn; [reflexivity|].
      rewrite respondA_state.
      specialize (H401 (ApiA.request path init
                          (authorized p (initial_headers init) b))).
      rewrite Hn in H401. simpl in H401. now rewrite H401.
  - unfold ApiA.http, ApiB.http, bind.
    now rewrite attach_authA_spec, attach_authB_spec, Hp.
Qed.

Lemma get_authorized_other p h b name :
  toLowerCase "Authorization" <> toLowerCase name ->
  Headers.get (authorized p h b) name = Headers.get h name.
Proof.
  intros Hne. unfold authorized.
  destruct (credential_exchange p); [reflexivity|].
  destruct (stored_token b) as [t|]; [|reflexivity].
  destruct (negb (t =? "") && negb (Headers.has h "Authorization")); [|reflexivity].
  now apply get_set_other.
Qed.

Lemma get_initial_headers_content_type init :
  Headers.get (initial_headers init) "Content-Type" =
  Some (default "application/json"
          (Headers.get (Headers.make (init ≫= init_headers)) "Content-Type")).
Proof.
  unfold initial_headers.
  destruct (Headers.has (Headers.make (init ≫= init_headers)) "Content-Type") eqn:E;
    simpl.
  - rewrite has_get in E.
    now destruct (Headers.get (Headers.make (init ≫= init_headers)) "Content-Type").
  - rewrite get_set_new by exact E. now rewrite get_none_of_has.
Qed.

(** X9.  Every request of [http] carries a Content-Type: the one of
    the caller, whatever the case of its name, and "application/json"
    when the caller gave none.  Both variants. *)
Theorem http_content_type (b : Browser) (path p : string) (init : option RequestInit) :
  request_path path = Some p ->
  let expected :=
    Some (default "application/json"
            (Headers.get (Headers.make (init ≫= init_headers)) "Content-Type")) in
  (exists rq, sent (snd (ApiA.http path init b)) = (sent b ++ [rq])%list /\
              Headers.get (req_headers rq) "Content-Type" = expected) /\
  (exists rq, sent (snd (ApiB.http env path init b)) = (sent b ++ [rq])%list /\
              Headers.get (req_headers rq) "Content-Type" = expected).
Proof.
  intros Hp expected. split; eexists.
  - split; [apply (httpA_sent _ _ _ _ Hp)|]. simpl.
    rewrite get_authorized_other by discriminate.
    apply get_initial_headers_content_type.
  - split; [apply (httpB_sent env _ _ _ _ Hp)|]. simpl.
    rewrite get_authorized_other by discriminate.
    apply get_initial_headers_content_type.
Qed.


(** X10.  The login path and the same path under "/api" resolve to the
    same URL but are treated differently: the first is sent without
    Authorization, the second with the stored token. *)
Theorem login_alias_is_authorized (b : Browser) (suffix tok : string) :
  stored_token b = Some tok -> tok <> "" ->
  let plain := "/auth/login" ++ suffix in
  let prefixed := "/api/auth/login" ++ suffix in
  exists rq rq',
    sent (snd (ApiB.http env plain None b)) = (sent b ++ [rq])%list /\
    sent (snd (ApiB.http env prefixed None b)) = (sent b ++ [rq'])%list /\
    req_url rq = req_url rq' /\
    Headers.get (req_headers rq) "Authorization" = None /\
    Headers.get (req_headers rq') "Authorization" = Some ("Bearer " ++ tok).
Proof.
  intros Ht Hne plain prefixed.
  assert (Hp : request_path plain = Some plain) by reflexivity.
  assert (Hp' : request_path prefixed = Some prefixed) by reflexivity.
  do 2 eexists.
  split; [apply (httpB_sent env _ _ _ _ Hp)|].
  split; [apply (httpB_sent env _ _ _ _ Hp')|].
  split; [|split].
  - simpl. unfold ApiB.buildUrl. subst plain prefixed. js_strings. reflexivity.
  - simpl. rewrite (authorized_authorization _ _ _ _ Ht Hne).
    assert (Hc : credential_exchange plain = true).
    { unfold credential_exchange. subst plain.
      now rewrite startsWith_app_refl. }
    now rewrite Hc.
  - simpl. rewrite (authorized_authorization _ _ _ _ Ht Hne).
    subst prefixed. unfold credential_exchange. js_strings. reflexivity.
Qed.

(** X11.  The login of the API module discards the stored token and
    sends one POST with the credentials and without Authorization;
    whatever the server answers, the module itself stores no token (the
    first and second variant leave that to their caller). *)
Theorem api_login_discards_token (b : Browser) (email password : string) :
  let out := ApiA.login email password b in
  let out' := ApiB.login env email password b in
  stored_token (snd out) = None /\
  stored_token (snd out') = None /\
  (exists rq, sent (snd out) = (sent b ++ [rq])%list /\
              req_url rq = "/api/auth/login" /\
              req_method rq = Some "POST" /\
              req_body rq = Some (ApiA.credentials email password) /\
              Headers.get (req_headers rq) "Authorization" = None) /\
  (exists rq, sent (snd out') = (sent b ++ [rq])%list /\
              req_url rq = ApiB.BASE_NORM env ++ "/auth/login" /\
              req_method rq = Some "POST" /\
              req_body rq = Some (ApiB.credentials email password) /\
              Headers.get (req_headers rq) "Authorization" = None).
Proof.
  intros out out'. subst out out'.
  unfold ApiA.login, ApiB.login, bind.
  rewrite clearTokenA_spec, clearTokenB_spec.
  set (init := Some (POST (Some (ApiA.credentials email password)))).
  set (init' := Some (POST (Some (ApiB.credentials email password)))).
  pose proof (token_of_without_token b) as Ht0.
  set (b0 := without_token b) in *.
  assert (Hs0 : sent b0 = sent b) by apply sent_without_token.
  assert (Hp : request_path "/auth/login" = Some "/auth/login") by reflexivity.
  split; [|split; [|split]].
  - rewrite (httpA_spec _ _ _ _ Hp). cbv zeta.
    destruct (network b0 _ _) as [m|res]; [exact Ht0|].
    rewrite respondA_state.
    destruct (status res =? 401)%N; [apply token_of_without_token|exact Ht0].
  - rewrite (httpB_spec env _ _ _ _ Hp). cbv zeta.
    destruct (network b0 _ _) as [m|res]; [exact Ht0|].
    now rewrite respondB_state.
  - eexists. split; [rewrite (httpA_sent _ _ _ _ Hp), Hs0; reflexivity|].
    now repeat split.
  - eexists. split; [rewrite (httpB_sent env _ _ _ _ Hp), Hs0; reflexivity|].
    now repeat split.
Qed.

End HttpMore.

Lemma http_sends_once_witness :
  (exists rq,
     sent (snd (ApiA.http (P := Demo.platform) "/discover" (Some Demo.own_authorization)
                  (Demo.stale 200 "OK"))) = ([] ++ [rq])%list /\
     req_url rq = "/api/discover" /\
     req_method rq = Some "GET" /\
     req_body rq = None) /\
  (exists rq,
     sent (snd (ApiB.http (P := Demo.platform) example_env "/discover"
                  (Some Demo.own_authorization) (Demo.stale 200 "OK")))
       = ([] ++ [rq])%list /\
     req_url rq = "https://api.example.com/api/discover" /\
     req_method rq = Some "GET" /\
     req_body rq = None).
Proof.
  apply (http_sends_once (P := Demo.platform) example_env (Demo.stale 200 "OK")
           "/discover" (Some Demo.own_authorization));
    reflexivity.
Defined.

Lemma http_keeps_storage_witness :
  localStorage (snd (ApiB.http (P := Demo.platform) example_env "/discover"
                       (Some GET) (Demo.stale 401 "Unauthorized")))
    = localStorage (Demo.stale 401 "Unauthorized") /\
  localStorage (snd (ApiA.http (P := Demo.platform) "/discover" (Some GET)
                       (Demo.stale 500 "Internal Server Error")))
    = localStorage (Demo.stale 500 "Internal Server Error").
Proof.
  split.
  - apply (http_keeps_storage (P := Demo.platform) example_env
             (Demo.stale 401 "Unauthorized") "/discover" (Some GET)).
  - apply (http_keeps_storage (P := Demo.platform) example_env
             (Demo.stale 500 "Internal Server Error") "/discover" (Some GET)).
    intros rq. reflexivity.
Defined.

Lemma http_content_type_witness :
  (exists rq,
     sent (snd (ApiA.http (P := Demo.platform) "/discover" (Some GET)
                  (Demo.stale 200 "OK"))) = ([] ++ [rq])%list /\
     Headers.get (req_headers rq) "Content-Type" = Some "application/json") /\
  (exists rq,
     sent (snd (ApiB.http (P := Demo.platform) example_env "/discover" (Some GET)
                  (Demo.stale 200 "OK"))) = ([] ++ [rq])%list /\
     Headers.get (req_headers rq) "Content-Type" = Some "application/json").
Proof.
  apply (http_content_type (P := Demo.platform) example_env (Demo.stale 200 "OK")
           "/discover" "/discover" (Some GET)).
  reflexivity.
Defined.

Lemma login_alias_is_authorized_witness :
  exists rq rq',
    sent (snd (ApiB.http (P := Demo.platform) example_env ("/auth/login" ++ "")
                 None (Demo.stale 200 "OK"))) = ([] ++ [rq])%list /\
    sent (snd (ApiB.http (P := Demo.platform) example_env ("/api/auth/login" ++ "")
                 None (Demo.stale 200 "OK"))) = ([] ++ [rq'])%list /\
    req_url rq = req_url rq' /\
    Headers.get (req_headers rq) "Authorization" = None /\
    Headers.get (req_headers rq') "Authorization" = Some ("Bearer " ++ "stale").
Proof.
  apply (login_alias_is_authorized (P := Demo.platform) example_env
           (Demo.stale 200 "OK") "" "stale"); [reflexivity|discriminate].
Defined.

(** ** The third copy of the API module *)

Section ThirdCopy.
Context {P : Platform}.
Variable env : ImportMetaEnv.

Lemma getTokenC_spec b : ApiC.getToken b = (Ret (stored_token b), b).
Proof.
  unfold ApiC.getToken, try_catch, getItem, ret, stored_token.
  now destruct (available (localStorage b)).
Qed.

Lemma setTokenC_spec (token : value) (b : Browser) :
  ApiC.setToken token b =
  (Ret tt, if truthy token then with_token (String_ token) b
           else without_token b).
Proof.
  unfold ApiC.setToken, try_catch, with_token, without_token, setItem,
    removeItem, ret.
  destruct (truthy token).
  - now destruct (available (localStorage b) && quota_left (localStorage b)).
  - now destruct (available (localStorage b)).
Qed.

Lemma clearTokenC_spec b : ApiC.clearToken b = (Ret tt, without_token b).
Proof. unfold ApiC.clearToken. now rewrite setTokenC_spec. Qed.

Lemma attach_authC_spec path h b :
  ApiC.attach_auth path h b =
  match request_path path with
  | Some p => (Ret (authorized p h b), b)
  | None => (Throw (TypeError "Invalid URL"), b)
  end.
Proof.
  unfold ApiC.attach_auth, ApiC.shouldSkipAuth, request_path, authorized,
    credential_exchange, bind.
  destruct (if startsWith path "http" then url_pathname path else Some path)
    as [p|]; [|reflexivity].
  unfold ret at 1.
  destruct (startsWith p "/auth/login" || startsWith p "/auth/register");
    simpl; [reflexivity|].
  rewrite getTokenC_spec.
  destruct (stored_token b) as [t|]; [|reflexivity].
  now destruct (negb (t =? "")%string && negb (Headers.has h "Authorization")).
Qed.

Lemma httpC_spec path init b p :
  request_path path = Some p ->
  ApiC.http env path init b =
  let rq := ApiC.request env path init
              (authorized p (initial_headers_of_body init) b) in
  match network b (length (sent b)) rq with
  | NetworkFailure m => (Throw (TypeError m), sending rq b)
  | Responded res => ApiC.respond init res (sending rq b)
  end.
Proof.
  intros Hp. unfold ApiC.http. cbv zeta. unfold bind at 1.
  rewrite attach_authC_spec, Hp. unfold bind. rewrite fetch_spec.
  fold (initial_headers_of_body init).
  now destruct (network b _ _).
Qed.

Lemma respondC_state init res b : snd (ApiC.respond init res b) = b.
Proof.
  unfold ApiC.respond, bind.
  destruct (negb (ok res)).
  - unfold ApiC.error_detail, try_catch, bind, res_json, res_text, ret, throw.
    simpl. destruct (bodyUsed res); [reflexivity|].
    now destruct (body_json res).
  - destruct (String.eqb _ "text").
    + unfold res_text, ret, throw.
      destruct (bodyUsed res); [reflexivity|].
      now destruct (body_text res).
    + destruct (status res =? 204)%N; [reflexivity|].
      unfold res_json, ret, throw.
      destruct (bodyUsed res); [reflexivity|].
      now destruct (body_json res).
Qed.

Lemma respondC_failed init res b :
  ok res = false -> exists m, ApiC.respond init res b = (Throw (Error m), b).
Proof.
  intros Hok. unfold ApiC.respond, bind. rewrite Hok. simpl.
  unfold ApiC.error_detail, try_catch, bind, res_json, res_text, ret, throw.
  simpl. destruct (bodyUsed res); [eauto|].
  destruct (body_json res); eauto.
Qed.

Lemma respondC_ok init res b :
  ok res = true -> init ≫= init_parse = None ->
  ApiC.respond init res b =
  (if (status res =? 204)%N then Ret None
   else if bodyUsed res then Throw (TypeError "body stream already read")
   else match body_json res with
        | Some j => Ret (Some j)
        | None => Throw (SyntaxError "Unexpected token")
        end, b).
Proof.
  intros Hok Hparse. unfold ApiC.respond, bind.
  rewrite Hok, Hparse. simpl.
  destruct (status res =? 204)%N; [reflexivity|].
  unfold res_json, ret, throw.
  destruct (bodyUsed res); [reflexivity|].
  now destruct (body_json res).
Qed.

(** What http returns, with the access token it carries, if any. *)
Lemma httpC_exchange path init b result :
  request_path path = Some path ->
  init ≫= init_parse = None ->
  (forall rq, network b (length (sent b)) rq = result) ->
  exists o rq,
    ApiC.http env path init b = (o, sending rq b) /\
    match o with
    | Ret r => prop r "access_token" = granted result
    | Throw _ => granted result = None
    end.
Proof.
  intros Hp Hparse Hnet. rewrite (httpC_spec _ _ _ _ Hp). cbv zeta.
  rewrite Hnet. destruct result as [m|res]; simpl granted.
  - do 2 eexists. split; reflexivity.
  - destruct (ok res) eqn:Hok.
    + rewrite respondC_ok by easy. do 2 eexists. split; [reflexivity|].
      simpl. destruct (status res =? 204)%N; [reflexivity|].
      destruct (bodyUsed res); [reflexivity|]. simpl.
      now destruct (body_json res).
    + destruct (respondC_failed init res
                  (sending (ApiC.request env path init
                     (authorized path (initial_headers_of_body init) b)) b) Hok)
        as [m ->].
      do 2 eexists. split; reflexivity.
Qed.

(** X12.  The login of the third copy stores the token itself: when it
    is done the storage holds the access token that the server granted,
    and no token at all when the exchange failed or granted none; the
    stale token is gone in both cases; one request is sent. *)
Theorem loginC_persists_token (b : Browser) (email password : string)
  (result : FetchResult) :
  available (localStorage b) = true ->
  quota_left (localStorage b) = true ->
  (forall rq, network b (length (sent b)) rq = result) ->
  let out := ApiC.login env email password b in
  stored_token (snd out) =
    (if truthy (granted result) then Some (String_ (granted result)) else None) /\
  length (sent (snd out)) = S (length (sent b)).
Proof.
  intros Hav Hq Hnet out. subst out.
  unfold ApiC.login, bind. rewrite clearTokenC_spec.
  pose proof (token_of_without_token b) as Ht0.
  destruct (same_world_without_token b) as (Hn0 & Ha0 & Hq0).
  pose proof (sent_without_token b) as Hs0.
  set (b0 := without_token b) in *.
  destruct (httpC_exchange "/auth/login"
              (Some (POST (Some (ApiC.credentials email password)))) b0 result)
    as (o & rq & Hrun & Ho); [reflexivity|reflexivity| |].
  { intros rq. now rewrite Hn0, Hs0. }
  rewrite Hrun.
  assert (Hlen : length (sent (sending rq b0)) = S (length (sent b))).
  { simpl. rewrite length_app, Hs0. simpl. lia. }
  destruct o as [r|e].
  - rewrite Ho. unfold when_.
    destruct (truthy (granted result)) eqn:Htr.
    + rewrite setTokenC_spec, Htr. unfold ret. cbn [snd]. split.
      * apply token_of_with_token; simpl; congruence.
      * now rewrite sent_with_token.
    + simpl. now split.
  - rewrite Ho. simpl. now split.
Qed.

Lemma httpC_sent path init b p :
  request_path path = Some p ->
  sent (snd (ApiC.http env path init b)) =
  (sent b ++ [ApiC.request env path init
                (authorized p (initial_headers_of_body init) b)])%list.
Proof.
  intros Hp. rewrite (httpC_spec _ _ _ _ Hp). cbv zeta.
  destruct (network b _ _) as [m|res]; [reflexivity|].
  now rewrite respondC_state.
Qed.

Lemma library_path_is_relative (a c : string) :
  request_path ("/library/" ++ a ++ "/favorites/" ++ c)
  = Some ("/library/" ++ a ++ "/favorites/" ++ c).
Proof. unfold request_path. js_strings. reflexivity. Qed.

(** X13.  In the third copy addFavorite(tmdbId) asks /me for the user
    and then posts to the same URL as addFavorite(userId, tmdbId) does
    with the id that /me returned. *)
Theorem addFavoriteC_resolves_user (b : Browser) (uid tid : Z)
  (res : Response) (j : json) :
  (forall rq, network b (length (sent b)) rq = Responded res) ->
  ok res = true -> status res <> 204%N -> bodyUsed res = false ->
  body_json res = Some j -> prop (Some j) "id" = Some (JNum uid) ->
  let path := "/library/" ++ pretty uid ++ "/favorites/" ++ pretty tid in
  exists rq_me rq rq',
    sent (snd (ApiC.addFavorite env tid None b)) = (sent b ++ [rq_me; rq])%list /\
    sent (snd (ApiC.addFavorite env uid (Some tid) b)) = (sent b ++ [rq'])%list /\
    req_url rq_me = ApiC.buildUrl env "/me" /\
    req_url rq = ApiC.buildUrl env path /\
    req_url rq' = ApiC.buildUrl env path /\
    req_method rq = Some "POST" /\ req_method rq' = Some "POST".
Proof.
  intros Hnet Hok H204 Hused Hj Hid path.
  destruct j as [| | | | |fields]; try discriminate Hid.
  unfold ApiC.addFavorite, ApiC.my_id, ApiC.me, bind.
  rewrite (httpC_spec "/me" (Some GET) b "/me") by reflexivity. cbv zeta.
  rewrite Hnet, respondC_ok by easy.
  apply N.eqb_neq in H204. rewrite H204, Hused, Hj, Hid.
  unfold ret. cbn beta iota.
  change (String_ (Some (JNum uid))) with (pretty uid).
  fold path.
  pose proof (library_path_is_relative (pretty uid) (pretty tid)) as Hp.
  fold path in Hp.
  set (rq_me := ApiC.request env "/me" (Some GET) _).
  pose proof (httpC_sent path (Some (POST None)) (sending rq_me b) path Hp) as H1.
  pose proof (httpC_sent path (Some (POST None)) b path Hp) as H2.
  destruct (ApiC.http env path (Some (POST None)) (sending rq_me b)) as [[r|e] b1];
    destruct (ApiC.http env path (Some (POST None)) b) as [[r'|e'] b2];
    simpl in H1, H2; do 3 eexists; cbn [snd];
    (split; [rewrite H1, <- app_assoc; reflexivity|]);
    (split; [exact H2|]); now repeat split.
Qed.

(** X14.  When /me fails, addFavorite(tmdbId) of the third copy throws
    after that one request: no favourite is posted for an unknown user. *)
Theorem addFavoriteC_unknown_user (b : Browser) (tid : Z) (result : FetchResult) :
  (forall rq, network b (length (sent b)) rq = result) ->
  failed result = true ->
  exists e rq_me,
    ApiC.addFavorite env tid None b = (Throw e, sending rq_me b) /\
    req_url rq_me = ApiC.buildUrl env "/me".
Proof.
  intros Hnet Hfail.
  unfold ApiC.addFavorite, ApiC.my_id, ApiC.me, bind.
  rewrite (httpC_spec "/me" (Some GET) b "/me") by reflexivity. cbv zeta.
  rewrite Hnet. destruct result as [m|res]; simpl in Hfail.
  - do 2 eexists. split; reflexivity.
  - apply negb_true_iff in Hfail.
    destruct (respondC_failed (Some GET) res
                (sending (ApiC.request env "/me" (Some GET)
                   (authorized "/me" (initial_headers_of_body (Some GET)) b)) b)
                Hfail) as [m ->].
    do 2 eexists. split; reflexivity.
Qed.

End ThirdCopy.

Lemma loginC_persists_token_witness :
  let out := ApiC.login (P := Demo.platform) example_env "ann@example.com"
               "secret" Demo.logging_in in
  stored_token (snd out) =
    (if truthy (granted Demo.token_response)
     then Some (String_ (granted Demo.token_response)) else None) /\
  length (sent (snd out)) = S (length (sent Demo.logging_in)).
Proof.
  apply (loginC_persists_token (P := Demo.platform) example_env Demo.logging_in
           "ann@example.com" "secret" Demo.token_response);
    [reflexivity | reflexivity | intros rq; reflexivity].
Defined.

Lemma addFavoriteC_resolves_user_witness :
  let path := "/library/" ++ pretty 7%Z ++ "/favorites/" ++ pretty 42%Z in
  exists rq_me rq rq',
    sent (snd (ApiC.addFavorite (P := Demo.platform) example_env 42 None
                 Demo.signed_in)) = ([] ++ [rq_me; rq])%list /\
    sent (snd (ApiC.addFavorite (P := Demo.platform) example_env 7 (Some 42%Z)
                 Demo.signed_in)) = ([] ++ [rq'])%list /\
    req_url rq_me = ApiC.buildUrl example_env "/me" /\
    req_url rq = ApiC.buildUrl example_env path /\
    req_url rq' = ApiC.buildUrl example_env path /\
    req_method rq = Some "POST" /\ req_method rq' = Some "POST".
Proof.
  apply (addFavoriteC_resolves_user (P := Demo.platform) example_env
           Demo.signed_in 7 42 Demo.me_response
           (JObj [("id", JNum 7); ("email", JStr "ann@example.com")]));
    try reflexivity.
  discriminate.
Defined.

Lemma addFavoriteC_unknown_user_witness :
  exists e rq_me,
    ApiC.addFavorite (P := Demo.platform) example_env 42 None
      (Demo.stale 401 "Unauthorized")
    = (Throw e, sending rq_me (Demo.stale 401 "Unauthorized")) /\
    req_url rq_me = ApiC.buildUrl example_env "/me".
Proof.
  apply (addFavoriteC_unknown_user (P := Demo.platform) example_env
           (Demo.stale 401 "Unauthorized") 42
           (Responded (Demo.response 401 "Unauthorized" None)));
    [intros rq; reflexivity | reflexivity].
Defined.

(** ** The session *)

Section Session.
Context {P : Platform}.
Variable env : ImportMetaEnv.

Lemma ok_not_401 res : ok res = true -> (status res =? 401)%N = false.
Proof.
  unfold ok. intros Hok. apply andb_prop in Hok as [_ H].
  apply N.leb_le in H. apply N.eqb_neq. lia.
Qed.

Lemma respondA_ret init res b r b1 :
  ApiA.respond init res b = (Ret r, b1) -> b1 = b.
Proof.
  intros H. destruct (ok res) eqn:Hok.
  - pose proof (respondA_state init res b) as Hs.
    rewrite H, (ok_not_401 _ Hok) in Hs. exact Hs.
  - destruct (respondA_failed init res b Hok) as [m Hm]. congruence.
Qed.

Lemma httpA_ret path init b r b1 :
  ApiA.http path init b = (Ret r, b1) ->
  localStorage b1 = localStorage b /\ network b1 = network b.
Proof.
  intros H. destruct (request_path path) as [p|] eqn:Hp.
  - rewrite (httpA_spec _ _ _ _ Hp) in H. cbv zeta in H.
    destruct (network b _ _) as [m|res]; [discriminate|].
    apply respondA_ret in H. now subst.
  - unfold ApiA.http, bind in H. rewrite attach_authA_spec, Hp in H.
    discriminate.
Qed.

Lemma httpB_state path init b :
  localStorage (snd (ApiB.http env path init b)) = localStorage b.
Proof.
  destruct (request_path path) as [p|] eqn:Hp.
  - rewrite (httpB_spec env _ _ _ _ Hp). cbv zeta.
    destruct (network b _ _) as [m|res]; [reflexivity|].
    now rewrite respondB_state.
  - unfold ApiB.http, bind. now rewrite attach_authB_spec, Hp.
Qed.

Lemma token_storage b b' :
  localStorage b' = localStorage b -> stored_token b' = stored_token b.
Proof. unfold stored_token. now intros ->. Qed.

(** X15.  Restoring the session never throws and always ends the
    loading state.  When /me answers, its result becomes the user and the
    token stays; when /me throws, for whatever reason, the user is null
    and the token is removed.  With either variant of the API module. *)
Theorem restore_never_throws (s : AuthProvider.State) :
  let b := AuthProvider.browser s in
  let out := AuthProvider.restore authApiA s in
  let out' := AuthProvider.restore (authApiB env) s in
  (fst out = Ret tt /\ AuthProvider.loading (snd out) = false /\
   match fst (ApiA.me b) with
   | Ret u => AuthProvider.user (snd out) = u /\
              stored_token (AuthProvider.browser (snd out)) = stored_token b
   | Throw _ => AuthProvider.user (snd out) = Some JNull /\
                stored_token (AuthProvider.browser (snd out)) = None
   end) /\
  (fst out' = Ret tt /\ AuthProvider.loading (snd out') = false /\
   match fst (ApiB.me env b) with
   | Ret u => AuthProvider.user (snd out') = u /\
              stored_token (AuthProvider.browser (snd out')) = stored_token b
   | Throw _ => AuthProvider.user (snd out') = Some JNull /\
                stored_token (AuthProvider.browser (snd out')) = None
   end).
Proof.
  intros b out out'. subst out out'.
  unfold AuthProvider.restore, finally, try_catch, bind,
    AuthProvider.in_browser, zoom, AuthProvider.setUser,
    AuthProvider.setLoading, modify.
  cbn [apiMe api_clearToken authApiA authApiB]. fold b.
  split.
  - destruct (ApiA.me b) as [[u|e] b1] eqn:Hme; cbn [fst snd].
    + apply httpA_ret in Hme as [Hme _].
      repeat split. simpl. now apply token_storage.
    + cbn [AuthProvider.browser]. rewrite clearTokenA_spec.
      repeat split. simpl. apply token_of_without_token.
  - pose proof (httpB_state "/me" (Some GET) b) as Hst.
    fold (ApiB.me env) in Hst.
    destruct (ApiB.me env b) as [[u|e] b1] eqn:Hme; cbn [fst snd] in *.
    + repeat split. simpl. now apply token_storage.
    + cbn [AuthProvider.browser]. rewrite clearTokenB_spec.
      repeat split. simpl. apply token_of_without_token.
Qed.

(** X16.  Logging out returns normally with the user null and no token
    in the storage, and sends no request; both variants of the API module
    leave the same state. *)
Theorem logout_clears_session (s : AuthProvider.State) :
  let out := AuthProvider.logout authApiA s in
  let out' := AuthProvider.logout (authApiB env) s in
  fst out = Ret tt /\ fst out' = Ret tt /\ snd out = snd out' /\
  AuthProvider.user (snd out) = Some JNull /\
  stored_token (AuthProvider.browser (snd out)) = None /\
  sent (AuthProvider.browser (snd out)) = sent (AuthProvider.browser s).
Proof.
  intros out out'. subst out out'.
  unfold AuthProvider.logout, bind, AuthProvider.in_browser, zoom,
    AuthProvider.setUser, modify.
  cbn [api_clearToken authApiA authApiB].
  rewrite clearTokenA_spec, clearTokenB_spec. cbn [fst snd].
  repeat split.
  - apply token_of_without_token.
  - apply sent_without_token.
Qed.

(** X17.  A login whose credential exchange grants a token and whose
    /me call answers with a user returns that user, sets it, and leaves
    the granted token in the storage; /me is the second request and
    carries the token as its bearer. *)
Theorem login_success (s : AuthProvider.State) (email password tok : string)
  (result : FetchResult) (res : Response) (u : json) :
  let b := AuthProvider.browser s in
  available (localStorage b) = true ->
  quota_left (localStorage b) = true ->
  (forall rq, network b (length (sent b)) rq = result) ->
  (forall rq, network b (S (length (sent b))) rq = Responded res) ->
  granted result = Some (JStr tok) -> tok <> "" ->
  ok res = true -> status res <> 204%N -> bodyUsed res = false ->
  body_json res = Some u ->
  exists rq rq',
    AuthProvider.login authApiA email password s =
      (Ret (Some u),
       {| AuthProvider.user := Some u;
          AuthProvider.loading := AuthProvider.loading s;
          AuthProvider.browser :=
            sending rq' (with_token tok (sending rq (without_token b))) |}) /\
    req_url rq = "/api/auth/login" /\
    req_url rq' = "/api/auth/me" /\
    Headers.get (req_headers rq') "Authorization" = Some ("Bearer " ++ tok).
Proof.
  intros b Hav Hq H1 H2 Hgr Htok Hok H204 Hused Hu.
  pose proof (token_of_without_token b) as Ht0.
  destruct (same_world_without_token b) as (Hn0 & Ha0 & Hq0).
  pose proof (sent_without_token b) as Hs0.
  set (b0 := without_token b) in *.
  set (init := Some (POST (Some (ApiA.credentials email password)))).
  set (rq := ApiA.request "/auth/login" init
               (authorized "/auth/login" (initial_headers init) b0)).
  set (b1 := sending rq b0).
  set (b2 := with_token tok b1).
  set (rq' := ApiA.request "/auth/me" None
                (authorized "/auth/me" (initial_headers None) b2)).
  exists rq, rq'.
  (* the exchange *)
  assert (Hex : exists tokjson,
            ApiA.login email password b = (Ret tokjson, b1) /\
            prop tokjson "access_token" = Some (JStr tok)).
  { unfold ApiA.login, bind. rewrite clearTokenA_spec. fold b0.
    rewrite (httpA_spec _ _ _ "/auth/login") by reflexivity. cbv zeta.
    fold init rq. rewrite Hn0, Hs0, H1.
    destruct result as [m|r1]; [discriminate Hgr|]. simpl in Hgr.
    destruct (ok r1) eqn:Hok1; [|discriminate Hgr].
    rewrite respondA_ok by easy.
    destruct (status r1 =? 204)%N; [discriminate Hgr|].
    destruct (bodyUsed r1); [discriminate Hgr|]. simpl in Hgr.
    destruct (body_json r1) as [j|]; [|discriminate Hgr].
    exists (Some j). now split. }
  destruct Hex as (tokjson & Hex & Hprop).
  assert (Ht2 : stored_token b2 = Some tok).
  { apply token_of_with_token; simpl; congruence. }
  assert (Hme : ApiA.me b2 = (Ret (Some u), sending rq' b2)).
  { unfold ApiA.me. rewrite (httpA_spec _ _ _ "/auth/me") by reflexivity.
    cbv zeta. fold rq'.
    destruct (same_world_with_token tok b1) as (Hn2 & _ & _). fold b2 in Hn2.
    assert (Hlen : length (sent b2) = S (length (sent b))).
    { subst b2 b1. rewrite sent_with_token. simpl.
      rewrite length_app, Hs0. simpl. lia. }
    rewrite Hn2. simpl network. rewrite Hn0, Hlen, H2.
    rewrite respondA_ok by easy.
    apply N.eqb_neq in H204. now rewrite H204, Hused, Hu. }
  split; [|split; [reflexivity|split; [reflexivity|]]].
  - unfold AuthProvider.login, bind, AuthProvider.in_browser, zoom,
      AuthProvider.setUser, modify.
    cbn [apiLogin apiMe api_setToken authApiA]. fold b. rewrite Hex.
    rewrite Hprop.
    assert (Htr : truthy (Some (JStr tok)) = true).
    { simpl. apply String.eqb_neq in Htok. now rewrite Htok. }
    rewrite Htr. cbn [negb AuthProvider.browser AuthProvider.user
                      AuthProvider.loading].
    rewrite setTokenA_spec, Htr. cbn [String_ to_string]. fold b2.
    cbn [AuthProvider.browser AuthProvider.user AuthProvider.loading].
    rewrite Hme. reflexivity.
  - subst rq'. cbn [req_headers ApiA.request].
    rewrite (authorized_authorization _ _ _ _ Ht2 Htok). reflexivity.
Qed.

End Session.

Lemma login_success_witness :
  exists rq rq',
    AuthProvider.login (authApiA (P := Demo.platform)) "ann@example.com" "secret"
      Demo.signing_in_well =
      (Ret (body_json Demo.me_response),
       {| AuthProvider.user := body_json Demo.me_response;
          AuthProvider.loading := false;
          AuthProvider.browser :=
            sending rq'
              (with_token "t0k"
                 (sending rq
                    (without_token (AuthProvider.browser Demo.signing_in_well)))) |}) /\
    req_url rq = "/api/auth/login" /\
    req_url rq' = "/api/auth/me" /\
    Headers.get (req_headers rq') "Authorization" = Some ("Bearer " ++ "t0k").
Proof.
  apply (login_success (P := Demo.platform) Demo.signing_in_well
           "ann@example.com" "secret" "t0k" Demo.token_response Demo.me_response
           (JObj [("id", JNum 7); ("email", JStr "ann@example.com")]));
    try reflexivity; try discriminate; intros rq; reflexivity.
Defined.

(** ** The heart and the buttons of the details page *)

Section Heart.
Variable addFavorite removeFavorite : Z -> Z -> M Browser unit.


(** X18.  The heart never throws, whatever the remote call and the
    onChange callback do, and when it is done the busy flag is what it
    was before the click. *)
Theorem toggle_never_throws (p : HeartButton.Props) (s : HeartButton.State) :
  fst (HeartButton.toggle addFavorite removeFavorite p s) = Ret tt /\
  HeartButton.busy (snd (HeartButton.toggle addFavorite removeFavorite p s))
    = HeartButton.busy s.
Proof.
  unfold HeartButton.toggle, bind, gets.
  destruct (HeartButton.tmdbId p) as [tid|]; [|now split].
  destruct (negb (HeartButton.canToggle p)); [now split|].
  destruct (HeartButton.busy s) eqn:Hb; [now split|].
  change (false || false) with false. cbv beta iota.
  unfold finally, try_catch, bind, HeartButton.in_browser, zoom,
    HeartButton.setBusy, HeartButton.setFav, HeartButton.notify_change,
    modify, console_error.
  cbn [HeartButton.browser HeartButton.fav HeartButton.busy].
  destruct (HeartButton.fav s);
    cbn [HeartButton.browser HeartButton.fav HeartButton.busy].
  - destruct (removeFavorite _ _ _) as [[[]|e] b1]; [|now split].
    cbn [HeartButton.browser HeartButton.fav HeartButton.busy].
    destruct (HeartButton.onChange p) as [f|]; [|now split].
    unfold HeartButton.in_browser, zoom. cbn [HeartButton.browser].
    destruct (f false b1) as [[[]|e] b2]; split; reflexivity.
  - destruct (addFavorite _ _ _) as [[[]|e] b1]; [|now split].
    cbn [HeartButton.browser HeartButton.fav HeartButton.busy].
    destruct (HeartButton.onChange p) as [f|]; [|now split].
    unfold HeartButton.in_browser, zoom. cbn [HeartButton.browser].
    destruct (f true b1) as [[[]|e] b2]; split; reflexivity.
Qed.

(** X19.  A heart that cannot toggle, or one that is busy with an
    earlier click, ignores the click: no remote call, no state change. *)
Theorem toggle_guard (p : HeartButton.Props) (s : HeartButton.State) :
  HeartButton.canToggle p = false \/ HeartButton.busy s = true ->
  HeartButton.toggle addFavorite removeFavorite p s = (Ret tt, s).
Proof.
  intros H. unfold HeartButton.toggle, bind, gets.
  destruct (HeartButton.tmdbId p) as [tid|]; [|reflexivity].
  destruct H as [-> | ->]; [reflexivity|].
  now rewrite orb_true_r.
Qed.

(** X20.  When the remote calls succeed, one click flips the heart and
    a second click restores it: the first click makes the call that
    fits the state before it, the second the opposite one. *)
Theorem toggle_twice (p : HeartButton.Props) (s : HeartButton.State)
  (tid : Z) (b1 b2 : Browser) :
  HeartButton.tmdbId p = Some tid ->
  HeartButton.canToggle p = true ->
  HeartButton.onChange p = None ->
  HeartButton.busy s = false ->
  remote_call addFavorite removeFavorite (HeartButton.fav s) (HeartButton.userId p) tid
    (HeartButton.browser s) = (Ret tt, b1) ->
  remote_call addFavorite removeFavorite (negb (HeartButton.fav s)) (HeartButton.userId p) tid b1
    = (Ret tt, b2) ->
  HeartButton.toggle addFavorite removeFavorite p s =
    (Ret tt, {| HeartButton.fav := negb (HeartButton.fav s);
                HeartButton.busy := false; HeartButton.browser := b1 |}) /\
  (run HeartButton.toggle addFavorite removeFavorite p;
   HeartButton.toggle addFavorite removeFavorite p) s =
    (Ret tt, {| HeartButton.fav := HeartButton.fav s;
                HeartButton.busy := false; HeartButton.browser := b2 |}).
Proof.
  intros Htid Hcan Hon Hbusy H1 H2.
  assert (Hstep : forall s' b',
            HeartButton.busy s' = false ->
            remote_call addFavorite removeFavorite (HeartButton.fav s') (HeartButton.userId p) tid
              (HeartButton.browser s') = (Ret tt, b') ->
            HeartButton.toggle addFavorite removeFavorite p s' =
              (Ret tt, {| HeartButton.fav := negb (HeartButton.fav s');
                          HeartButton.busy := false;
                          HeartButton.browser := b' |})).
  { intros s' b' Hb Hc.
    unfold HeartButton.toggle, bind, gets. rewrite Htid, Hcan, Hb.
    change (negb true || false) with false. cbv beta iota.
    unfold finally, try_catch, bind, HeartButton.in_browser, zoom,
      HeartButton.setBusy, HeartButton.setFav, HeartButton.notify_change,
      modify.
    rewrite Hon. cbn [HeartButton.browser HeartButton.fav HeartButton.busy].
    unfold remote_call in Hc.
    destruct (HeartButton.fav s');
      cbn [HeartButton.browser HeartButton.fav HeartButton.busy];
      rewrite Hc; reflexivity. }
  split; [now apply Hstep|].
  unfold bind at 1. rewrite (Hstep s b1 Hbusy H1).
  rewrite (Hstep _ b2); [|reflexivity|exact H2].
  cbn [HeartButton.fav]. now rewrite negb_involutive.
Qed.

End Heart.

Lemma toggle_guard_witness :
  let s := HeartButton.mount Demo.heart Demo.accepting in
  let busy := {| HeartButton.fav := HeartButton.fav s; HeartButton.busy := true;
                 HeartButton.browser := HeartButton.browser s |} in
  HeartButton.toggle (ApiA.addFavorite (P := Demo.platform))
    (ApiA.removeFavorite (P := Demo.platform)) Demo.heart busy = (Ret tt, busy).
Proof.
  apply (toggle_guard (ApiA.addFavorite (P := Demo.platform))
           (ApiA.removeFavorite (P := Demo.platform)) Demo.heart).
  right. reflexivity.
Defined.

Lemma toggle_twice_witness :
  let add := ApiA.addFavorite (P := Demo.platform) in
  let remove := ApiA.removeFavorite (P := Demo.platform) in
  let s := HeartButton.mount Demo.heart Demo.accepting in
  let b1 := snd (add 7%Z 42%Z (HeartButton.browser s)) in
  let b2 := snd (remove 7%Z 42%Z b1) in
  HeartButton.toggle add remove Demo.heart s =
    (Ret tt, {| HeartButton.fav := negb (HeartButton.fav s);
                HeartButton.busy := false; HeartButton.browser := b1 |}) /\
  (run HeartButton.toggle add remove Demo.heart;
   HeartButton.toggle add remove Demo.heart) s =
    (Ret tt, {| HeartButton.fav := HeartButton.fav s;
                HeartButton.busy := false; HeartButton.browser := b2 |}).
Proof.
  apply (toggle_twice (ApiA.addFavorite (P := Demo.platform))
           (ApiA.removeFavorite (P := Demo.platform)) Demo.heart
           (HeartButton.mount Demo.heart Demo.accepting) 42);
    reflexivity.
Defined.

Lemma has_filter_out ids tid :
  ShowDetails.has (filter (fun x => negb (x =? tid)%Z) ids) tid = false.
Proof.
  destruct (ShowDetails.has _ tid) eqn:E; [|reflexivity].
  apply has_elem_of, list_elem_of_filter in E as [E _].
  now rewrite Z.eqb_refl in E.
Qed.

Lemma has_snoc ids tid : ShowDetails.has (ids ++ [tid])%list tid = true.
Proof. apply has_elem_of, elem_of_app. right. apply list_elem_of_singleton. reflexivity. Qed.

Lemma has_toggled ids tid :
  ShowDetails.has (toggled tid ids) tid = negb (ShowDetails.has ids tid).
Proof.
  unfold toggled. destruct (ShowDetails.has ids tid) eqn:E; simpl.
  - apply has_filter_out.
  - apply has_snoc.
Qed.

Lemma NoDup_toggled ids tid : NoDup ids -> NoDup (toggled tid ids).
Proof.
  intros H. unfold toggled. destruct (ShowDetails.has ids tid) eqn:E.
  - now apply NoDup_filter.
  - apply NoDup_app. split; [exact H|]. split; [|apply NoDup_singleton].
    intros x Hx Hx'. apply list_elem_of_singleton in Hx'. subst.
    apply has_elem_of in Hx. congruence.
Qed.

Lemma toggled_other ids tid x :
  x <> tid -> ShowDetails.has (toggled tid ids) x = ShowDetails.has ids x.
Proof.
  intros Hne. unfold toggled.
  assert (Hiff : forall l l', (x ∈ l <-> x ∈ l') ->
                              ShowDetails.has l x = ShowDetails.has l' x).
  { intros l l' H. destruct (ShowDetails.has l x) eqn:E1, (ShowDetails.has l' x) eqn:E2;
      try reflexivity.
    - apply has_elem_of, H, has_elem_of in E1. congruence.
    - apply has_elem_of, H, has_elem_of in E2. congruence. }
  destruct (ShowDetails.has ids tid); apply Hiff.
  - rewrite list_elem_of_filter. split; [tauto|]. intros H. split; [|exact H].
    apply Z.eqb_neq in Hne. now rewrite Hne.
  - rewrite elem_of_app, list_elem_of_singleton.
    split; [intros [H|H]; [exact H | contradiction] | tauto].
Qed.

Section Handlers.
Variable addFavorite removeFavorite : Z -> Z -> M Browser unit.
Variable markNotInterested removeNotInterested : Z -> Z -> M Browser unit.

(** X21.  On the details page a click on the favourite button whose
    remote call succeeds flips the favourite state of the show: the id
    is removed from the list or appended to it, the not-interested list
    is untouched, and one alert tells which of the two happened. *)
Theorem toggleFavorite_success (page : ShowDetails.Page) (u : User.t)
  (tid : Z) (b : Browser) :
  let lib := ShowDetails.library page in
  let was := ShowDetails.has (ShowDetails.favoriteIds lib) tid in
  ShowDetails.getTmdbId (ShowDetails.data page) = Some tid ->
  tid <> 0%Z ->
  ShowDetails.user page = Some u ->
  User.id u <> 0%Z ->
  remote_call addFavorite removeFavorite was (User.id u) tid
    (ShowDetails.browser page) = (Ret tt, b) ->
  exists page',
    ShowDetails.handleToggleFavorite addFavorite removeFavorite page
      = (Ret tt, page') /\
    ShowDetails.favoriteIds (ShowDetails.library page')
      = toggled tid (ShowDetails.favoriteIds lib) /\
    ShowDetails.isFavorite (ShowDetails.library page') (ShowDetails.data page')
      = negb (ShowDetails.isFavorite lib (ShowDetails.data page)) /\
    ShowDetails.notInterestedIds (ShowDetails.library page')
      = ShowDetails.notInterestedIds lib /\
    alerts (ShowDetails.browser page') =
      (alerts b ++ [if was then "Removed from favourites."
                    else "Added to favourites."])%list.
Proof.
  intros lib was Htid Hnz Hu Hid Hcall.
  destruct page as [d us lib0 br]. simpl in *. subst us lib was.
  apply Z.eqb_neq in Hnz, Hid.
  unfold ShowDetails.handleToggleFavorite, bind, gets, try_catch,
    ShowDetails.notify, ShowDetails.in_browser, ShowDetails.update, zoom,
    modify, alert.
  cbn [ShowDetails.data ShowDetails.user ShowDetails.library ShowDetails.browser].
  rewrite Htid, Hnz, Hid.
  unfold ShowDetails.isFavorite. rewrite Htid, Hnz.
  unfold remote_call in Hcall.
  destruct (ShowDetails.has (ShowDetails.favoriteIds lib0) tid) eqn:Hhas;
    cbn [ShowDetails.data ShowDetails.user ShowDetails.library
         ShowDetails.browser];
    rewrite Hcall;
    cbn [ShowDetails.data ShowDetails.user ShowDetails.library
         ShowDetails.browser];
    eexists; (split; [reflexivity|]);
    cbn [ShowDetails.data ShowDetails.library ShowDetails.browser
         ShowDetails.favoriteIds ShowDetails.notInterestedIds
         ShowDetails.setFavoriteIds alerts];
    unfold toggled; rewrite Htid, Hnz, Hhas.
  - rewrite has_filter_out. repeat split.
  - rewrite has_snoc. repeat split.
Qed.

End Handlers.

Lemma toggleFavorite_success_witness :
  let add := ApiA.addFavorite (P := Demo.platform) in
  let remove := ApiA.removeFavorite (P := Demo.platform) in
  let page := Demo.details Demo.accepting in
  exists page',
    ShowDetails.handleToggleFavorite add remove page = (Ret tt, page') /\
    ShowDetails.favoriteIds (ShowDetails.library page') = [8%Z; 42%Z] /\
    ShowDetails.isFavorite (ShowDetails.library page') (ShowDetails.data page')
      = true /\
    ShowDetails.notInterestedIds (ShowDetails.library page') = [] /\
    alerts (ShowDetails.browser page') = ["Added to favourites."].
Proof.
  apply (toggleFavorite_success (ApiA.addFavorite (P := Demo.platform))
           (ApiA.removeFavorite (P := Demo.platform))
           (Demo.details Demo.accepting) Demo.ann 42
           (snd (ApiA.addFavorite (P := Demo.platform) 7 42 Demo.accepting)));
    try reflexivity; discriminate.
Defined.

Section SignedOut.
Variable addFavorite removeFavorite : Z -> Z -> M Browser unit.
Variable markNotInterested removeNotInterested : Z -> Z -> M Browser unit.

(** X22.  With nobody signed in, the two buttons of the details page
    make no remote call: each shows its alert and navigates to
    "/login", and the lists stay as they are. *)
Theorem toggle_signed_out (page : ShowDetails.Page) (tid : Z) :
  ShowDetails.getTmdbId (ShowDetails.data page) = Some tid ->
  tid <> 0%Z ->
  signed_out (ShowDetails.user page) = true ->
  ShowDetails.handleToggleFavorite addFavorite removeFavorite page =
    (Ret tt, sent_to_login "Please log in to manage favourites." page) /\
  NotInterested.handleToggleNotInterested markNotInterested removeNotInterested
    page =
    (Ret tt, sent_to_login "Please log in to manage your recommendations." page).
Proof.
  intros Htid Hnz Hout. apply Z.eqb_neq in Hnz.
  unfold ShowDetails.handleToggleFavorite,
    NotInterested.handleToggleNotInterested, bind, gets.
  rewrite Htid, Hnz. unfold signed_out in Hout.
  destruct (ShowDetails.user page) as [u|] eqn:Hu; [rewrite Hout|];
    split; reflexivity.
Qed.

(** X23.  The not-interested button never throws and never touches
    the favourites.  When its remote call succeeds the id is toggled in
    the not-interested list; when the call throws, the list is
    unchanged and the alert shows the message of the error. *)
Theorem toggleNotInterested_outcome (page : ShowDetails.Page) (u : User.t)
  (tid : Z) (o : outcome unit) (b : Browser) :
  let lib := ShowDetails.library page in
  let was := ShowDetails.has (ShowDetails.notInterestedIds lib) tid in
  ShowDetails.getTmdbId (ShowDetails.data page) = Some tid ->
  tid <> 0%Z ->
  ShowDetails.user page = Some u ->
  User.id u <> 0%Z ->
  remote_call markNotInterested removeNotInterested was (User.id u) tid
    (ShowDetails.browser page) = (o, b) ->
  exists page',
    NotInterested.handleToggleNotInterested markNotInterested
      removeNotInterested page = (Ret tt, page') /\
    ShowDetails.favoriteIds (ShowDetails.library page')
      = ShowDetails.favoriteIds lib /\
    ShowDetails.notInterestedIds (ShowDetails.library page')
      = match o with
        | Ret _ => toggled tid (ShowDetails.notInterestedIds lib)
        | Throw _ => ShowDetails.notInterestedIds lib
        end /\
    alerts (ShowDetails.browser page') =
      (alerts b ++ [match o with
                    | Ret _ => if was then "Removed from Not Interested."
                               else "Marked as Not Interested."
                    | Throw e => message e
                    end])%list.
Proof.
  intros lib was Htid Hnz Hu Hid Hcall.
  destruct page as [d us lib0 br]. simpl in *. subst us lib was.
  apply Z.eqb_neq in Hnz, Hid.
  unfold NotInterested.handleToggleNotInterested, bind, gets, try_catch,
    ShowDetails.notify, ShowDetails.in_browser, ShowDetails.update, zoom,
    modify, alert.
  cbn [ShowDetails.data ShowDetails.user ShowDetails.library ShowDetails.browser].
  rewrite Htid, Hnz, Hid.
  unfold remote_call in Hcall.
  destruct (ShowDetails.has (ShowDetails.notInterestedIds lib0) tid) eqn:Hhas;
    cbn [ShowDetails.data ShowDetails.user ShowDetails.library
         ShowDetails.browser];
    rewrite Hcall; destruct o as [[]|e];
    cbn [ShowDetails.data ShowDetails.user ShowDetails.library
         ShowDetails.browser];
    eexists; (split; [reflexivity|]);
    cbn [ShowDetails.data ShowDetails.library ShowDetails.browser
         ShowDetails.favoriteIds ShowDetails.notInterestedIds
         ShowDetails.setNotInterestedIds alerts];
    unfold toggled; rewrite ?Hhas; repeat split.
Qed.

End SignedOut.

Lemma toggle_signed_out_witness :
  let page := Demo.anonymous_details Demo.accepting in
  ShowDetails.handleToggleFavorite (ApiA.addFavorite (P := Demo.platform))
    (ApiA.removeFavorite (P := Demo.platform)) page =
    (Ret tt, sent_to_login "Please log in to manage favourites." page) /\
  NotInterested.handleToggleNotInterested
    (ApiA.markNotInterested (P := Demo.platform))
    (ApiA.removeNotInterested (P := Demo.platform)) page =
    (Ret tt, sent_to_login "Please log in to manage your recommendations." page).
Proof.
  apply (toggle_signed_out (ApiA.addFavorite (P := Demo.platform))
           (ApiA.removeFavorite (P := Demo.platform))
           (ApiA.markNotInterested (P := Demo.platform))
           (ApiA.removeNotInterested (P := Demo.platform))
           (Demo.anonymous_details Demo.accepting) 42);
    try reflexivity; discriminate.
Defined.

Lemma toggleNotInterested_outcome_witness :
  let page := Demo.details (Demo.stale 500 "Internal Server Error") in
  exists page',
    NotInterested.handleToggleNotInterested
      (ApiA.markNotInterested (P := Demo.platform))
      (ApiA.removeNotInterested (P := Demo.platform)) page = (Ret tt, page') /\
    ShowDetails.favoriteIds (ShowDetails.library page') = [8%Z] /\
    ShowDetails.notInterestedIds (ShowDetails.library page') = [] /\
    alerts (ShowDetails.browser page') = ["HTTP 500"].
Proof.
  apply (toggleNotInterested_outcome
           (ApiA.markNotInterested (P := Demo.platform))
           (ApiA.removeNotInterested (P := Demo.platform))
           (Demo.details (Demo.stale 500 "Internal Server Error"))
           Demo.ann 42 (Throw (Error "HTTP 500"))
           (snd (ApiA.markNotInterested (P := Demo.platform) 7 42
                   (Demo.stale 500 "Internal Server Error"))));
    try reflexivity; discriminate.
Defined.

(** ** The favourites page *)

Lemma ratingsMap_snoc rs r :
  FavoritesPage.ratingsMap (rs ++ [r])%list =
  match FavoritesPage.getTmdbId r with
  | Some tmdb => <[tmdb := r]> (FavoritesPage.ratingsMap rs)
  | None => FavoritesPage.ratingsMap rs
  end.
Proof. unfold FavoritesPage.ratingsMap. now rewrite fold_left_app. Qed.

(** X24.  On the favourites page the memo of ratings holds, for every
    show id, the last rating of that id in the list of ratings (later
    ratings replace earlier ones), and the rating shown on a tile is
    the rating of that entry. *)
Theorem ratingsMap_latest (rs : list UserRating.t) (k : Z) :
  FavoritesPage.ratingsMap rs !! k = last (ratings_of k rs) /\
  forall s : Show.t,
    FavoritesPage.myRating (FavoritesPage.tile rs s) =
    UserRating.rating <$>
      (FavoritesPage.getTmdbId s ≫= fun tmdb => last (ratings_of tmdb rs)).
Proof.
  assert (H : forall k, FavoritesPage.ratingsMap rs !! k = last (ratings_of k rs)).
  { clear k. intros k. induction rs as [|r rs IH] using rev_ind; [reflexivity|].
    rewrite ratingsMap_snoc. unfold ratings_of in *. rewrite filter_app.
    rewrite filter_cons, filter_nil.
    destruct (FavoritesPage.getTmdbId r) as [tmdb|] eqn:E.
    - destruct (decide (Some tmdb = Some k)) as [[= ->]|Hne].
      + rewrite lookup_insert_eq. now rewrite last_snoc.
      + rewrite lookup_insert_ne by congruence.
        now rewrite app_nil_r.
    - destruct (decide (None = Some k)); [discriminate|].
      now rewrite app_nil_r. }
  split; [apply H|].
  intros s. unfold FavoritesPage.tile. cbn [FavoritesPage.myRating].
  destruct (FavoritesPage.getTmdbId s) as [tmdb|]; [|reflexivity].
  cbn. now rewrite H.
Qed.

Section FavouritesPage.
Variable listFavoriteShows : Z -> M Browser (option (list Show.t)).
Variable listRatings : Z -> M Browser (option (list UserRating.t)).

(** X25.  The two loads of the favourites page never throw, whatever
    the API call does: an error is logged to the console.  With a user
    the loading flag of the load is false when it is done, after a
    failure as after a success, and each load leaves the state of the
    other one alone. *)
Theorem fetch_never_throws (user : option User.t) (s : FavoritesPage.State) :
  let out := FavoritesPage.fetchFavorites listFavoriteShows user s in
  let out' := FavoritesPage.fetchRatings listRatings user s in
  (fst out = Ret tt /\
   FavoritesPage.ratings (snd out) = FavoritesPage.ratings s /\
   FavoritesPage.loadingRatings (snd out) = FavoritesPage.loadingRatings s /\
   FavoritesPage.loading (snd out) =
     match user with Some _ => false | None => FavoritesPage.loading s end) /\
  (fst out' = Ret tt /\
   FavoritesPage.list_ (snd out') = FavoritesPage.list_ s /\
   FavoritesPage.loading (snd out') = FavoritesPage.loading s /\
   FavoritesPage.loadingRatings (snd out') =
     match user with Some _ => false | None => FavoritesPage.loadingRatings s end).
Proof.
  destruct s as [l r lo lr br]. destruct user as [u|]; [|repeat split].
  cbv zeta.
  unfold FavoritesPage.fetchFavorites, FavoritesPage.fetchRatings, bind,
    finally, try_catch, FavoritesPage.in_browser, zoom,
    FavoritesPage.setLoading, FavoritesPage.setLoadingRatings,
    FavoritesPage.setList, FavoritesPage.setRatings, modify, console_error.
  cbn [FavoritesPage.browser FavoritesPage.list_ FavoritesPage.ratings
       FavoritesPage.loading FavoritesPage.loadingRatings].
  split.
  - destruct (listFavoriteShows (User.id u) br) as [[favs|e] b]; repeat split.
  - destruct (listRatings (User.id u) br) as [[res|e] b]; repeat split.
Qed.

End FavouritesPage.

Section Removal.
Variable removeFavorite : Z -> Z -> M Browser unit.

(** X26.  Removing a favourite on the favourites page never throws
    and leaves the ratings alone.  When the remote call succeeds, the
    shows of that id, and only they, leave the list, in place; when it
    throws, the list is as before and the error is logged. *)
Theorem handleRemove_outcome (s : FavoritesPage.State) (u : User.t)
  (show : Show.t) (tmdb : Z) (o : outcome unit) (b : Browser) :
  FavoritesPage.getTmdbId show = Some tmdb ->
  removeFavorite (User.id u) tmdb (FavoritesPage.browser s) = (o, b) ->
  exists s',
    FavoritesHandlers.handleRemove removeFavorite (Some u) show s = (Ret tt, s') /\
    FavoritesPage.ratings s' = FavoritesPage.ratings s /\
    match o with
    | Ret _ =>
        (show ∉ FavoritesPage.list_ s') /\
        (forall x, x ∈ FavoritesPage.list_ s' <->
                   (x ∈ FavoritesPage.list_ s /\
                    FavoritesPage.getTmdbId x <> Some tmdb)) /\
        FavoritesPage.list_ s' `sublist_of` FavoritesPage.list_ s /\
        FavoritesPage.browser s' = b
    | Throw e =>
        FavoritesPage.list_ s' = FavoritesPage.list_ s /\
        FavoritesPage.browser s' =
          snd (console_error "Failed to remove favourite:" e b)
    end.
Proof.
  intros Hid Hcall. destruct s as [l r lo lr br]. simpl in *.
  unfold FavoritesHandlers.handleRemove, bind, try_catch,
    FavoritesPage.in_browser, zoom, FavoritesHandlers.updateList, modify.
  rewrite Hid.
  cbn [FavoritesPage.browser FavoritesPage.list_ FavoritesPage.ratings
       FavoritesPage.loading FavoritesPage.loadingRatings].
  rewrite Hcall. destruct o as [[]|e]; eexists; (split; [reflexivity|]);
    cbn [FavoritesPage.browser FavoritesPage.list_ FavoritesPage.ratings];
    (split; [reflexivity|]).
  - split; [|split; [|split; [|reflexivity]]].
    + rewrite list_elem_of_filter. intros [Hne _]. congruence.
    + intros x. rewrite list_elem_of_filter. tauto.
    + apply sublist_filter.
  - split; reflexivity.
Qed.

End Removal.

Lemma handleRemove_outcome_witness :
  let remove := ApiA.removeFavorite (P := Demo.platform) in
  let s := Demo.two_favourites Demo.accepting in
  exists s',
    FavoritesHandlers.handleRemove remove (Some Demo.ann)
      (Demo.favourite 42 "Severance") s = (Ret tt, s') /\
    FavoritesPage.ratings s' = FavoritesPage.ratings s /\
    (Demo.favourite 42 "Severance" ∉ FavoritesPage.list_ s') /\
    (forall x, x ∈ FavoritesPage.list_ s' <->
               (x ∈ FavoritesPage.list_ s /\
                FavoritesPage.getTmdbId x <> Some 42%Z)) /\
    FavoritesPage.list_ s' `sublist_of` FavoritesPage.list_ s /\
    FavoritesPage.browser s' = snd (remove 7%Z 42%Z Demo.accepting).
Proof.
  apply (handleRemove_outcome (ApiA.removeFavorite (P := Demo.platform))
           (Demo.two_favourites Demo.accepting) Demo.ann
           (Demo.favourite 42 "Severance") 42 (Ret tt)
           (snd (ApiA.removeFavorite (P := Demo.platform) 7 42 Demo.accepting)));
    reflexivity.
Defined.

(** ** The effects of the details page, continued *)

Module LatestShow.
Import UseTmdbShow.

Lemma other_load_step s g ph ev :
  latest_only cancelled (runs s) (cleanup s) ->
  runs s !! g = Some {| cancelled := false; phase := ph |} ->
  other_load g ev = true ->
  latest_only cancelled (runs (step s ev)) (cleanup (step s ev)) /\
  runs (step s ev) !! g = Some {| cancelled := false; phase := ph |} /\
  view (step s ev) = view s.
Proof.
  intros Hinv Hg Hev.
  split; [now apply StaleShow.show_step_invariant|].
  destruct (Hinv g _ Hg eq_refl) as [_ Hlast].
  assert (Hstale : forall g' c p, g' <> g -> runs s !! g' = Some {| cancelled := c; phase := p |} -> c = true).
  { intros g' c p Hne E. destruct c; [reflexivity|].
    destruct (Hinv g' _ E eq_refl) as [_ Hlast']. lia. }
  destruct ev as [id| |g' r|g' r]; try discriminate; simpl in Hev;
    apply negb_true_iff, Nat.eqb_neq in Hev; simpl;
    destruct (runs s !! g') as [[c []]|] eqn:E; try (split; [exact Hg|reflexivity]);
    pose proof (Hstale g' _ _ Hev E) as ->.
  - destruct r as [m|res]; [|destruct (negb (ok res))]; unfold resume; simpl;
      (split; [rewrite list_lookup_alter_ne by exact Hev; exact Hg|reflexivity]).
  - destruct r as [d|e]; unfold resume; simpl;
      (split; [rewrite list_lookup_alter_ne by exact Hev; exact Hg|reflexivity]).
Qed.

Lemma other_load_exec evs s g ph :
  latest_only cancelled (runs s) (cleanup s) ->
  runs s !! g = Some {| cancelled := false; phase := ph |} ->
  forallb (other_load g) evs = true ->
  latest_only cancelled (runs (exec s evs)) (cleanup (exec s evs)) /\
  runs (exec s evs) !! g = Some {| cancelled := false; phase := ph |} /\
  view (exec s evs) = view s.
Proof.
  revert s. induction evs as [|ev evs IH]; intros s Hinv Hg Hevs.
  - split; [exact Hinv|split; [exact Hg|reflexivity]].
  - simpl in Hevs. apply andb_true_iff in Hevs as [Hev Hevs].
    destruct (other_load_step s g ph ev Hinv Hg Hev) as (Hinv' & Hg' & Hv).
    destruct (IH (step s ev) Hinv' Hg' Hevs) as (H1 & H2 & H3).
    change (exec s (ev :: evs)) with (exec (step s ev) evs).
    split; [exact H1|split; [exact H2|]]. rewrite H3. exact Hv.
Qed.

Lemma render_starts s id :
  latest_only cancelled (runs s) (cleanup s) ->
  valid_id id = true ->
  latest_only cancelled (runs (step s (Render id))) (cleanup (step s (Render id))) /\
  runs (step s (Render id)) !! length (runs s)
    = Some {| cancelled := false; phase := AwaitingFetch |} /\
  view (step s (Render id)) = setError None (setLoading true (view s)).
Proof.
  intros Hinv Hid.
  split; [now apply StaleShow.show_step_invariant|].
  simpl. unfold run_effect. rewrite Hid. simpl.
  assert (Hlen : length (runs (run_cleanup s)) = length (runs s)).
  { unfold run_cleanup. destruct (cleanup s); simpl; [apply length_alter|reflexivity]. }
  assert (Hview : view (run_cleanup s) = view s).
  { unfold run_cleanup. now destruct (cleanup s). }
  rewrite Hview. split; [|reflexivity].
  rewrite <- Hlen. rewrite lookup_app_r by lia.
  now rewrite Nat.sub_diag.
Qed.

End LatestShow.

(** X27.  The load of the latest render is the one that is shown.
    After any history, a render with a valid id starts a load: the view
    is loading, without error, with the data it had.  Whatever settles
    for other loads meanwhile, a response that is not ok ends it with
    the error "HTTP <status>" over the data of before, and a response
    that is ok followed by its body ends it with that body as data,
    not loading and without error. *)
Theorem latest_load_is_shown (pre evs1 evs2 : list UseTmdbShow.Event)
  (id : option Z) (res : Response) (d : UseTmdbShow.TmdbShow) :
  let s0 := UseTmdbShow.exec UseTmdbShow.initial pre in
  let g := length (UseTmdbShow.runs s0) in
  let answered :=
    (pre ++ [UseTmdbShow.Render id] ++ evs1 ++
     [UseTmdbShow.FetchSettled g (Responded res)])%list in
  UseTmdbShow.valid_id id = true ->
  forallb (other_load g) evs1 = true ->
  forallb (other_load g) evs2 = true ->
  UseTmdbShow.view (UseTmdbShow.exec UseTmdbShow.initial
                      (pre ++ [UseTmdbShow.Render id] ++ evs1)) =
    {| UseTmdbShow.data := UseTmdbShow.data (UseTmdbShow.view s0);
       UseTmdbShow.loading := true; UseTmdbShow.error := None |} /\
  (ok res = false ->
   UseTmdbShow.view (UseTmdbShow.exec UseTmdbShow.initial (answered ++ evs2)) =
     {| UseTmdbShow.data := UseTmdbShow.data (UseTmdbShow.view s0);
        UseTmdbShow.loading := false;
        UseTmdbShow.error := Some ("HTTP " ++ pretty (status res)) |}) /\
  (ok res = true ->
   UseTmdbShow.view
     (UseTmdbShow.exec UseTmdbShow.initial
        (answered ++ evs2 ++ [UseTmdbShow.JsonSettled g (Ret d)])) =
     {| UseTmdbShow.data := Some d; UseTmdbShow.loading := false;
        UseTmdbShow.error := None |}).
Proof.
  intros s0 g answered Hid H1 H2.
  assert (Hinv0 : latest_only UseTmdbShow.cancelled (UseTmdbShow.runs s0)
                    (UseTmdbShow.cleanup s0)).
  { apply StaleShow.show_exec_invariant, latest_only_nil. }
  destruct (LatestShow.render_starts s0 id Hinv0 Hid) as (Ha & Hb & Hc).
  fold g in Hb.
  destruct (LatestShow.other_load_exec evs1 _ g _ Ha Hb H1) as (Ha1 & Hb1 & Hc1).
  set (s1 := UseTmdbShow.exec (UseTmdbShow.step s0 (UseTmdbShow.Render id)) evs1) in *.
  assert (E1 : UseTmdbShow.exec UseTmdbShow.initial
                 (pre ++ [UseTmdbShow.Render id] ++ evs1) = s1).
  { unfold UseTmdbShow.exec. rewrite !fold_left_app. reflexivity. }
  assert (Ean : UseTmdbShow.exec UseTmdbShow.initial answered =
                UseTmdbShow.step s1 (UseTmdbShow.FetchSettled g (Responded res))).
  { unfold answered, UseTmdbShow.exec. rewrite !fold_left_app. reflexivity. }
  split; [|split].
  - rewrite E1, Hc1, Hc. reflexivity.
  - intros Hok.
    unfold UseTmdbShow.exec. rewrite fold_left_app.
    fold (UseTmdbShow.exec UseTmdbShow.initial answered). rewrite Ean.
    set (s2 := UseTmdbShow.step s1 _).
    assert (Hv2 : UseTmdbShow.view s2 =
                  {| UseTmdbShow.data := UseTmdbShow.data (UseTmdbShow.view s0);
                     UseTmdbShow.loading := false;
                     UseTmdbShow.error := Some ("HTTP " ++ pretty (status res)) |}).
    { subst s2. simpl. rewrite Hb1, Hok. simpl. rewrite Hc1, Hc. reflexivity. }
    assert (Hr2 : UseTmdbShow.runs s2 !! g =
                  Some {| UseTmdbShow.cancelled := false;
                          UseTmdbShow.phase := UseTmdbShow.Finished |}).
    { subst s2. simpl. rewrite Hb1, Hok. simpl.
      rewrite list_lookup_alter_eq, Hb1. reflexivity. }
    assert (Hi2 : latest_only UseTmdbShow.cancelled (UseTmdbShow.runs s2)
                    (UseTmdbShow.cleanup s2)).
    { now apply StaleShow.show_step_invariant. }
    destruct (LatestShow.other_load_exec evs2 _ g _ Hi2 Hr2 H2) as (_ & _ & Hv).
    fold (UseTmdbShow.exec s2 evs2). now rewrite Hv.
  - intros Hok.
    unfold UseTmdbShow.exec. rewrite !fold_left_app.
    fold (UseTmdbShow.exec UseTmdbShow.initial answered). rewrite Ean.
    set (s2 := UseTmdbShow.step s1 _).
    assert (Hv2 : UseTmdbShow.view s2 = UseTmdbShow.view s1).
    { subst s2. simpl. rewrite Hb1, Hok. reflexivity. }
    assert (Hr2 : UseTmdbShow.runs s2 !! g =
                  Some {| UseTmdbShow.cancelled := false;
                          UseTmdbShow.phase := UseTmdbShow.AwaitingJson |}).
    { subst s2. simpl. rewrite Hb1, Hok. simpl.
      rewrite list_lookup_alter_eq, Hb1. reflexivity. }
    assert (Hi2 : latest_only UseTmdbShow.cancelled (UseTmdbShow.runs s2)
                    (UseTmdbShow.cleanup s2)).
    { now apply StaleShow.show_step_invariant. }
    destruct (LatestShow.other_load_exec evs2 _ g _ Hi2 Hr2 H2) as (_ & Hr3 & Hv).
    fold (UseTmdbShow.exec s2 evs2). simpl.
    rewrite Hr3. simpl. rewrite Hv, Hv2, Hc1, Hc. reflexivity.
Qed.

Lemma latest_load_is_shown_witness :
  let s0 := UseTmdbShow.exec UseTmdbShow.initial Demo.overtaken in
  UseTmdbShow.view
    (UseTmdbShow.exec UseTmdbShow.initial
       (Demo.overtaken ++ [UseTmdbShow.Render (Some 2%Z)] ++ Demo.late_answer ++
        [UseTmdbShow.FetchSettled 1 Demo.found] ++ Demo.late_body ++
        [UseTmdbShow.JsonSettled 1 (Ret (Demo.show 2 "Dark"))])) =
    {| UseTmdbShow.data := Some (Demo.show 2 "Dark");
       UseTmdbShow.loading := false; UseTmdbShow.error := None |} /\
  UseTmdbShow.view
    (UseTmdbShow.exec UseTmdbShow.initial
       (Demo.overtaken ++ [UseTmdbShow.Render (Some 2%Z)] ++ Demo.late_answer ++
        [UseTmdbShow.FetchSettled 1 (Responded Demo.not_found)] ++
        Demo.late_body)) =
    {| UseTmdbShow.data := None; UseTmdbShow.loading := false;
       UseTmdbShow.error := Some "HTTP 404" |}.
Proof.
  split.
  - apply (latest_load_is_shown Demo.overtaken Demo.late_answer Demo.late_body
             (Some 2%Z) (Demo.response 200 "OK" None) (Demo.show 2 "Dark"));
      reflexivity.
  - apply (latest_load_is_shown Demo.overtaken Demo.late_answer Demo.late_body
             (Some 2%Z) Demo.not_found (Demo.show 2 "Dark"));
      reflexivity.
Defined.

Module SignOut.
Import ShowDetails ShowDetails.Effect.

Lemma cancelled_step s ev :
  all_cancelled cancelled (runs s) ->
  no_render ev = true ->
  all_cancelled cancelled (runs (step s ev)) /\
  Effect.library (step s ev) = Effect.library s.
Proof.
  intros Hall Hev.
  assert (Halter : forall f g, (forall r, cancelled r = true -> cancelled (f r) = true) ->
                               all_cancelled cancelled (alter f g (runs s))).
  { intros f g Hf i r Hi.
    destruct (decide (i = g)) as [->|Hne].
    - rewrite list_lookup_alter_eq in Hi.
      destruct (runs s !! g) as [r0|] eqn:E; simpl in Hi; [|discriminate].
      injection Hi as <-. apply Hf. exact (Hall g r0 E).
    - rewrite list_lookup_alter_ne in Hi by congruence. exact (Hall i r Hi). }
  destruct ev as [uid| |g r|g r]; try discriminate; simpl.
  - unfold run_cleanup. destruct (cleanup s); simpl; [|now split].
    split; [|reflexivity]. apply Halter. reflexivity.
  - destruct (runs s !! g) as [this|] eqn:E; [|now split].
    destruct (favoritesPending this); [|now split]. simpl.
    split; [apply Halter; now intros []|].
    rewrite (Hall g this E). unfold favorites_settled. now destruct r.
  - destruct (runs s !! g) as [this|] eqn:E; [|now split].
    destruct (notInterestedPending this); [|now split]. simpl.
    split; [apply Halter; now intros []|].
    rewrite (Hall g this E). unfold notInterested_settled. now destruct r.
Qed.

Lemma cancelled_exec evs s :
  all_cancelled cancelled (runs s) ->
  forallb no_render evs = true ->
  Effect.library (exec s evs) = Effect.library s.
Proof.
  revert s. induction evs as [|ev evs IH]; intros s Hall Hevs; [reflexivity|].
  simpl in Hevs. apply andb_true_iff in Hevs as [Hev Hevs].
  destruct (cancelled_step s ev Hall Hev) as (Hall' & Hlib).
  change (exec s (ev :: evs)) with (exec (step s ev) evs).
  rewrite (IH _ Hall' Hevs). exact Hlib.
Qed.

End SignOut.

(** X28.  When the user of the details page signs out before the two
    lists of the previous user have arrived, both lists are emptied and
    both loading flags stay set: the run that would clear them is
    cancelled, and nothing that settles afterwards changes them. *)
Theorem sign_out_while_loading (pre evs : list ShowDetails.Effect.Event)
  (uid nobody : option Z) :
  let lib :=
    ShowDetails.Effect.library
      (ShowDetails.Effect.exec ShowDetails.Effect.initial
         (pre ++ [ShowDetails.Effect.Render uid;
                  ShowDetails.Effect.Render nobody] ++ evs)) in
  ShowDetails.Effect.no_user uid = false ->
  ShowDetails.Effect.no_user nobody = true ->
  forallb no_render evs = true ->
  ShowDetails.favoriteIds lib = [] /\
  ShowDetails.notInterestedIds lib = [] /\
  ShowDetails.favoritesLoading lib = true /\
  ShowDetails.notInterestedLoading lib = true.
Proof.
  intros lib Hu Hn Hevs. subst lib.
  unfold ShowDetails.Effect.exec. rewrite !fold_left_app.
  set (s0 := fold_left ShowDetails.Effect.step pre ShowDetails.Effect.initial).
  assert (Hinv0 : latest_only ShowDetails.Effect.cancelled
                    (ShowDetails.Effect.runs s0) (ShowDetails.Effect.cleanup s0)).
  { apply StaleLibrary.library_exec_invariant, latest_only_nil. }
  cbn [fold_left].
  set (s1 := ShowDetails.Effect.step s0 (ShowDetails.Effect.Render uid)).
  assert (Hinv1 : latest_only ShowDetails.Effect.cancelled
                    (ShowDetails.Effect.runs s1) (ShowDetails.Effect.cleanup s1)).
  { now apply StaleLibrary.library_step_invariant. }
  destruct (StaleLibrary.library_cleanup_spec s1 Hinv1) as (Hall & _).
  set (s2 := ShowDetails.Effect.step s1 (ShowDetails.Effect.Render nobody)).
  assert (Hall2 : all_cancelled ShowDetails.Effect.cancelled
                    (ShowDetails.Effect.runs s2)).
  { subst s2. simpl. unfold ShowDetails.Effect.run_effect. rewrite Hn. exact Hall. }
  fold (ShowDetails.Effect.exec s2 evs).
  rewrite (SignOut.cancelled_exec evs s2 Hall2 Hevs).
  assert (Hl1 : ShowDetails.Effect.library (ShowDetails.Effect.run_cleanup s1)
                = ShowDetails.Effect.library s1).
  { unfold ShowDetails.Effect.run_cleanup.
    now destruct (ShowDetails.Effect.cleanup s1). }
  assert (Hlib2 : ShowDetails.Effect.library s2 =
                  ShowDetails.setNotInterestedError None
                    (ShowDetails.setFavoritesError None
                       (ShowDetails.setNotInterestedIds (fun _ => [])
                          (ShowDetails.setFavoriteIds (fun _ => [])
                             (ShowDetails.Effect.library s1))))).
  { subst s2. simpl. unfold ShowDetails.Effect.run_effect. rewrite Hn.
    cbn [ShowDetails.Effect.library]. now rewrite Hl1. }
  assert (Hlib1 : ShowDetails.favoritesLoading (ShowDetails.Effect.library s1)
                  = true /\
                  ShowDetails.notInterestedLoading (ShowDetails.Effect.library s1)
                  = true).
  { subst s1. simpl. unfold ShowDetails.Effect.run_effect. rewrite Hu.
    split; reflexivity. }
  rewrite Hlib2. destruct Hlib1 as [Hf Hni].
  split; [reflexivity|]. split; [reflexivity|]. split; [exact Hf|exact Hni].
Qed.

Lemma sign_out_while_loading_witness :
  let lib :=
    ShowDetails.Effect.library
      (ShowDetails.Effect.exec ShowDetails.Effect.initial
         ([] ++ [ShowDetails.Effect.Render (Some 7%Z);
                 ShowDetails.Effect.Render None] ++ Demo.late_lists)) in
  ShowDetails.favoriteIds lib = [] /\
  ShowDetails.notInterestedIds lib = [] /\
  ShowDetails.favoritesLoading lib = true /\
  ShowDetails.notInterestedLoading lib = true.
Proof.
  apply (sign_out_while_loading [] Demo.late_lists (Some 7%Z) None);
    reflexivity.
Defined.

(** ** Helpers of the details page *)

Section UniqByProperties.
Context {T K : Type} `{Countable K}.
Variable keyFn : T -> K.

Lemma uniqBy_loop (arr : list T) :
  fst (fold_left (Helpers.uniqBy_step keyFn) arr (∅, []))
    = list_to_set (keyFn <$> Helpers.uniqBy arr keyFn).
Proof.
  unfold Helpers.uniqBy.
  induction arr as [|x arr IH] using rev_ind; [reflexivity|].
  rewrite fold_left_app. simpl.
  destruct (fold_left _ arr _) as [seen out] eqn:E. simpl in IH.
  unfold Helpers.uniqBy_step. simpl.
  destruct (decide (keyFn x ∈ seen)); simpl; [exact IH|].
  rewrite fmap_app, list_to_set_app_L. simpl. rewrite IH.
  rewrite (right_id_L ∅ (∪)). apply (comm_L (∪)).
Qed.

Lemma uniqBy_snoc (arr : list T) (x : T) :
  Helpers.uniqBy (arr ++ [x])%list keyFn =
  if decide (keyFn x ∈ keyFn <$> Helpers.uniqBy arr keyFn)
  then Helpers.uniqBy arr keyFn
  else (Helpers.uniqBy arr keyFn ++ [x])%list.
Proof.
  pose proof (uniqBy_loop arr) as Hseen.
  unfold Helpers.uniqBy in *. rewrite fold_left_app. simpl.
  destruct (fold_left _ arr _) as [seen out] eqn:E. simpl in *.
  unfold Helpers.uniqBy_step. simpl. subst seen.
  destruct (decide (keyFn x ∈ list_to_set (keyFn <$> out))) as [Hi|Hi];
    destruct (decide (keyFn x ∈ keyFn <$> out)) as [Hj|Hj]; try reflexivity;
    exfalso; rewrite elem_of_list_to_set in Hi; contradiction.
Qed.

Lemma head_app {A} (l l' : list A) :
  head (l ++ l')%list = match head l with Some a => Some a | None => head l' end.
Proof. now destruct l. Qed.

(** X29.  [uniqBy] keeps, in the order of the array, the first item of
    every key and nothing else: the keys of the result are pairwise
    different, the result is a sublist of the array, and for every key
    the first item of that key is the same in both. *)
Theorem uniqBy_first_of_each_key (arr : list T) :
  let out := Helpers.uniqBy arr keyFn in
  NoDup (keyFn <$> out) /\
  out `sublist_of` arr /\
  forall k, head (filter (fun x => keyFn x = k) out)
            = head (filter (fun x => keyFn x = k) arr).
Proof.
  cbv zeta. induction arr as [|x arr (Hnd & Hsub & Hhead)] using rev_ind.
  - split; [constructor|]. split; [constructor|]. reflexivity.
  - rewrite uniqBy_snoc.
    destruct (decide (keyFn x ∈ keyFn <$> Helpers.uniqBy arr keyFn)) as [Hin|Hnin].
    + split; [exact Hnd|]. split; [now apply sublist_inserts_r|].
      intros k. rewrite filter_app, head_app, <- Hhead.
      destruct (head (filter (fun x0 => keyFn x0 = k) (Helpers.uniqBy arr keyFn)))
        as [a|] eqn:E; [reflexivity|].
      rewrite filter_cons, filter_nil.
      destruct (decide (keyFn x = k)) as [Hk|]; [|reflexivity].
      exfalso. apply list_elem_of_fmap in Hin as (y & Hy & Hin).
      assert (Hy' : y ∈ filter (fun x0 => keyFn x0 = k) (Helpers.uniqBy arr keyFn)).
      { apply list_elem_of_filter. split; [congruence|exact Hin]. }
      destruct (filter _ (Helpers.uniqBy arr keyFn)); [inversion Hy'|discriminate].
    + split; [|split].
      * rewrite fmap_app. apply NoDup_app. split; [exact Hnd|].
        split; [|apply NoDup_singleton].
        intros k Hk Hk'. simpl in Hk'. apply list_elem_of_singleton in Hk'.
        subst. contradiction.
      * now apply sublist_app.
      * intros k. rewrite !filter_app, !head_app, Hhead. reflexivity.
Qed.

End UniqByProperties.

Lemma try_url_spec (u : string) (b : Browser) :
  exists b', Helpers.try_url u b = (Ret (ok_json b (length (sent b)) u), b') /\
             after_requests b [Helpers.bare u] b'.
Proof.
  unfold Helpers.try_url, try_catch, bind, fetch, ok_json.
  destruct (network b (length (sent b)) (Helpers.bare u)) as [m|res];
    [eexists; split; [reflexivity|repeat split]|].
  destruct (ok res); simpl; [|eexists; split; [reflexivity|repeat split]].
  unfold res_json. destruct (bodyUsed res); simpl;
    [eexists; split; [reflexivity|repeat split]|].
  destruct (body_json res); eexists; (split; [reflexivity|repeat split]).
Qed.

(** X30.  [fetchFirstOkJson] never throws.  It asks the addresses in
    their order, one request each, and stops at the first one that
    answers with an ok response whose body is JSON, which it returns;
    every address before that one failed, and when all fail it returns
    null.  It touches nothing else in the browser. *)
Theorem fetchFirstOkJson_first_ok (urls : list string) (b : Browser) :
  exists (n : nat) (j : json) (b' : Browser),
    Helpers.fetchFirstOkJson urls b = (Ret j, b') /\
    n <= length urls /\
    after_requests b (Helpers.bare <$> take n urls) b' /\
    (forall i u, S i < n -> urls !! i = Some u ->
                 ok_json b (length (sent b) + i) u = None) /\
    match n with
    | 0 => urls = [] /\ j = JNull
    | S m =>
        exists u, urls !! m = Some u /\
          match ok_json b (length (sent b) + m) u with
          | Some j' => j = j'
          | None => n = length urls /\ j = JNull
          end
    end.
Proof.
  revert b. induction urls as [|u rest IH]; intros b.
  - exists 0, JNull, b. split; [reflexivity|]. split; [reflexivity|].
    split; [unfold after_requests; rewrite app_nil_r; repeat split|].
    split; [intros i u' Hi; lia|]. split; reflexivity.
  - destruct (try_url_spec u b) as (b1 & Htry & Hafter).
    destruct Hafter as (Hsent & Hnet & Hls & Hce & Hal & Hnav).
    cbn [Helpers.fetchFirstOkJson]. unfold bind at 1. rewrite Htry.
    destruct (ok_json b (length (sent b)) u) as [j|] eqn:Hj.
    + exists 1, j, b1. split; [reflexivity|]. split; [simpl; lia|].
      split; [repeat split; assumption|].
      split; [intros i u' Hi; lia|].
      exists u. split; [reflexivity|]. rewrite Nat.add_0_r, Hj. reflexivity.
    + destruct (IH b1) as (n & j & b' & Hrun & Hle & Haft & Hearlier & Hlast).
      destruct Haft as (Hsent' & Hnet' & Hls' & Hce' & Hal' & Hnav').
      assert (Hlen : length (sent b1) = S (length (sent b))).
      { rewrite Hsent, length_app. simpl. lia. }
      assert (Hok : forall k u', ok_json b1 k u' = ok_json b k u').
      { intros k u'. unfold ok_json. now rewrite Hnet. }
      destruct n as [|m].
      * destruct Hlast as [-> ->].
        exists 1, JNull, b'. split; [exact Hrun|]. split; [simpl; lia|].
        split.
        { simpl in *. rewrite app_nil_r in Hsent'.
          repeat split; congruence. }
        split; [intros i u' Hi; lia|].
        exists u. split; [reflexivity|]. rewrite Nat.add_0_r, Hj.
        split; reflexivity.
      * exists (S (S m)), j, b'. split; [exact Hrun|]. split; [simpl; lia|].
        split.
        { repeat split; try congruence.
          rewrite Hsent', Hsent. cbn [take fmap list_fmap].
          now rewrite <- app_assoc. }
        split.
        { intros [|i] u' Hi Hu'.
          - injection Hu' as <-. now rewrite Nat.add_0_r.
          - simpl in Hu'. rewrite <- (Hearlier i u') by (lia || assumption).
            rewrite Hok, Hlen. f_equal. lia. }
        destruct Hlast as (u' & Hu' & Hres). exists u'. split; [exact Hu'|].
        rewrite Hok, Hlen in Hres.
        replace (length (sent b) + S m) with (S (length (sent b)) + m) by lia.
        destruct (ok_json b (S (length (sent b)) + m) u'); [exact Hres|].
        destruct Hres as [Hn ->]. split; [simpl; lia|reflexivity].
Qed.
